(** * DLsite_DB_Crawler: identifier codec, range planner and ingestion pipeline

    A shallow embedding of [DLsite_DB_Crawler.py].  Python [str] values are
    Rocq strings (code points below 256; identifiers are ASCII), Python [int]
    values are [Z], exceptions are an explicit [outcome], and the files, the
    in-memory catalog and the traces of external calls live in a [World]
    record threaded through a small state-and-exception monad. *)

From Stdlib Require Import ZArith Lia Ascii String List Bool.
From stdpp Require Import base tactics option list numbers strings.

Local Open Scope string_scope.
Local Open Scope list_scope.
Local Open Scope Z_scope.

#[local] Arguments String.append !_ _ / : simpl nomatch.

(** ** Exceptions *)

Inductive exn : Type :=
  | ValueError | TypeError | KeyError | IndexError | AttributeError
  | OverflowError | KeyboardInterrupt.

Inductive outcome (A : Type) : Type :=
  | Ok (a : A)
  | Raise (e : exn).
Arguments Ok {A} a.
Arguments Raise {A} e.

(** ** Python string primitives *)

Module PyStr.

Definition code (c : ascii) : Z := Z.of_N (N_of_ascii c).

Definition is_digit (c : ascii) : bool := (48 <=? code c) && (code c <=? 57).
Definition is_upper (c : ascii) : bool := (65 <=? code c) && (code c <=? 90).
(** [str.isspace] on code points below 256: TAB, LF, VT, FF, CR, FS, GS, RS,
    US, SPACE, NEL and the no-break space. *)
Definition is_space (c : ascii) : bool :=
  ((9 <=? code c) && (code c <=? 13)) || ((28 <=? code c) && (code c <=? 32))
  || (code c =? 133) || (code c =? 160).

Definition digit_val (c : ascii) : Z := code c - 48.
Definition digit_char (d : Z) : ascii := ascii_of_N (Z.to_N (48 + d)).

(** [s[:n]] and [s[n:]] for [n >= 0]. *)
Fixpoint take (n : nat) (s : string) : string :=
  match n, s with
  | S n', String c r => String c (take n' r)
  | _, _ => ""
  end.

Fixpoint drop (n : nat) (s : string) : string :=
  match n, s with
  | S n', String _ r => drop n' r
  | _, _ => s
  end.

Definition is_empty (s : string) : bool :=
  match s with "" => true | _ => false end.

(** [s.startswith(p)] *)
Fixpoint startswith (p s : string) : bool :=
  match p, s with
  | "", _ => true
  | String a p', String b s' => if Ascii.eqb a b then startswith p' s' else false
  | _, _ => false
  end.

Fixpoint endswith_char (c : ascii) (s : string) : bool :=
  match s with
  | "" => false
  | String a "" => Ascii.eqb a c
  | String _ r => endswith_char c r
  end.

Fixpoint lstrip (s : string) : string :=
  match s with
  | String c r => if is_space c then lstrip r else s
  | "" => ""
  end.

Fixpoint rstrip (s : string) : string :=
  match s with
  | "" => ""
  | String c r =>
      let r' := rstrip r in
      if is_space c && is_empty r' then "" else String c r'
  end.

(** [s.strip()] *)
Definition strip (s : string) : string := rstrip (lstrip s).

(** The white space [int] accepts around a literal: the ASCII white space
    of C and the two white space characters above 127, which are turned
    into spaces first.  The separators U+001C to U+001F, which [str.strip]
    removes, are not among them. *)
Definition is_int_space (c : ascii) : bool :=
  ((9 <=? code c) && (code c <=? 13)) || (code c =? 32)
  || (code c =? 133) || (code c =? 160).

Fixpoint lstrip_int (s : string) : string :=
  match s with
  | String c r => if is_int_space c then lstrip_int r else s
  | "" => ""
  end.

Fixpoint rstrip_int (s : string) : string :=
  match s with
  | "" => ""
  | String c r =>
      let r' := rstrip_int r in
      if is_int_space c && is_empty r' then "" else String c r'
  end.

Definition strip_int (s : string) : string := rstrip_int (lstrip_int s).

(** The interpreter's cap on the digits of a conversion between [int] and
    [str] ([sys.int_max_str_digits], which the program leaves at its
    default), and the first magnitude [str] refuses. *)
Definition max_str_digits : Z := 4300.
Definition int_limit : Z := 10 ^ max_str_digits.

(** The longest prefix of characters satisfying [p], and what follows it:
    how a greedy [[class]+] of a regular expression consumes its input. *)
Fixpoint span (p : ascii -> bool) (s : string) : string * string :=
  match s with
  | String c r =>
      if p c then let '(a, b) := span p r in (String c a, b) else ("", s)
  | "" => ("", "")
  end.

Fixpoint repeat0 (n : nat) (s : string) : string :=
  match n with
  | O => s
  | S n' => String "0" (repeat0 n' s)
  end.

(** [s.zfill(w)]: zeros are inserted after a leading sign; never truncates. *)
Definition zfill (w : nat) (s : string) : string :=
  let pad := (w - String.length s)%nat in
  match s with
  | String "-" r => String "-" (repeat0 pad r)
  | String "+" r => String "+" (repeat0 pad r)
  | _ => repeat0 pad s
  end.

(** Decimal digits of a non-negative integer, most significant first,
    put in front of [acc].  The fuel bounds the number of digits. *)
Fixpoint digits_fuel (fuel : nat) (n : Z) (acc : string) : string :=
  match fuel with
  | O => acc
  | S f =>
      let acc' := String (digit_char (n mod 10)) acc in
      if n <? 10 then acc' else digits_fuel f (n / 10) acc'
  end.

Definition digits (n : Z) : string :=
  digits_fuel (S (Z.to_nat (Z.log2 n))) n "".

(** [str(n)] for an [int] of magnitude below [int_limit].  From there on
    the interpreter raises [ValueError]; this total function does not, and
    the statements that turn such a number into text carry the bound. *)
Definition str (n : Z) : string :=
  if n <? 0 then String "-" (digits (- n)) else digits n.

(** [f"{n:0{w}d}"]: sign-aware zero padding of [str(n)] to width [w], with
    the same cap as [str]. *)
Definition format_0d (w : nat) (n : Z) : string := zfill w (str n).

(** Value of a run of decimal digits read left to right from [acc];
    [None] at the first character that is not a digit. *)
Fixpoint parse_digits (acc : Z) (s : string) : option Z :=
  match s with
  | "" => Some acc
  | String c r =>
      if is_digit c then parse_digits (acc * 10 + digit_val c) r else None
  end.

(** Removes the underscores an integer literal may carry between digits:
    [None] when the text is empty, starts or ends with an underscore,
    has two in a row, or holds a character that is neither. *)
Fixpoint ungroup (after_digit : bool) (s : string) : option string :=
  match s with
  | "" => if after_digit then Some "" else None
  | String c r =>
      if is_digit c then
        match ungroup true r with Some t => Some (String c t) | None => None end
      else if Ascii.eqb c "_" then
        (if after_digit then ungroup false r else None)
      else None
  end.

(** [int(s)] in base ten: surrounding white space, an optional sign, digits
    with single underscores between them, at most [max_str_digits] digits
    (leading zeros count, the sign and the underscores do not).  [None] is
    [ValueError]. *)
Definition int (s : string) : option Z :=
  let t := strip_int s in
  let '(neg, body) :=
    match t with
    | String "-" r => (true, r)
    | String "+" r => (false, r)
    | _ => (false, t)
    end in
  match ungroup false body with
  | Some ds =>
      if max_str_digits <? Z.of_nat (String.length ds) then None
      else
        match parse_digits 0 ds with
        | Some v => Some (if neg then - v else v)
        | None => None
        end
  | None => None
  end.

End PyStr.

(** ** Python floats, as far as [int / int] and [math.ceil] need them *)

Module PyFloat.

(** A finite binary64 value [mant * 2 ^ expo]. *)
Record t : Type := mk { mant : Z; expo : Z }.

(** Nearest integer to [n / d], ties to the even one ([n >= 0], [d > 0]). *)
Definition round_half_even (n d : Z) : Z :=
  let q := n / d in
  let r := n mod d in
  if 2 * r <? d then q
  else if d <? 2 * r then q + 1
  else if Z.even q then q else q + 1.

(** [floor (log2 (a / b))] for [a, b > 0]. *)
Definition log2_ratio (a b : Z) : Z :=
  let l := Z.log2 a - Z.log2 b in
  let below := if 0 <=? l then a <? b * 2 ^ l else a * 2 ^ (- l) <? b in
  if below then l - 1 else l.

(** [a / b] on two ints ([a >= 0], [b > 0]): the exact quotient rounded
    once to binary64, round-half-even; [OverflowError] beyond the range. *)
Definition truediv (a b : Z) : outcome t :=
  if a =? 0 then Ok (mk 0 0)
  else
    let e := Z.max (log2_ratio a b - 52) (-1074) in
    let m := if 0 <=? e then round_half_even a (b * 2 ^ e)
             else round_half_even (a * 2 ^ (- e)) b in
    if (971 <? e) || ((e =? 971) && (2 ^ 53 <=? m)) then Raise OverflowError
    else Ok (mk m e).

(** [math.ceil(x)] *)
Definition ceil (x : t) : Z :=
  if 0 <=? expo x then mant x * 2 ^ expo x
  else - ((- mant x) / 2 ^ (- expo x)).

End PyFloat.

(** ** Identifier codec *)

(** [extract_number_and_type] *)
Definition extract_number_and_type (id_str : string) : outcome (Z * string) :=
  let code_type := PyStr.take 2 id_str in
  if bool_decide (code_type ∈ ["RJ"; "VJ"]) then
    match PyStr.int (PyStr.drop 2 id_str) with
    | Some number => Ok (number, code_type)
    | None => Raise ValueError
    end
  else Ok (0, "").

(** [get_base_folder]: [Ok None] is Python's [None]. *)
Definition get_base_folder (product_id : string) : outcome (option string) :=
  let '(prefix, rest) := PyStr.span PyStr.is_upper product_id in
  let '(code_str, _) := PyStr.span PyStr.is_digit rest in
  if PyStr.is_empty prefix || PyStr.is_empty code_str then Ok None
  else
    match PyStr.int code_str with
    | None => Raise ValueError
    | Some code_num =>
        match PyFloat.truediv code_num 1000 with
        | Raise e => Raise e
        | Ok x =>
            let base_num := PyFloat.ceil x * 1000 in
            let padding_length := String.length code_str in
            let formatted_base := PyStr.zfill padding_length (PyStr.str base_num) in
            Ok (Some (prefix +:+ formatted_base))
        end
    end.

(** [generate_id].  Each branch turns [number] into text, which the
    interpreter refuses from [PyStr.int_limit] on (see [PyStr.str]); the
    ranges of [main] stay below ten million. *)
Definition generate_id (number : Z) (code_type : string) : string :=
  if String.eqb code_type "RJ" then
    if (0 <=? number) && (number <=? 999999) then "RJ" +:+ PyStr.format_0d 6 number
    else if (1000000 <=? number) && (number <=? 9999999) then "RJ" +:+ PyStr.format_0d 8 number
    else code_type +:+ PyStr.str number
  else if String.eqb code_type "VJ" then
    if (0 <=? number) && (number <=? 999999) then "VJ" +:+ PyStr.format_0d 6 number
    else if (1000000 <=? number) && (number <=? 9999999) then "VJ" +:+ PyStr.format_0d 8 number
    else code_type +:+ PyStr.str number
  else code_type +:+ PyStr.str number.



(** ** JSON values: what [json.load] returns and the catalog holds *)

#[local] Set Warnings "-register-all".

Inductive json : Type :=
  | JNull
  | JBool (b : bool)
  | JNum (n : Z)
  | JStr (s : string)
  | JArr (items : list json)
  | JObj (fields : list (string * json)).

(** [d[k]] / [k in d] on a dict kept as an association list. *)
Fixpoint dict_get (k : string) (fields : list (string * json)) : option json :=
  match fields with
  | [] => None
  | (k', v) :: r => if String.eqb k' k then Some v else dict_get k r
  end.

(** Truth value of an object in an [if]. *)
Definition truthy (v : json) : bool :=
  match v with
  | JNull => false
  | JBool b => b
  | JNum n => negb (n =? 0)
  | JStr s => negb (PyStr.is_empty s)
  | JArr l => match l with [] => false | _ => true end
  | JObj f => match f with [] => false | _ => true end
  end.

(** [v == s] for a [str] [s]. *)
Definition eq_str (v : json) (s : string) : bool :=
  match v with
  | JStr t => String.eqb t s
  | _ => false
  end.

(** [entry["code"]] *)
Definition subscript_code (entry : json) : outcome json :=
  match entry with
  | JObj fields =>
      match dict_get "code" fields with
      | Some v => Ok v
      | None => Raise KeyError
      end
  | _ => Raise TypeError
  end.

Fixpoint chars (s : string) : list json :=
  match s with
  | "" => []
  | String c r => JStr (String c "") :: chars r
  end.

(** [for entry in database]: the elements a [for] sees. *)
Definition iterate (database : json) : outcome (list json) :=
  match database with
  | JArr items => Ok items
  | JObj fields => Ok (map (λ kv, JStr (fst kv)) fields)
  | JStr s => Ok (chars s)
  | _ => Raise TypeError
  end.

(** [next((entry for entry in items if entry["code"] == product_id), None)] *)
Fixpoint first_with_code (items : list json) (product_id : string)
  : outcome (option json) :=
  match items with
  | [] => Ok None
  | entry :: rest =>
      match subscript_code entry with
      | Raise e => Raise e
      | Ok v =>
          if eq_str v product_id then Ok (Some entry)
          else first_with_code rest product_id
      end
  end.

Definition find_existing (database : json) (product_id : string)
  : outcome (option json) :=
  match iterate database with
  | Raise e => Raise e
  | Ok items => first_with_code items product_id
  end.

(** [database.append(entry)] *)
Definition append (database entry : json) : outcome json :=
  match database with
  | JArr items => Ok (JArr (items ++ [entry]))
  | _ => Raise AttributeError
  end.

(** ** The record provider's answer ([dlsite_async]'s [Work]) *)

Record Work : Type := mkWork {
  product_id : string;
  site_id : string;
  work_name : string;
  circle : option string;
  brand : option string;
  work_image : option string
}.

(** [x or "Unknown"] for an optional [str]. *)
Definition or_unknown (x : option string) : string :=
  match x with
  | Some s => if PyStr.is_empty s then "Unknown" else s
  | None => "Unknown"
  end.

Definition maker_of (work : Work) : string :=
  if PyStr.startswith "RJ" (product_id work) then or_unknown (circle work)
  else if PyStr.startswith "VJ" (product_id work) then or_unknown (brand work)
  else "Unknown".

Definition entry_of (work : Work) : json :=
  JObj [("maker", JStr (maker_of work));
        ("code", JStr (product_id work));
        ("title", JStr (work_name work));
        ("translate-title", JStr "NaN")].

(** [fix_image_url] on a non-[None] url. *)
Definition fix_image_url (url : string) : string :=
  if negb (PyStr.is_empty url) && PyStr.startswith "//" url then "https:" +:+ url
  else url.

(** [os.path.join(a, *ps)] (POSIX). *)
Definition join2 (path b : string) : string :=
  if PyStr.startswith "/" b then b
  else if PyStr.is_empty path || PyStr.endswith_char "/" path then path +:+ b
  else path +:+ "/" +:+ b.

Definition path_join (a : string) (ps : list string) : string :=
  fold_left join2 ps a.

(** Where the main image of [pid] is kept; [TypeError] when the shard key
    is [None] ([os.path.join] refuses it). *)
Definition image_path (pid : string) : outcome string :=
  match get_base_folder pid with
  | Raise e => Raise e
  | Ok None => Raise TypeError
  | Ok (Some base_folder) =>
      let save_dir := path_join "DLsite_DB" [base_folder; pid] in
      let image_filename := pid +:+ "_img_main.jpg" in
      Ok (path_join save_dir [image_filename])
  end.

(** ** The world the crawler runs in *)

Inductive file (A : Type) : Type :=
  | Missing
  | Unreadable
  | Holds (content : A).
Arguments Missing {A}.
Arguments Unreadable {A}.
Arguments Holds {A} content.

Record World : Type := mkWorld {
  temp_file : file string;     (* DLsite_DB/.temp *)
  db_file : file json;         (* dlsite_database.json, as json.load sees it *)
  assets : list string;        (* image files present on disk *)
  database : json;             (* the list object main calls database *)
  clock : nat;                 (* readings of datetime.now() so far *)
  visited : list string;       (* identifiers whose loop body has started *)
  downloads : list string;     (* urls requested from the image server *)
  budget : option nat          (* loop iterations left before the process is killed *)
}.

Definition set_temp_file (t : file string) (w : World) : World :=
  mkWorld t (db_file w) (assets w) (database w) (clock w) (visited w) (downloads w) (budget w).
Definition set_db_file (f : file json) (w : World) : World :=
  mkWorld (temp_file w) f (assets w) (database w) (clock w) (visited w) (downloads w) (budget w).
Definition set_assets (a : list string) (w : World) : World :=
  mkWorld (temp_file w) (db_file w) a (database w) (clock w) (visited w) (downloads w) (budget w).
Definition set_database (d : json) (w : World) : World :=
  mkWorld (temp_file w) (db_file w) (assets w) d (clock w) (visited w) (downloads w) (budget w).
Definition set_clock (c : nat) (w : World) : World :=
  mkWorld (temp_file w) (db_file w) (assets w) (database w) c (visited w) (downloads w) (budget w).
Definition set_visited (v : list string) (w : World) : World :=
  mkWorld (temp_file w) (db_file w) (assets w) (database w) (clock w) v (downloads w) (budget w).
Definition set_downloads (d : list string) (w : World) : World :=
  mkWorld (temp_file w) (db_file w) (assets w) (database w) (clock w) (visited w) d (budget w).
Definition set_budget (b : option nat) (w : World) : World :=
  mkWorld (temp_file w) (db_file w) (assets w) (database w) (clock w) (visited w) (downloads w) b.

(** ** State and exceptions *)

Definition M (A : Type) : Type := World → outcome A * World.

Definition ret {A} (a : A) : M A := λ w, (Ok a, w).
Definition raise {A} (e : exn) : M A := λ w, (Raise e, w).
Definition bind {A B} (m : M A) (k : A → M B) : M B :=
  λ w, match m w with
       | (Ok a, w') => k a w'
       | (Raise e, w') => (Raise e, w')
       end.
Definition lift {A} (o : outcome A) : M A := λ w, (o, w).
Definition gets {A} (f : World → A) : M A := λ w, (Ok (f w), w).
Definition modify (f : World → World) : M unit := λ w, (Ok tt, f w).

Declare Scope py_scope.
Delimit Scope py_scope with py.
Notation "x <- m ;; k" := (bind m (λ x, k))
  (at level 100, m at level 99, k at level 200, right associativity) : py_scope.
Notation "m ;;; k" := (bind m (λ _, k))
  (at level 100, k at level 200, right associativity) : py_scope.
Local Open Scope py_scope.

(** [for x in l: body(x)] *)
Fixpoint for_each {A} (l : list A) (body : A → M unit) : M unit :=
  match l with
  | [] => ret tt
  | x :: r => body x ;;; for_each r body
  end.

(** [range(a, b)] and [range(a, b, step)] for a positive [step]. *)
Definition range (a b : Z) : list Z := seqZ a (b - a).
Definition range3 (a b step : Z) : list Z :=
  (λ i, a + i * step) <$> seqZ 0 ((b - a + step - 1) / step).

(** The process can be killed between two identifiers: [budget] counts the
    loop iterations it is still allowed to start ([None]: never killed). *)
Definition tick : M unit :=
  λ w, match budget w with
       | None => (Ok tt, w)
       | Some (S n) => (Ok tt, set_budget (Some n) w)
       | Some O => (Raise KeyboardInterrupt, w)
       end.

(** [os.path.exists(path)] for an image path. *)
Definition path_exists (path : string) : M bool :=
  gets (λ w, bool_decide (path ∈ assets w)).

(** [save_progress] *)
Definition save_progress (current_id : string) : M unit :=
  modify (set_temp_file (Holds current_id)).

(** [load_progress] *)
Definition load_progress : M (option string) :=
  gets (λ w, match temp_file w with
             | Holds s => Some (PyStr.strip s)
             | _ => None
             end).

Section Pipeline.

Context (api : string → option Work).   (* api.get_work; None: it raised *)
Context (http : string → bool).         (* true: status 200 and the body was written;
                                           a failure while the body is read, which
                                           leaves an empty file, is not modelled *)
Context (now : nat → string).           (* the formatted reading of the clock *)

(** [fetch_work_info]: any exception of the provider becomes [None]. *)
Definition fetch_work_info (pid : string) : M (option Work) := ret (api pid).

(** [download_image] with a url that is not [None]. *)
Definition download_image (url save_path : string) : M bool :=
  if PyStr.is_empty url then ret false
  else
    present <- path_exists save_path ;;
    if present then ret true
    else
      let url := fix_image_url url in
      modify (λ w, set_downloads (downloads w ++ [url]) w) ;;;
      if http url then
        modify (λ w, set_assets (save_path :: assets w) w) ;;; ret true
      else ret false.

(** [if work.work_image: download_image(session, work.work_image, save_path)] *)
Definition image_of (work : Work) : option string :=
  match work_image work with
  | Some url => if PyStr.is_empty url then None else Some url
  | None => None
  end.

(** [json.dump({"updated_at": timestamp, "items": database}, f, ...)] *)
Definition flush : M unit :=
  modify (λ w,
    let timestamp := now (clock w) in
    set_clock (S (clock w))
      (set_db_file (Holds (JObj [("updated_at", JStr timestamp);
                                 ("items", database w)])) w)).

(** The branch of the loop body for an identifier already in the catalog:
    the image is fetched again only when its file is not there. *)
Definition repair_image (pid : string) : M unit :=
  save_path <- lift (image_path pid) ;;
  present <- path_exists save_path ;;
  if present then ret tt
  else
    work <- fetch_work_info pid ;;
    match work with
    | Some work =>
        match image_of work with
        | Some url => download_image url save_path ;;; ret tt
        | None => ret tt
        end
    | None => ret tt
    end.

(** [work.site_id in ['maniax', 'pro']] *)
Definition allowed (work : Work) : bool :=
  bool_decide (site_id work ∈ ["maniax"; "pro"]).

(** The branch of the loop body for a new identifier. *)
Definition ingest_new (pid : string) : M unit :=
  work <- fetch_work_info pid ;;
  match work with
  | Some work =>
      if allowed work then
        let entry := entry_of work in
        match image_of work with
        | Some url =>
            save_path <- lift (image_path (product_id work)) ;;
            download_image url save_path ;;; ret tt
        | None => ret tt
        end ;;;
        db <- gets database ;;
        db' <- lift (append db entry) ;;
        modify (set_database db')
      else ret tt
  | None => ret tt
  end.

(** The body of the loop of [process_sequential_ids]. *)
Definition visit (code_type : string) (number : Z) : M unit :=
  tick ;;;
  let pid := generate_id number code_type in
  modify (λ w, set_visited (visited w ++ [pid]) w) ;;;
  (if number mod 10 =? 0 then save_progress pid else ret tt) ;;;
  db <- gets database ;;
  existing_entry <- lift (find_existing db pid) ;;
  (if match existing_entry with Some entry => truthy entry | None => false end
   then repair_image pid
   else ingest_new pid) ;;;
  (if number mod 20 =? 0 then flush else ret tt).

(** [process_sequential_ids] *)
Definition process_sequential_ids (start_number end_number : Z) (code_type : string)
  : M unit :=
  for_each (range start_number (end_number + 1)) (visit code_type).

(** The catalog is loaded once at startup ([main], first part). *)
Definition load_database : M unit :=
  modify (set_database (JArr [])) ;;;
  f <- gets db_file ;;
  match f with
  | Missing => ret tt
  | Unreadable => ret tt
  | Holds db_data =>
      match db_data with
      | JObj fields =>
          match dict_get "items" fields with
          | Some items => modify (set_database items)
          | None => modify (set_database db_data)
          end
      | _ => modify (set_database db_data)
      end
  end.

(** A local of [main] that holds a number or one of the range pairs. *)
Inductive pyval : Type :=
  | PInt (n : Z)
  | PTuple (p : Z * Z).

(** [v + n] for an [int] [n]: a tuple and an [int] do not add. *)
Definition add_int (v : pyval) (n : Z) : outcome pyval :=
  match v with
  | PInt x => Ok (PInt (x + n))
  | PTuple _ => Raise TypeError
  end.

(** An argument of [range] or [min] that has to be an [int]. *)
Definition as_int (v : pyval) : outcome Z :=
  match v with
  | PInt x => Ok x
  | PTuple _ => Raise TypeError
  end.

Definition rj_ranges : list (Z * Z) := [(0, 499999); (1000000, 1369999)].
Definition vj_range : list (Z * Z) := [(0, 499999); (1000000, 1369999)].
Definition batch_size : Z := 1000.

(** The start information [main] derives from the cursor:
    [(start_number, rj_range_index, start_in_vj)]. *)
Definition start_info (saved_id : option string) : outcome (Z * Z * bool) :=
  match saved_id with
  | Some s =>
      if PyStr.is_empty s then Ok (0, 0, false)
      else
        match extract_number_and_type s with
        | Raise e => Raise e
        | Ok (number, code_type) =>
            if String.eqb code_type "RJ" then
              Ok (number,
                  (if (0 <=? number) && (number <=? 499999) then 0
                   else if (1000000 <=? number) && (number <=? 1369999) then 1
                   else 0),
                  false)
            else if String.eqb code_type "VJ" then Ok (number, 0, true)
            else Ok (0, 0, false)
        end
  | None => Ok (0, 0, false)
  end.

(** One pass of the batch loop: the batches from [current_start] to [range_end]. *)
Definition process_batches (current_start range_end : Z) (code_type : string) : M unit :=
  for_each (range3 current_start (range_end + 1) batch_size) (λ batch_start,
    let batch_end := Z.min (batch_start + batch_size - 1) range_end in
    process_sequential_ids batch_start batch_end code_type ;;;
    flush).

(** [main], the RJ part. *)
Definition process_rj (start_number rj_range_index : Z) : M unit :=
  for_each (range rj_range_index (Z.of_nat (length rj_ranges))) (λ i,
    match rj_ranges !! Z.to_nat i with
    | None => raise IndexError
    | Some (range_start, range_end) =>
        let current_start :=
          if i =? rj_range_index then start_number else range_start in
        process_batches current_start range_end "RJ"
    end).

(** [main], the VJ part. *)
Definition process_vj (start_number : Z) (start_in_vj : bool) : M unit :=
  match vj_range !! 0%nat, vj_range !! 1%nat with
  | Some first, Some second =>
      let vj_start := if start_in_vj then PInt start_number else PTuple first in
      let vj_end := PTuple second in
      stop <- lift (add_int vj_end 1) ;;
      a <- lift (as_int vj_start) ;;
      b <- lift (as_int stop) ;;
      for_each (range3 a b batch_size) (λ batch_start,
        range_end <- lift (as_int vj_end) ;;
        let batch_end := Z.min (batch_start + batch_size - 1) range_end in
        process_sequential_ids batch_start batch_end "VJ" ;;;
        flush)
  | _, _ => raise IndexError
  end.

(** [main] *)
Definition main : M unit :=
  saved_id <- load_progress ;;
  load_database ;;;
  info <- lift (start_info saved_id) ;;
  let '(start_number, rj_range_index, start_in_vj) := info in
  (if negb start_in_vj then process_rj start_number rj_range_index else ret tt) ;;;
  process_vj start_number start_in_vj ;;;
  present <- gets (λ w, match temp_file w with Missing => false | _ => true end) ;;
  if present then modify (set_temp_file Missing) else ret tt.

End Pipeline.


(** * The vocabulary of the statements *)

(** Worlds and collaborators for the concrete runs. *)
Definition fresh_world : World :=
  mkWorld Missing Missing [] (JArr []) 0 [] [] None.

Definition silent_api : string → option Work := λ _, None.
Definition no_http : string → bool := λ _, false.
Definition fixed_clock : nat → string := λ _, "2024-01-01 00:00:00".

(** The provider of the scenario of the specification. *)
Definition scenario_api (pid : string) : option Work :=
  if String.eqb pid "RJ000001" then
    Some (mkWork "RJ000001" "maniax" "T1" (Some "C1") None (Some "//img.example/1.jpg"))
  else if String.eqb pid "RJ000002" then
    Some (mkWork "RJ000002" "books" "T2" (Some "C2") None None)
  else None.

(** A provider that echoes RJ000001 padded to eight digits. *)
Definition echoing_api (pid : string) : option Work :=
  if String.eqb pid "RJ000001" then
    Some (mkWork "RJ00000001" "maniax" "T1" (Some "C1") None None)
  else None.

Fixpoint all_digits (s : string) : bool :=
  match s with
  | "" => true
  | String c r => PyStr.is_digit c && all_digits r
  end.

Fixpoint all_upper (s : string) : bool :=
  match s with
  | "" => true
  | String c r => PyStr.is_upper c && all_upper r
  end.

Definition len (s : string) : Z := Z.of_nat (String.length s).

(** What the digits of [n] are: all digits, at least one, as many as the
    magnitude of [n] asks for, and they read back as [n]. *)
Record numeral (n : Z) (s : string) : Prop := {
  numeral_digits : all_digits s = true;
  numeral_len : 1 <= len s;
  numeral_upper : n < 10 ^ len s;
  numeral_lower : len s = 1 ∨ 10 ^ (len s - 1) <= n;
  numeral_value : ∀ acc r,
    PyStr.parse_digits acc (s +:+ r) = PyStr.parse_digits (acc * 10 ^ len s + n) r
}.

(** The text [generate_id] puts after the family tag. *)
Definition numeric_part (number : Z) : string :=
  if (0 <=? number) && (number <=? 999999) then PyStr.format_0d 6 number
  else if (1000000 <=? number) && (number <=? 9999999) then PyStr.format_0d 8 number
  else PyStr.str number.

(** The identifier's number rounded up to the next multiple of 1000. *)
Definition round_up_1000 (n : Z) : Z := (n + 999) / 1000 * 1000.

(** Everything but the image files and the log of requests is unchanged. *)
Definition same_but_assets (w w' : World) : Prop :=
  temp_file w' = temp_file w ∧ db_file w' = db_file w ∧
  database w' = database w ∧ clock w' = clock w ∧
  visited w' = visited w ∧ budget w' = budget w.

(** A catalog entry the duplicate check can read. *)
Definition has_code (e : json) : Prop :=
  ∃ fields v, e = JObj fields ∧ dict_get "code" fields = Some v.

(** The cursor after the loop body has run for [n]. *)
Definition checkpoint (fam : string) (t : file string) (n : Z) : file string :=
  if n mod 10 =? 0 then Holds (generate_id n fam) else t.

(** Whether the duplicate check finds [pid]. *)
Definition known (items : list json) (pid : string) : bool :=
  match first_with_code items pid with
  | Ok None => false
  | _ => true
  end.

Definition snapshot (ts : string) (db : json) : json :=
  JObj [("updated_at", JStr ts); ("items", db)].

Definition catalog_ok (db : json) : Prop :=
  ∃ items, db = JArr items ∧ Forall has_code items.

(** The catalog [load_database] builds from the file. *)
Definition loaded (f : file json) : json :=
  match f with
  | Holds (JObj fields) =>
      match dict_get "items" fields with
      | Some items => items
      | None => JObj fields
      end
  | Holds db_data => db_data
  | _ => JArr []
  end.

(** The catalog in memory and the one on disk are lists of readable entries. *)
Definition steady (w : World) : Prop :=
  catalog_ok (database w) ∧ catalog_ok (loaded (db_file w)).

Definition ids (fam : string) (ns : list Z) : list string :=
  (λ n, generate_id n fam) <$> ns.

(** What is left of a run of [ns] under a budget, how it ends, and what is
    left of the budget. *)
Definition cut (b : option nat) (ns : list Z) : list Z :=
  match b with Some b => take b ns | None => ns end.

Definition ending (b : option nat) (ns : list Z) : outcome unit :=
  match b with
  | Some b => if decide (b < length ns)%nat then Raise KeyboardInterrupt else Ok tt
  | None => Ok tt
  end.

Definition spend (b : option nat) (ns : list Z) : option nat :=
  (λ b, (b - length ns)%nat) <$> b.

(** [m] runs the loop body for the numbers [ns] in order, as far as the
    budget lets it, and does nothing else the claims care about. *)
Definition visits (fam : string) (m : M unit) (ns : list Z) : Prop :=
  ∀ w, steady w →
    ∃ w', m w = (ending (budget w) ns, w') ∧
          visited w' = (visited w ++ ids fam (cut (budget w) ns))%list ∧
          temp_file w' = foldl (checkpoint fam) (temp_file w) (cut (budget w) ns) ∧
          budget w' = spend (budget w) ns ∧
          steady w'.

(** The numbers the RJ part of [main] goes through, from its start information. *)
Definition rj_plan (start_number rj_range_index : Z) : list Z :=
  if rj_range_index =? 0 then range start_number 500000 ++ range 1000000 1370000
  else range start_number 1370000.

(** The cursor as [main] reads it. *)
Definition cursor (w : World) : option string :=
  match temp_file w with
  | Holds s => Some (PyStr.strip s)
  | _ => None
  end.

(** How [main] ends when the RJ part ends with [o]. *)
Definition main_ending (o : outcome unit) : outcome unit :=
  match o with
  | Ok _ => Raise TypeError
  | Raise e => Raise e
  end.

(** [m] leaves the catalog in memory as it is, however it ends. *)
Definition keeps_database {A} (m : M A) : Prop :=
  ∀ w, database (snd (m w)) = database w.

Section Provider.

Context (api : string → option Work).

(** What a visit of a new identifier adds to the catalog. *)
Definition accepted (pid : string) : list json :=
  match api pid with
  | Some work => if allowed work then [entry_of work] else []
  | None => []
  end.

(** Every record the provider returns carries an identifier with a shard key. *)
Definition echo_ok : Prop :=
  ∀ pid work url, api pid = Some work → allowed work = true →
    image_of work = Some url → ∃ q, image_path (product_id work) = Ok q.

(** Every accepted record carries the identifier it was asked under. *)
Definition faithful_echo : Prop :=
  ∀ pid work, api pid = Some work → allowed work = true → product_id work = pid.

(** Nothing is left to add for [pid]: it is in the catalog, or the provider
    has no acceptable record for it. *)
Definition settled (items : list json) (pid : string) : Prop :=
  known items pid = true ∨ accepted pid = [].

End Provider.

(** Vocabulary of the further properties. *)

(** No character of [s] is white space. *)
Fixpoint no_space (s : string) : bool :=
  match s with
  | "" => true
  | String c r => negb (PyStr.is_space c) && no_space r
  end.

(** A character no integer literal holds. *)
Definition foreign (c : ascii) : bool :=
  negb (PyStr.is_digit c || PyStr.is_space c
        || Ascii.eqb c "_" || Ascii.eqb c "+" || Ascii.eqb c "-").

Fixpoint has_foreign (s : string) : bool :=
  match s with
  | "" => false
  | String c r => foreign c || has_foreign r
  end.

(** A catalog the duplicate check cannot read: it is not iterable, or the
    first element the loop sees is not an object. *)
Definition not_entries (d : json) : bool :=
  match d with
  | JArr (JObj _ :: _) => false
  | JArr [] => false
  | JObj [] => false
  | JStr "" => false
  | _ => true
  end.

(** [m] does not delete the cursor file. *)
Definition keeps_cursor {A} (m : M A) : Prop :=
  ∀ w, temp_file w ≠ Missing → temp_file (snd (m w)) ≠ Missing.

(** The file holds the catalog that is in memory. *)
Definition on_disk (w : World) : Prop :=
  ∃ ts, db_file w = Holds (snapshot ts (database w)).

(** The entry carries the identifier of one of the numbers [ns]. *)
Definition code_in (fam : string) (ns : list Z) (e : json) : Prop :=
  ∃ m, m ∈ ns ∧ subscript_code e = Ok (JStr (generate_id m fam)).

Section CatalogGrowth.
Context (api : string → option Work).

(** An entry built from a record the provider returned and the filter let through. *)
Definition catalogued_by (e : json) : Prop :=
  ∃ pid work, api pid = Some work ∧ allowed work = true ∧ e = entry_of work.

(** [m] only ever appends such entries to a catalog that is a list. *)
Definition grows_database {A} (m : M A) : Prop :=
  ∀ w items, database w = JArr items →
    ∃ more, database (snd (m w)) = JArr (items ++ more) ∧ Forall catalogued_by more.

End CatalogGrowth.

(** Unfolds the monad and the accessors of the world, nothing else. *)
Ltac run :=
  cbv beta iota zeta delta
      [bind ret raise lift gets modify tick save_progress load_progress
       path_exists fetch_work_info flush
       set_temp_file set_db_file set_assets set_database set_clock set_visited
       set_downloads set_budget
       temp_file db_file assets database clock visited downloads budget].

(** * Properties *)

(** ** Examples: the model on concrete inputs *)

Example generate_id_small : generate_id 1305 "RJ" = "RJ001305".
Proof. reflexivity. Qed.

Example generate_id_large : generate_id 1000001 "VJ" = "VJ01000001".
Proof. reflexivity. Qed.

Example generate_id_fallback : generate_id (-5) "RJ" = "RJ-5".
Proof. reflexivity. Qed.

Example base_folder_example : get_base_folder "RJ001305" = Ok (Some "RJ002000").
Proof. vm_compute. reflexivity. Qed.

Example base_folder_no_digits : get_base_folder "RJ-5" = Ok None.
Proof. vm_compute. reflexivity. Qed.

Example extract_example : extract_number_and_type "VJ01000001" = Ok (1000001, "VJ").
Proof. vm_compute. reflexivity. Qed.

Example int_underscores : PyStr.int " -1_000 " = Some (-1000) ∧ PyStr.int "1__0" = None.
Proof. split; vm_compute; reflexivity. Qed.

Example truediv_thousandth :
  PyFloat.truediv 1 1000 = Ok (PyFloat.mk 4611686018427388 (-62)).
Proof. vm_compute. reflexivity. Qed.

(** ** Strings and decimal numerals *)

Module PyStrFacts.

Lemma digit_char_ok d :
  0 <= d <= 9 →
  PyStr.is_digit (PyStr.digit_char d) = true ∧ PyStr.digit_val (PyStr.digit_char d) = d.
Proof.
  intros Hd.
  assert (d = 0 ∨ d = 1 ∨ d = 2 ∨ d = 3 ∨ d = 4 ∨ d = 5 ∨ d = 6 ∨ d = 7 ∨ d = 8 ∨ d = 9)
    as Hcases by lia.
  repeat (destruct Hcases as [-> | Hcases]; [ split; reflexivity | ]).
  subst d. split; reflexivity.
Qed.

Lemma digit_not_sign c :
  PyStr.is_digit c = true →
  PyStr.is_space c = false ∧ PyStr.is_upper c = false ∧
  c ≠ "-"%char ∧ c ≠ "+"%char ∧ c ≠ "_"%char.
Proof.
  destruct c as [[] [] [] [] [] [] [] []]; vm_compute; intros H;
    try discriminate H; repeat split; discriminate.
Qed.

Lemma upper_not_digit c : PyStr.is_upper c = true → PyStr.is_digit c = false.
Proof.
  destruct c as [[] [] [] [] [] [] [] []]; vm_compute; intros H;
    try discriminate H; reflexivity.
Qed.

Lemma append_assoc (a b c : string) : (a +:+ b) +:+ c = a +:+ (b +:+ c).
Proof. induction a as [| x a IH]; simpl; congruence. Qed.

Lemma append_nil_r (a : string) : a +:+ "" = a.
Proof. induction a as [| x a IH]; simpl; congruence. Qed.

Lemma len_append (a b : string) : len (a +:+ b) = len a + len b.
Proof.
  unfold len. induction a as [| x a IH]; simpl String.length; [lia |].
  rewrite !Nat2Z.inj_succ. lia.
Qed.

Lemma length_append (a b : string) :
  String.length (a +:+ b) = (String.length a + String.length b)%nat.
Proof. induction a as [| x a IH]; simpl; congruence. Qed.

Lemma all_digits_append a b :
  all_digits (a +:+ b) = all_digits a && all_digits b.
Proof.
  induction a as [| x a IH]; simpl; [reflexivity |].
  rewrite IH. by rewrite andb_assoc.
Qed.

Lemma parse_digits_append a : ∀ acc b,
  PyStr.parse_digits acc (a +:+ b) =
  match PyStr.parse_digits acc a with
  | Some v => PyStr.parse_digits v b
  | None => None
  end.
Proof.
  induction a as [| x a IH]; intros acc b; cbn [String.append PyStr.parse_digits].
  - reflexivity.
  - destruct (PyStr.is_digit x); [apply IH | reflexivity].
Qed.

(** A run of digits denotes a number below ten to its length. *)
Lemma parse_digits_bounds s : ∀ acc,
  all_digits s = true → 0 <= acc →
  ∃ v, PyStr.parse_digits acc s = Some v ∧
       acc * 10 ^ len s <= v < (acc + 1) * 10 ^ len s.
Proof.
  induction s as [| c s IH]; intros acc Hd Hacc.
  - exists acc. split; [reflexivity |]. unfold len. simpl. lia.
  - cbn [all_digits] in Hd. apply andb_prop in Hd as [Hc Hs].
    cbn [PyStr.parse_digits]. rewrite Hc.
    assert (0 <= PyStr.digit_val c <= 9) as Hv.
    { unfold PyStr.is_digit in Hc. unfold PyStr.digit_val. lia. }
    destruct (IH (acc * 10 + PyStr.digit_val c) Hs ltac:(lia)) as (v & Hv1 & Hv2).
    exists v. split; [exact Hv1 |].
    replace (len (String c s)) with (1 + len s)
      by (unfold len; simpl String.length; lia).
    rewrite Z.pow_add_r by (unfold len; lia).
    change (10 ^ 1) with 10. nia.
Qed.

Lemma digits_fuel_S f n acc :
  PyStr.digits_fuel (S f) n acc =
  if n <? 10 then String (PyStr.digit_char (n mod 10)) acc
  else PyStr.digits_fuel f (n / 10) (String (PyStr.digit_char (n mod 10)) acc).
Proof. reflexivity. Qed.

Lemma digits_fuel_acc f : ∀ n acc,
  PyStr.digits_fuel f n acc = PyStr.digits_fuel f n "" +:+ acc.
Proof.
  induction f as [| f IH]; intros n acc; cbn [PyStr.digits_fuel].
  - reflexivity.
  - destruct (n <? 10); [reflexivity |].
    rewrite (IH _ (String _ acc)), (IH _ (String _ "")).
    by rewrite append_assoc.
Qed.

Lemma digits_fuel_numeral f : ∀ n,
  0 <= n < 2 ^ Z.of_nat (S f) → numeral n (PyStr.digits_fuel (S f) n "").
Proof.
  induction f as [| f IH]; intros n Hn.
  - change (2 ^ Z.of_nat 1) with 2 in Hn.
    cbn [PyStr.digits_fuel]. replace (n <? 10) with true by lia.
    rewrite Z.mod_small by lia.
    destruct (digit_char_ok n ltac:(lia)) as [Hd Hv].
    split; unfold len; cbn [all_digits String.length String.append PyStr.parse_digits].
    + by rewrite Hd.
    + lia.
    + change (10 ^ Z.of_nat 1) with 10. lia.
    + by left.
    + intros acc r. rewrite Hd, Hv. change (10 ^ Z.of_nat 1) with 10. reflexivity.
  - rewrite (digits_fuel_S (S f)).
    destruct (Z.ltb_spec n 10) as [Hlt | Hge].
    + rewrite Z.mod_small by lia.
      destruct (digit_char_ok n ltac:(lia)) as [Hd Hv].
      split; unfold len; cbn [all_digits String.length String.append PyStr.parse_digits].
      * by rewrite Hd.
      * lia.
      * change (10 ^ Z.of_nat 1) with 10. lia.
      * by left.
      * intros acc r. rewrite Hd, Hv. change (10 ^ Z.of_nat 1) with 10. reflexivity.
    + assert (0 <= n / 10 < 2 ^ Z.of_nat (S f)) as Hq.
      { split; [apply Z.div_pos; lia |].
        apply Z.div_lt_upper_bound; [lia |].
        rewrite (Nat2Z.inj_succ (S f)), Z.pow_succ_r in Hn by lia. lia. }
      specialize (IH _ Hq). destruct IH as [I1 I2 I3 I4 I5].
      rewrite digits_fuel_acc.
      set (q := PyStr.digits_fuel (S f) (n / 10) "") in *.
      pose proof (Z.mod_pos_bound n 10 ltac:(lia)) as Hm.
      pose proof (Z.div_mod n 10 ltac:(lia)) as Hdm.
      destruct (digit_char_ok (n mod 10) ltac:(lia)) as [Hd Hv].
      assert (len (q +:+ String (PyStr.digit_char (n mod 10)) "") = len q + 1) as Hlen.
      { rewrite len_append. unfold len. simpl String.length. lia. }
      split.
      * rewrite all_digits_append, I1. cbn [all_digits]. by rewrite Hd.
      * lia.
      * rewrite Hlen, Z.pow_add_r by lia. change (10 ^ 1) with 10. lia.
      * right. rewrite Hlen. replace (len q + 1 - 1) with (len q) by lia.
        destruct I4 as [-> | I4]; [change (10 ^ 1) with 10; lia |].
        replace (len q) with (len q - 1 + 1) by lia.
        rewrite Z.pow_add_r by lia. change (10 ^ 1) with 10. lia.
      * intros acc r. rewrite append_assoc. rewrite I5.
        cbn [String.append PyStr.parse_digits]. rewrite Hd, Hv, Hlen.
        f_equal. rewrite Z.pow_add_r by lia. change (10 ^ 1) with 10. lia.
Qed.

Lemma digits_numeral n : 0 <= n → numeral n (PyStr.digits n).
Proof.
  intros Hn. unfold PyStr.digits. apply digits_fuel_numeral.
  rewrite Nat2Z.inj_succ, Z2Nat.id by apply Z.log2_nonneg.
  destruct (Z.eq_dec n 0) as [-> | Hne].
  { change (Z.log2 0) with 0. lia. }
  pose proof (Z.log2_spec n ltac:(lia)). lia.
Qed.

Lemma numeral_nonempty n s : numeral n s → ∃ c r, s = String c r ∧ PyStr.is_digit c = true.
Proof.
  intros [Hd Hl _ _ _]. destruct s as [| c r].
  - unfold len in Hl. simpl in Hl. lia.
  - exists c, r. split; [done |]. cbn [all_digits] in Hd. by apply andb_prop in Hd as [? _].
Qed.

Lemma numeral_parse n s : numeral n s → PyStr.parse_digits 0 s = Some n.
Proof.
  intros H. rewrite <- (append_nil_r s), (numeral_value _ _ H).
  reflexivity.
Qed.

(** The width of a numeral is bounded by the magnitude of its number. *)
Lemma numeral_width n s (w : nat) :
  numeral n s → (1 <= w)%nat → n < 10 ^ Z.of_nat w → (String.length s <= w)%nat.
Proof.
  intros [_ Hl _ Hlow _] Hw Hn. unfold len in *.
  destruct Hlow as [H1 | Hlow]; [lia |].
  destruct (Nat.le_gt_cases (String.length s) w) as [? | Hgt]; [done | exfalso].
  assert (10 ^ Z.of_nat w <= 10 ^ (Z.of_nat (String.length s) - 1))
    by (apply Z.pow_le_mono_r; lia).
  lia.
Qed.

Lemma lstrip_digit c r : PyStr.is_digit c = true → PyStr.lstrip (String c r) = String c r.
Proof.
  intros H. cbn [PyStr.lstrip].
  by destruct (digit_not_sign c H) as (-> & _).
Qed.

Lemma rstrip_digits s : all_digits s = true → PyStr.rstrip s = s.
Proof.
  induction s as [| c r IH]; [done |]. cbn [all_digits PyStr.rstrip].
  intros [Hc Hr]%andb_prop. rewrite (IH Hr).
  by destruct (digit_not_sign c Hc) as (-> & _).
Qed.

Lemma strip_digits s : all_digits s = true → PyStr.strip s = s.
Proof.
  intros H. unfold PyStr.strip. destruct s as [| c r]; [done |].
  pose proof H as [Hc _]%andb_prop.
  rewrite lstrip_digit by done. by apply rstrip_digits.
Qed.

Lemma ungroup_digits s : ∀ b,
  all_digits s = true → (b = true ∨ s ≠ "") → PyStr.ungroup b s = Some s.
Proof.
  induction s as [| c r IH]; intros b Hd Hb.
  - destruct Hb as [-> | ?]; done.
  - cbn [all_digits] in Hd. apply andb_prop in Hd as [Hc Hr].
    cbn [PyStr.ungroup]. rewrite Hc, (IH true Hr) by auto. done.
Qed.

(** A leading digit is not a sign: the sign dispatch of [int] and of
    [zfill] takes its default branch. *)
Lemma sign_dispatch_digit {A} c r (minus plus : string → A) (other : A) :
  PyStr.is_digit c = true →
  match String c r with
  | String "-" t => minus t
  | String "+" t => plus t
  | _ => other
  end = other.
Proof.
  destruct c as [[] [] [] [] [] [] [] []]; intros H; vm_compute in H;
    try discriminate H; reflexivity.
Qed.

Lemma int_space_is_space c : PyStr.is_int_space c = true → PyStr.is_space c = true.
Proof. unfold PyStr.is_int_space, PyStr.is_space. lia. Qed.

Lemma digit_not_int_space c : PyStr.is_digit c = true → PyStr.is_int_space c = false.
Proof.
  intros H. destruct (digit_not_sign c H) as (Hs & _).
  destruct (PyStr.is_int_space c) eqn:E; [| done].
  apply int_space_is_space in E. congruence.
Qed.

Lemma rstrip_int_digits s : all_digits s = true → PyStr.rstrip_int s = s.
Proof.
  induction s as [| c r IH]; [done |]. cbn [all_digits PyStr.rstrip_int].
  intros [Hc Hr]%andb_prop. rewrite (IH Hr).
  by rewrite (digit_not_int_space c Hc).
Qed.

Lemma strip_int_digits s : all_digits s = true → PyStr.strip_int s = s.
Proof.
  intros H. unfold PyStr.strip_int. destruct s as [| c r]; [done |].
  pose proof H as [Hc _]%andb_prop.
  cbn [PyStr.lstrip_int]. rewrite (digit_not_int_space c Hc).
  by apply rstrip_int_digits.
Qed.

(** The cap of [int] and [str], in digits and in magnitude. *)
Lemma max_str_digits_pos : 20 <= PyStr.max_str_digits.
Proof. unfold PyStr.max_str_digits. lia. Qed.

Lemma int_limit_large : 10 ^ 20 <= PyStr.int_limit.
Proof.
  unfold PyStr.int_limit. apply Z.pow_le_mono_r; [lia | apply max_str_digits_pos].
Qed.

Lemma numeral_within n s :
  numeral n s → n < PyStr.int_limit → len s <= PyStr.max_str_digits.
Proof.
  intros [_ Hl _ Hlow _] Hn. pose proof max_str_digits_pos as Hm.
  destruct Hlow as [H1 | Hlow]; [lia |].
  destruct (Z.le_gt_cases (len s) PyStr.max_str_digits) as [? | Hgt]; [done | exfalso].
  assert (PyStr.int_limit <= 10 ^ (len s - 1))
    by (unfold PyStr.int_limit; apply Z.pow_le_mono_r; lia).
  lia.
Qed.

Lemma numeral_beyond n s :
  numeral n s → PyStr.int_limit <= n → PyStr.max_str_digits < len s.
Proof.
  intros [_ Hl Hup _ _] Hn. pose proof max_str_digits_pos as Hm.
  destruct (Z.le_gt_cases (len s) PyStr.max_str_digits) as [Hle | ?]; [exfalso | lia].
  assert (10 ^ len s <= PyStr.int_limit)
    by (unfold PyStr.int_limit; apply Z.pow_le_mono_r; lia).
  lia.
Qed.

Lemma int_digits s :
  all_digits s = true → s ≠ "" → len s <= PyStr.max_str_digits →
  PyStr.int s = PyStr.parse_digits 0 s.
Proof.
  intros Hd Hne Hlen. unfold PyStr.int. rewrite strip_int_digits by done.
  destruct s as [| c r]; [done |].
  pose proof Hd as [Hc _]%andb_prop.
  rewrite (sign_dispatch_digit c r (λ t, (true, t)) (λ t, (false, t))) by done.
  rewrite ungroup_digits by auto. unfold len in Hlen.
  replace (PyStr.max_str_digits <? Z.of_nat (String.length (String c r))) with false by lia.
  by destruct (PyStr.parse_digits 0 (String c r)).
Qed.

(** More digits than the cap allows: [ValueError], also after a sign. *)
Lemma int_over_cap s :
  all_digits s = true → PyStr.max_str_digits < len s →
  PyStr.int s = None ∧ PyStr.int (String "-" s) = None.
Proof.
  intros Hd Hlen. pose proof max_str_digits_pos as Hm. unfold len in Hlen.
  assert (s ≠ "") as Hne by (intros ->; simpl in Hlen; lia).
  assert (PyStr.rstrip_int (String "-" s) = String "-" s) as Hminus.
  { cbn [PyStr.rstrip_int]. rewrite rstrip_int_digits by done. reflexivity. }
  split; unfold PyStr.int.
  - rewrite strip_int_digits by done. destruct s as [| c r]; [done |].
    pose proof Hd as [Hc _]%andb_prop.
    rewrite (sign_dispatch_digit c r (λ t, (true, t)) (λ t, (false, t))) by done.
    rewrite ungroup_digits by auto.
    by replace (PyStr.max_str_digits <? Z.of_nat (String.length (String c r)))
      with true by lia.
  - unfold PyStr.strip_int.
    change (PyStr.lstrip_int (String "-" s)) with (String "-" s).
    rewrite Hminus, ungroup_digits by auto.
    by replace (PyStr.max_str_digits <? Z.of_nat (String.length s)) with true by lia.
Qed.

Lemma int_minus_digits s :
  all_digits s = true → s ≠ "" → len s <= PyStr.max_str_digits →
  PyStr.int (String "-" s) = Z.opp <$> PyStr.parse_digits 0 s.
Proof.
  intros Hd Hne Hlen. unfold PyStr.int, PyStr.strip_int.
  change (PyStr.lstrip_int (String "-" s)) with (String "-" s).
  assert (PyStr.rstrip_int (String "-" s) = String "-" s) as ->.
  { cbn [PyStr.rstrip_int]. rewrite rstrip_int_digits by done. reflexivity. }
  rewrite ungroup_digits by auto. unfold len in Hlen.
  replace (PyStr.max_str_digits <? Z.of_nat (String.length s)) with false by lia.
  by destruct (PyStr.parse_digits 0 s).
Qed.

Lemma int_numeral n s :
  numeral n s → len s <= PyStr.max_str_digits → PyStr.int s = Some n.
Proof.
  intros H Hlen. destruct (numeral_nonempty _ _ H) as (c & r & -> & _).
  rewrite int_digits; [by apply numeral_parse | apply H | done | done].
Qed.

(** [int(str(n)) == n] below the cap of the two conversions. *)
Lemma int_str n : Z.abs n < PyStr.int_limit → PyStr.int (PyStr.str n) = Some n.
Proof.
  intros Hlim. unfold PyStr.str. destruct (Z.ltb_spec n 0) as [Hneg | Hpos].
  - pose proof (digits_numeral (- n) ltac:(lia)) as H.
    destruct (numeral_nonempty _ _ H) as (c & r & Heq & _).
    rewrite int_minus_digits;
      [| apply H | by rewrite Heq | apply (numeral_within (- n)); [done | lia]].
    rewrite (numeral_parse _ _ H). simpl. f_equal. lia.
  - apply int_numeral; [by apply digits_numeral |].
    apply (numeral_within n); [by apply digits_numeral | lia].
Qed.

(** From the cap on, the text [str] would give is refused by [int]. *)
Lemma int_str_beyond n : PyStr.int_limit <= Z.abs n → PyStr.int (PyStr.str n) = None.
Proof.
  intros Hlim. pose proof int_limit_large as Hl.
  unfold PyStr.str. destruct (Z.ltb_spec n 0) as [Hneg | Hpos].
  - pose proof (digits_numeral (- n) ltac:(lia)) as H.
    apply int_over_cap; [apply H | apply (numeral_beyond (- n)); [done | lia]].
  - pose proof (digits_numeral n Hpos) as H.
    apply int_over_cap; [apply H | apply (numeral_beyond n); [done | lia]].
Qed.

Lemma length_repeat0 k s :
  String.length (PyStr.repeat0 k s) = (k + String.length s)%nat.
Proof. induction k as [| k IH]; simpl; [done | by rewrite IH]. Qed.

Lemma numeral_repeat0 n s k : 0 <= n → numeral n s → 
  all_digits (PyStr.repeat0 k s) = true ∧
  PyStr.parse_digits 0 (PyStr.repeat0 k s) = Some n.
Proof.
  intros Hn H. induction k as [| k [IH1 IH2]]; cbn [PyStr.repeat0].
  - split; [apply H | by apply numeral_parse].
  - split; [cbn [all_digits]; by rewrite IH1 |].
    cbn [PyStr.parse_digits]. exact IH2.
Qed.

Lemma zfill_numeral n s w :
  numeral n s → PyStr.zfill w s = PyStr.repeat0 (w - String.length s) s.
Proof.
  intros H. destruct (numeral_nonempty _ _ H) as (c & r & -> & Hc).
  unfold PyStr.zfill.
  by rewrite (sign_dispatch_digit c r
    (λ t, String "-" (PyStr.repeat0 _ t)) (λ t, String "+" (PyStr.repeat0 _ t))).
Qed.

(** What [f"{n:0{w}d}"] is for a non-negative [n]. *)
Lemma format_0d_nonneg w n :
  0 <= n →
  all_digits (PyStr.format_0d w n) = true ∧
  PyStr.format_0d w n ≠ "" ∧
  PyStr.parse_digits 0 (PyStr.format_0d w n) = Some n ∧
  String.length (PyStr.format_0d w n) = Nat.max w (String.length (PyStr.digits n)).
Proof.
  intros Hn. unfold PyStr.format_0d, PyStr.str.
  replace (n <? 0) with false by lia.
  pose proof (digits_numeral n Hn) as H.
  rewrite (zfill_numeral _ _ _ H).
  destruct (numeral_repeat0 n _ (w - String.length (PyStr.digits n)) Hn H) as [H1 H2].
  repeat split; [done | | done |].
  - intros Hempty. apply (f_equal String.length) in Hempty.
    rewrite length_repeat0 in Hempty.
    pose proof (numeral_len _ _ H) as Hl. unfold len in Hl. simpl in Hempty. lia.
  - rewrite length_repeat0. lia.
Qed.

Lemma int_format_0d w n :
  0 <= n → len (PyStr.format_0d w n) <= PyStr.max_str_digits →
  PyStr.int (PyStr.format_0d w n) = Some n.
Proof.
  intros Hn Hlen. destruct (format_0d_nonneg w n Hn) as (H1 & H2 & H3 & _).
  by rewrite int_digits.
Qed.

Lemma length_format_0d (w : nat) n :
  0 <= n < 10 ^ Z.of_nat w → (1 <= w)%nat → String.length (PyStr.format_0d w n) = w.
Proof.
  intros Hn Hw. destruct (format_0d_nonneg w n ltac:(lia)) as (_ & _ & _ & ->).
  pose proof (numeral_width n _ w (digits_numeral n ltac:(lia)) Hw ltac:(lia)). lia.
Qed.

End PyStrFacts.

(** ** The identifier codec *)

Section Codec.

Import PyStrFacts.

Lemma tag_cases fam : fam ∈ ["RJ"; "VJ"] → fam = "RJ" ∨ fam = "VJ".
Proof. rewrite !elem_of_cons, elem_of_nil. tauto. Qed.

Lemma generate_id_form number fam :
  fam ∈ ["RJ"; "VJ"] → generate_id number fam = fam +:+ numeric_part number.
Proof.
  intros [-> | ->]%tag_cases; unfold generate_id, numeric_part;
    cbn [String.eqb Ascii.eqb Bool.eqb];
    repeat match goal with |- context [if ?b then _ else _] => destruct b end;
    reflexivity.
Qed.

Lemma numeric_part_within number :
  Z.abs number < PyStr.int_limit → PyStr.int (numeric_part number) = Some number.
Proof.
  intros Hlim. pose proof max_str_digits_pos as Hm. unfold numeric_part.
  destruct ((0 <=? number) && (number <=? 999999)) eqn:H1.
  { apply int_format_0d; [lia |]. unfold len. rewrite length_format_0d; lia. }
  destruct ((1000000 <=? number) && (number <=? 9999999)) eqn:H2.
  { apply int_format_0d; [lia |]. unfold len. rewrite length_format_0d; lia. }
  by apply int_str.
Qed.

Lemma numeric_part_beyond number :
  PyStr.int_limit <= Z.abs number → PyStr.int (numeric_part number) = None.
Proof.
  intros Hlim. pose proof int_limit_large as Hl. unfold numeric_part.
  replace ((0 <=? number) && (number <=? 999999)) with false by lia.
  replace ((1000000 <=? number) && (number <=? 9999999)) with false by lia.
  by apply int_str_beyond.
Qed.

Lemma extract_tagged fam body :
  fam ∈ ["RJ"; "VJ"] →
  extract_number_and_type (fam +:+ body) =
  match PyStr.int body with
  | Some number => Ok (number, fam)
  | None => Raise ValueError
  end.
Proof. intros [-> | ->]%tag_cases; reflexivity. Qed.

Lemma round_trip number fam :
  fam ∈ ["RJ"; "VJ"] → Z.abs number < PyStr.int_limit →
  extract_number_and_type (generate_id number fam) = Ok (number, fam).
Proof.
  intros Hfam Hlim. rewrite generate_id_form, extract_tagged by done.
  by rewrite numeric_part_within.
Qed.

Lemma round_trip_beyond number fam :
  fam ∈ ["RJ"; "VJ"] → PyStr.int_limit <= Z.abs number →
  extract_number_and_type (generate_id number fam) = Raise ValueError.
Proof.
  intros Hfam Hlim. rewrite generate_id_form, extract_tagged by done.
  by rewrite numeric_part_beyond.
Qed.

(** Every number the crawler generates identifiers for is far below the cap. *)
Lemma domain_within number : Z.abs number <= 9999999 → Z.abs number < PyStr.int_limit.
Proof. intros H. pose proof int_limit_large. lia. Qed.

Lemma generate_id_inj fam m n :
  fam ∈ ["RJ"; "VJ"] → Z.abs m < PyStr.int_limit → Z.abs n < PyStr.int_limit →
  generate_id m fam = generate_id n fam → m = n.
Proof.
  intros Hfam Hm Hn Heq. pose proof (round_trip m fam Hfam Hm) as Hback.
  rewrite Heq, round_trip in Hback by done. congruence.
Qed.

(** C2. On the supported domain, [generate_id] writes the family tag and the
    number zero-padded to six digits (below 1,000,000) or eight digits, and
    [extract_number_and_type] reads the original pair back. *)
Theorem codec_round_trip number fam :
  fam ∈ ["RJ"; "VJ"] → 0 <= number <= 9999999 →
  let width := if number <? 1000000 then 6%nat else 8%nat in
  generate_id number fam = fam +:+ PyStr.format_0d width number ∧
  String.length (PyStr.format_0d width number) = width ∧
  extract_number_and_type (generate_id number fam) = Ok (number, fam).
Proof.
  intros Hfam Hn width. split; [| split].
  - rewrite generate_id_form by done. unfold numeric_part, width.
    destruct (Z.ltb_spec number 1000000).
    + by replace ((0 <=? number) && (number <=? 999999)) with true by lia.
    + replace ((0 <=? number) && (number <=? 999999)) with false by lia.
      by replace ((1000000 <=? number) && (number <=? 9999999)) with true by lia.
  - unfold width. destruct (Z.ltb_spec number 1000000);
      apply length_format_0d; lia.
  - apply round_trip; [done |]. apply domain_within. lia.
Qed.

Lemma codec_round_trip_witness :
  generate_id 1369999 "VJ" = "VJ" +:+ PyStr.format_0d 8 1369999 ∧
  String.length (PyStr.format_0d 8 1369999) = 8%nat ∧
  extract_number_and_type (generate_id 1369999 "VJ") = Ok (1369999, "VJ").
Proof.
  apply (codec_round_trip 1369999 "VJ"); [| lia].
  apply list_elem_of_further, list_elem_of_here.
Defined.

(** C10, as stated, fails: the interpreter refuses to turn an integer of
    more than 4300 digits into text, and to read such a text back.  For the
    first such number the round trip ends in [ValueError]. *)
Lemma round_trip_fails_at_cap :
  extract_number_and_type (generate_id PyStr.int_limit "RJ") = Raise ValueError ∧
  extract_number_and_type (generate_id (- PyStr.int_limit) "VJ") = Raise ValueError.
Proof.
  pose proof int_limit_large as Hl.
  split; apply round_trip_beyond;
    [apply list_elem_of_here | lia
    | apply list_elem_of_further, list_elem_of_here | lia].
Qed.

(** C10, amended.  For every integer of at most 4300 digits, negative or
    not, inside or outside the padded domain, and both families, parsing the
    generated identifier gives the pair back; outside the padded domain the
    identifier is the tag followed by the unpadded decimal.  From 4301
    digits on the round trip ends in [ValueError] (in the program the
    conversion to text already raises it; here, where [str] has no cap, the
    parser does). *)
Theorem codec_round_trip_every_integer number fam :
  fam ∈ ["RJ"; "VJ"] →
  (¬ (0 <= number <= 9999999) → generate_id number fam = fam +:+ PyStr.str number) ∧
  (Z.abs number < PyStr.int_limit →
   extract_number_and_type (generate_id number fam) = Ok (number, fam)) ∧
  (PyStr.int_limit <= Z.abs number →
   extract_number_and_type (generate_id number fam) = Raise ValueError).
Proof.
  intros Hfam. split; [| split; [by apply round_trip | by apply round_trip_beyond]].
  intros Hout. rewrite generate_id_form by done. unfold numeric_part.
  replace ((0 <=? number) && (number <=? 999999)) with false by lia.
  by replace ((1000000 <=? number) && (number <=? 9999999)) with false by lia.
Qed.

Lemma codec_round_trip_every_integer_witness :
  generate_id (-42) "RJ" = "RJ" +:+ PyStr.str (-42) ∧
  extract_number_and_type (generate_id (-42) "RJ") = Ok (-42, "RJ").
Proof.
  destruct (codec_round_trip_every_integer (-42) "RJ") as (Hform & Hback & _);
    [apply list_elem_of_here |].
  split; [apply Hform; lia | apply Hback; vm_compute; reflexivity].
Defined.

(** C6, as stated, fails: a recognised tag followed by text that is not an
    integer literal makes [extract_number_and_type] raise; so does a tag
    followed by digits behind the separator U+001C, which [str.strip]
    would remove and [int] does not accept. *)
Lemma extract_raises_after_known_tag :
  extract_number_and_type "RJabc" = Raise ValueError ∧
  extract_number_and_type "VJ" = Raise ValueError ∧
  extract_number_and_type ("RJ" +:+ String "028" "12") = Raise ValueError.
Proof. repeat split; vm_compute; reflexivity. Qed.

(** C6, amended. An input whose first two characters are not a family tag
    gives the sentinel [(0, "")].  After a family tag the function does
    what [int] does with the rest of the text: when that is an integer
    literal it returns the literal's value and the tag, and when it is not
    it raises [ValueError]; there is no other outcome. *)
Theorem extract_sentinel_or_literal (id_str : string) :
  (PyStr.take 2 id_str ∉ ["RJ"; "VJ"] → extract_number_and_type id_str = Ok (0, "")) ∧
  (∀ number, PyStr.take 2 id_str ∈ ["RJ"; "VJ"] →
     PyStr.int (PyStr.drop 2 id_str) = Some number →
     extract_number_and_type id_str = Ok (number, PyStr.take 2 id_str)) ∧
  (PyStr.take 2 id_str ∈ ["RJ"; "VJ"] →
     PyStr.int (PyStr.drop 2 id_str) = None →
     extract_number_and_type id_str = Raise ValueError) ∧
  (∀ e, extract_number_and_type id_str = Raise e →
     e = ValueError ∧ PyStr.take 2 id_str ∈ ["RJ"; "VJ"] ∧
     PyStr.int (PyStr.drop 2 id_str) = None).
Proof.
  unfold extract_number_and_type. case_bool_decide as Htag.
  - split; [done |]. split; [by intros number _ -> |]. split; [by intros _ -> |].
    intros e. destruct (PyStr.int (PyStr.drop 2 id_str)); [done |].
    intros [= <-]. done.
  - split; [done |]. split; [done |]. split; done.
Qed.

Lemma extract_sentinel_or_literal_witness :
  extract_number_and_type "XY123" = Ok (0, "") ∧
  extract_number_and_type "RJ 7_0 " = Ok (70, "RJ") ∧
  extract_number_and_type "RJ7-0" = Raise ValueError.
Proof.
  split; [| split].
  - apply (extract_sentinel_or_literal "XY123").
    rewrite !elem_of_cons, elem_of_nil.
    intros [H | [H | []]]; vm_compute in H; discriminate H.
  - destruct (extract_sentinel_or_literal "RJ 7_0 ") as (_ & H & _).
    apply (H 70); [apply list_elem_of_here | reflexivity].
  - destruct (extract_sentinel_or_literal "RJ7-0") as (_ & _ & H & _).
    apply H; [apply list_elem_of_here | reflexivity].
Defined.

End Codec.

(** ** The shard key *)

Section ShardKey.

Import PyStrFacts.

(** The nearest integer is within half a unit of the quotient, and is the
    quotient itself when the division is exact. *)
Lemma round_half_even_bounds n d :
  0 < d →
  let m := PyFloat.round_half_even n d in
  2 * n - d <= 2 * d * m <= 2 * n + d ∧ (n mod d = 0 → m = n / d).
Proof.
  intros Hd m. subst m. unfold PyFloat.round_half_even.
  pose proof (Z.div_mod n d ltac:(lia)) as Hdm.
  pose proof (Z.mod_pos_bound n d Hd) as Hr.
  set (q := n / d) in *. set (r := n mod d) in *.
  destruct (Z.ltb_spec (2 * r) d); [split; [nia | done] |].
  destruct (Z.ltb_spec d (2 * r)); [split; [nia | lia] |].
  destruct (Z.even q); (split; [nia | lia]).
Qed.

Lemma log2_ratio_le a b : PyFloat.log2_ratio a b <= Z.log2 a - Z.log2 b.
Proof.
  unfold PyFloat.log2_ratio.
  destruct (if 0 <=? Z.log2 a - Z.log2 b then _ else _); lia.
Qed.

Lemma log2_ratio_1000 a :
  0 < a <= 1000 * 2 ^ 44 →
  PyFloat.log2_ratio a 1000 <= 44 ∧ (a < 1000 * 2 ^ 44 → PyFloat.log2_ratio a 1000 <= 43).
Proof.
  intros Ha. unfold PyFloat.log2_ratio. change (Z.log2 1000) with 9.
  assert (Z.log2 a < 54) as Hlog by (apply Z.log2_lt_pow2; lia).
  set (l := Z.log2 a - 9) in *.
  destruct (decide (l = 44)) as [Hl | Hl].
  - rewrite Hl. change (0 <=? 44) with true. cbv iota.
    destruct (Z.ltb_spec a (1000 * 2 ^ 44)); lia.
  - destruct (if 0 <=? l then _ else _); lia.
Qed.

(** Up to 2^44 * 1000 the float quotient by 1000 is fine enough for
    [math.ceil] to give the exact integer ceiling: the quotient is below
    2^44, where two neighbouring floats are less than 2/1000 apart. *)
Lemma ceil_truediv_1000 a :
  0 <= a <= 1000 * 2 ^ 44 →
  ∃ x, PyFloat.truediv a 1000 = Ok x ∧ PyFloat.ceil x = (a + 999) / 1000.
Proof.
  intros Ha. unfold PyFloat.truediv.
  destruct (Z.eqb_spec a 0) as [-> | Hne].
  { eexists. split; [reflexivity | reflexivity]. }
  set (e := Z.max (PyFloat.log2_ratio a 1000 - 52) (-1074)).
  assert (-1074 <= e <= -8 ∧ (a < 1000 * 2 ^ 44 → e <= -9)) as [He He'].
  { destruct (log2_ratio_1000 a ltac:(lia)) as [H1 H2]. subst e. lia. }
  replace (0 <=? e) with false by lia.
  replace (971 <? e) with false by lia.
  replace (e =? 971) with false by lia.
  cbn [orb andb].
  eexists. split; [reflexivity |].
  unfold PyFloat.ceil. cbn [PyFloat.expo PyFloat.mant].
  replace (0 <=? e) with false by lia.
  assert (2 ^ 8 <= 2 ^ (- e)) as HP by (apply Z.pow_le_mono_r; lia).
  assert (a < 1000 * 2 ^ 44 → 2 ^ 9 <= 2 ^ (- e)) as HP'
    by (intros Hlt; apply Z.pow_le_mono_r; specialize (He' Hlt); lia).
  change (2 ^ 8) with 256 in HP. change (2 ^ 9) with 512 in HP'.
  set (P := 2 ^ (- e)) in *.
  destruct (round_half_even_bounds (a * P) 1000 ltac:(lia)) as [Hm Hexact].
  set (m := PyFloat.round_half_even (a * P) 1000) in *.
  pose proof (Z.div_mod a 1000 ltac:(lia)) as Hdm.
  pose proof (Z.mod_pos_bound a 1000 ltac:(lia)) as Hr.
  set (k := a / 1000) in *. set (r := a mod 1000) in *.
  assert ((a + 999) / 1000 = if decide (r = 0) then k else k + 1) as ->
    by (subst k r; case_decide; Z.div_mod_to_equations; lia).
  assert (r ≠ 0 → 512 <= P) as HP''.
  { intros Hr0. apply HP'.
    destruct (Z.eq_dec a (1000 * 2 ^ 44)) as [Heq | ?]; [| lia].
    exfalso. apply Hr0. subst r. rewrite Heq. by rewrite Z.mul_comm, Z.mod_mul. }
  clearbody k r m P. clear e He He' HP'.
  destruct (decide (r = 0)) as [Hr0 | Hr0].
  - assert (a * P = (k * P) * 1000) as HaP by nia.
    assert (m = k * P) as ->.
    { rewrite Hexact; rewrite HaP.
      - by rewrite Z.div_mul by lia.
      - by rewrite Z.mod_mul by lia. }
    rewrite <- Z.mul_opp_l, Z.div_mul by lia. lia.
  - specialize (HP'' Hr0).
    assert (P <= r * P <= 999 * P) as HrP by nia.
    assert (a * P = 1000 * (k * P) + r * P) as HaP by nia.
    assert (k * P < m <= k * P + P) as Hbetween by lia.
    assert (- m / P = - (k + 1)) as ->.
    { symmetry. apply (Z.div_unique _ _ _ (- m + (k + 1) * P)); [lia | nia]. }
    lia.
Qed.

Lemma round_up_1000_spec n :
  n <= round_up_1000 n < n + 1000 ∧ round_up_1000 n mod 1000 = 0.
Proof.
  unfold round_up_1000.
  split; [Z.div_mod_to_equations; lia | apply Z.mod_mul; lia].
Qed.

Lemma span_digits_all ds :
  all_digits ds = true → PyStr.span PyStr.is_digit ds = (ds, "").
Proof.
  induction ds as [| c r IH]; [done |]. cbn [all_digits PyStr.span].
  intros [-> Hr]%andb_prop. by rewrite (IH Hr).
Qed.

Lemma span_upper_then_digits prefix ds :
  all_upper prefix = true → all_digits ds = true →
  PyStr.span PyStr.is_upper (prefix +:+ ds) = (prefix, ds).
Proof.
  intros Hp Hd. induction prefix as [| c r IH].
  - cbn [String.append]. destruct ds as [| d ds]; [done |].
    cbn [all_digits] in Hd. apply andb_prop in Hd as [Hd _].
    cbn [PyStr.span].
    destruct (PyStr.is_upper d) eqn:Hu; [| done].
    apply upper_not_digit in Hu. congruence.
  - cbn [all_upper] in Hp. apply andb_prop in Hp as [Hc Hr].
    cbn [String.append PyStr.span]. by rewrite Hc, (IH Hr).
Qed.

(** [get_base_folder] on a tag followed by digits, as long as [int] takes
    the digits and the float division keeps the fraction. *)
Lemma get_base_folder_value prefix ds n :
  all_upper prefix = true → prefix ≠ "" →
  all_digits ds = true → ds ≠ "" → len ds <= PyStr.max_str_digits →
  PyStr.parse_digits 0 ds = Some n → 0 <= n <= 1000 * 2 ^ 44 →
  get_base_folder (prefix +:+ ds) =
  Ok (Some (prefix +:+ PyStr.format_0d (String.length ds) (round_up_1000 n))).
Proof.
  intros Hp Hpne Hd Hdne Hlen Hn Hsmall.
  unfold get_base_folder.
  rewrite span_upper_then_digits, span_digits_all by done.
  destruct prefix as [| p0 prefix]; [done |].
  destruct ds as [| d0 ds]; [done |].
  cbn [PyStr.is_empty orb].
  rewrite int_digits, Hn by done.
  destruct (ceil_truediv_1000 n ltac:(lia)) as (x & -> & ->).
  reflexivity.
Qed.

(** The same, for at most fifteen digits. *)
Lemma get_base_folder_tagged prefix ds :
  all_upper prefix = true → prefix ≠ "" →
  all_digits ds = true → ds ≠ "" → (String.length ds <= 15)%nat →
  ∃ n, PyStr.parse_digits 0 ds = Some n ∧ 0 <= n < 10 ^ len ds ∧
       get_base_folder (prefix +:+ ds) =
       Ok (Some (prefix +:+ PyStr.format_0d (String.length ds) (round_up_1000 n))).
Proof.
  intros Hp Hpne Hd Hdne Hlen.
  destruct (parse_digits_bounds ds 0 Hd ltac:(lia)) as (n & Hn & Hb).
  exists n. split; [done |]. split; [lia |].
  assert (n < 10 ^ 15) as Hsmall.
  { assert (10 ^ len ds <= 10 ^ 15) by (apply Z.pow_le_mono_r; unfold len; lia). lia. }
  pose proof max_str_digits_pos as Hm.
  apply get_base_folder_value; try done; [unfold len; lia | lia].
Qed.

(** C5, as stated, fails twice: the key of [RJ999999] has seven digits where
    the identifier has six, and the float division places the identifier
    of number 2^44 * 1000 + 1 under a key below its own number. *)
Lemma shard_key_width_and_order_fail :
  get_base_folder "RJ999999" = Ok (Some "RJ1000000") ∧
  get_base_folder "RJ17592186044416001" = Ok (Some "RJ17592186044416000").
Proof. split; vm_compute; reflexivity. Qed.

(** C5, amended. For a tag followed by digits that [int] reads as a number
    up to 2^44 * 1000 (it reads at most 4300 digits) the key is
    the tag followed by digits only: the number rounded up to the next
    multiple of 1000, hence never below the number, zero-filled to the
    width of the identifier's digits.  The key's digit string is as wide as
    the identifier's, or as wide as the rounded number when that needs more
    digits, so the widths agree whenever the rounded number fits. *)
Theorem shard_key_rounds_up prefix ds n :
  all_upper prefix = true → prefix ≠ "" →
  all_digits ds = true → ds ≠ "" →
  PyStr.int ds = Some n → n <= 1000 * 2 ^ 44 →
  ∃ key,
    get_base_folder (prefix +:+ ds) = Ok (Some (prefix +:+ key)) ∧
    key = PyStr.zfill (String.length ds) (PyStr.str (round_up_1000 n)) ∧
    all_digits key = true ∧
    PyStr.int key = Some (round_up_1000 n) ∧
    n <= round_up_1000 n < n + 1000 ∧ round_up_1000 n mod 1000 = 0 ∧
    String.length key =
      Nat.max (String.length ds) (String.length (PyStr.str (round_up_1000 n))) ∧
    (round_up_1000 n < 10 ^ len ds → String.length key = String.length ds).
Proof.
  intros Hp Hpne Hd Hdne Hint Hsmall.
  assert (len ds <= PyStr.max_str_digits) as Hlen.
  { destruct (Z.le_gt_cases (len ds) PyStr.max_str_digits) as [? | Hgt]; [done |].
    destruct (int_over_cap ds Hd ltac:(lia)) as [Hnone _]. congruence. }
  rewrite int_digits in Hint by done.
  destruct (parse_digits_bounds ds 0 Hd ltac:(lia)) as (n' & Hn' & Hb).
  assert (n' = n) as -> by congruence.
  pose proof (round_up_1000_spec n) as [Hr1 Hr2].
  assert (0 <= round_up_1000 n) as Hr0 by lia.
  destruct (format_0d_nonneg (String.length ds) (round_up_1000 n) Hr0)
    as (Hkd & _ & _ & Hw).
  assert (PyStr.str (round_up_1000 n) = PyStr.digits (round_up_1000 n)) as Hstr.
  { unfold PyStr.str. by replace (round_up_1000 n <? 0) with false by lia. }
  exists (PyStr.format_0d (String.length ds) (round_up_1000 n)).
  split; [apply get_base_folder_value; try done; lia |].
  split; [reflexivity |].
  split; [done |].
  split.
  { apply int_format_0d; [done |]. unfold len in *. rewrite Hw.
    pose proof (numeral_width (round_up_1000 n) _ 20
                  (digits_numeral _ Hr0) ltac:(lia) ltac:(lia)) as Hwide.
    pose proof max_str_digits_pos. lia. }
  split; [done |]. split; [done |].
  split; [by rewrite Hstr |].
  intros Hfits. apply length_format_0d; [done |].
  destruct ds; [done | simpl; lia].
Qed.

Lemma shard_key_rounds_up_witness :
  ∃ key,
    get_base_folder ("RJ" +:+ "001305") = Ok (Some ("RJ" +:+ key)) ∧
    key = PyStr.zfill (String.length "001305") (PyStr.str (round_up_1000 1305)) ∧
    all_digits key = true ∧
    PyStr.int key = Some (round_up_1000 1305) ∧
    1305 <= round_up_1000 1305 < 1305 + 1000 ∧ round_up_1000 1305 mod 1000 = 0 ∧
    String.length key =
      Nat.max (String.length "001305") (String.length (PyStr.str (round_up_1000 1305))) ∧
    (round_up_1000 1305 < 10 ^ len "001305" → String.length key = String.length "001305").
Proof.
  apply (shard_key_rounds_up "RJ" "001305" 1305);
    [reflexivity | discriminate | reflexivity | discriminate | reflexivity | lia].
Defined.

End ShardKey.

(** ** The ingestion pipeline *)

Section PipelineFacts.

Context (api : string → option Work) (http : string → bool) (now : nat → string).

Lemma same_but_assets_refl w : same_but_assets w w.
Proof. by repeat split. Qed.

Lemma has_code_entry_of work : has_code (entry_of work).
Proof. by eexists _, _. Qed.

Lemma first_with_code_ok items pid :
  Forall has_code items →
  ∃ r, first_with_code items pid = Ok r ∧ ∀ e, r = Some e → truthy e = true.
Proof.
  induction 1 as [| e items (fields & v & -> & Hv) _ (r & Hr & Ht)].
  - exists None. split; [done | intros ? [=]].
  - cbn [first_with_code subscript_code]. rewrite Hv.
    destruct (eq_str v pid).
    + eexists. split; [done |]. intros ? [= <-].
      destruct fields; [discriminate Hv | done].
    + by exists r.
Qed.

Lemma image_of_nonempty work url :
  image_of work = Some url → PyStr.is_empty url = false.
Proof.
  unfold image_of. destruct (work_image work) as [u |]; [| done].
  destruct (PyStr.is_empty u) eqn:E; [done |]. by intros [= <-].
Qed.

(** [download_image] never raises and touches nothing but the image files;
    it sends no request for a file that is already there. *)
Lemma download_image_total url path w :
  ∃ b w', download_image http url path w = (Ok b, w') ∧ same_but_assets w w' ∧
          (path ∈ assets w → downloads w' = downloads w).
Proof.
  unfold download_image. destruct w as [tf df fs db ck vs ds bd].
  destruct (PyStr.is_empty url); run; [by eexists _, _ |].
  case_bool_decide as Hin; [by eexists _, _ |].
  destruct (http (fix_image_url url)); by eexists _, _.
Qed.

Lemma repair_image_total pid p w :
  image_path pid = Ok p →
  ∃ w', repair_image api http pid w = (Ok tt, w') ∧ same_but_assets w w'.
Proof.
  intros Hp. unfold repair_image. rewrite Hp. run.
  case_bool_decide; [eexists; split; [done | apply same_but_assets_refl] |].
  destruct (api pid) as [work |]; [| eexists; split; [done | apply same_but_assets_refl]].
  destruct (image_of work) as [url |]; [| eexists; split; [done | apply same_but_assets_refl]].
  destruct (download_image_total url p w) as (b & w' & -> & Hs & _).
  by exists w'.
Qed.

Lemma ingest_new_total pid items w :
  database w = JArr items →
  (∀ work url, api pid = Some work → allowed work = true → image_of work = Some url →
     ∃ q, image_path (product_id work) = Ok q) →
  ∃ w', ingest_new api http pid w = (Ok tt, w') ∧
        temp_file w' = temp_file w ∧ db_file w' = db_file w ∧
        clock w' = clock w ∧ visited w' = visited w ∧ budget w' = budget w ∧
        database w' = JArr (items ++ accepted api pid).
Proof.
  intros Hdb Hecho. unfold ingest_new, accepted.
  destruct w as [tf df fs db ck vs ds bd]. cbn in Hdb. subst db. run.
  destruct (api pid) as [work |];
    [| eexists; by rewrite app_nil_r].
  destruct (allowed work) eqn:Hal; [| eexists; by rewrite app_nil_r].
  destruct (image_of work) as [url |] eqn:Himg.
  - destruct (Hecho work url eq_refl Hal Himg) as [q ->].
    destruct (download_image_total url q (mkWorld tf df fs (JArr items) ck vs ds bd))
      as (b & w' & -> & Hs & _).
    destruct w' as [tf' df' fs' db' ck' vs' ds' bd'].
    unfold same_but_assets in Hs. cbn in Hs.
    destruct Hs as (-> & -> & -> & -> & -> & ->).
    cbn [append]. eexists. by repeat split.
  - cbn [append]. eexists. by repeat split.
Qed.

(** The two branches of the loop body. *)
Lemma branch_effect pid p items r w :
  first_with_code items pid = Ok r →
  database w = JArr items → Forall has_code items →
  image_path pid = Ok p →
  (∀ work url, api pid = Some work → allowed work = true →
     image_of work = Some url → ∃ q, image_path (product_id work) = Ok q) →
  ∃ w', (if match r with Some entry => truthy entry | None => false end
         then repair_image api http pid else ingest_new api http pid) w
        = (Ok tt, w') ∧
        temp_file w' = temp_file w ∧ db_file w' = db_file w ∧
        clock w' = clock w ∧ visited w' = visited w ∧ budget w' = budget w ∧
        database w' = JArr (items ++ if known items pid then [] else accepted api pid).
Proof.
  intros Hr Hdb Hitems Hp Hecho. unfold known. rewrite Hr.
  destruct (first_with_code_ok items pid Hitems) as (r' & Hr' & Ht).
  assert (r' = r) as -> by congruence.
  destruct r as [e |].
  - rewrite (Ht e eq_refl).
    destruct (repair_image_total pid p w Hp) as (w' & -> & (? & ? & ? & ? & ? & ?)).
    exists w'. rewrite app_nil_r. repeat split; congruence.
  - destruct (ingest_new_total pid items w Hdb Hecho) as (w' & -> & ?).
    by exists w'.
Qed.

(** The loop body, when the catalog is a list of readable entries and the
    identifiers in play have a shard key. *)
Lemma visit_effect fam n w items p :
  budget w ≠ Some 0%nat →
  database w = JArr items → Forall has_code items →
  image_path (generate_id n fam) = Ok p →
  (∀ work url, api (generate_id n fam) = Some work → allowed work = true →
     image_of work = Some url → ∃ q, image_path (product_id work) = Ok q) →
  ∃ w', visit api http now fam n w = (Ok tt, w') ∧
    visited w' = (visited w ++ [generate_id n fam])%list ∧
    temp_file w' = checkpoint fam (temp_file w) n ∧
    budget w' = Nat.pred <$> budget w ∧
    database w' =
      JArr (items ++ if known items (generate_id n fam) then []
                     else accepted api (generate_id n fam)) ∧
    db_file w' =
      if n mod 20 =? 0 then Holds (snapshot (now (clock w)) (database w'))
      else db_file w.
Proof.
  intros Hb Hdb Hitems Hp Hecho.
  destruct (first_with_code_ok items (generate_id n fam) Hitems) as (r & Hr & _).
  unfold visit, checkpoint, find_existing.
  set (pid := generate_id n fam) in *. clearbody pid.
  destruct w as [tf df fs db ck vs ds bd]. cbn in Hb, Hdb. subst db.
  assert (∃ bd', (tick (mkWorld tf df fs (JArr items) ck vs ds bd)
                  = (Ok tt, mkWorld tf df fs (JArr items) ck vs ds bd')) ∧
                 bd' = Nat.pred <$> bd) as (bd' & Htick & ->).
  { destruct bd as [[| b] |]; [done | by eexists | by eexists]. }
  unfold bind at 1. rewrite Htick.
  destruct (n mod 10 =? 0); destruct (n mod 20 =? 0);
    run; cbn [iterate]; rewrite Hr;
    match goal with
    | |- context [(if _ then repair_image _ _ _ else _) ?W] =>
        destruct (branch_effect pid p items r W Hr eq_refl Hitems Hp Hecho)
          as ([tf1 df1 fs1 db1 ck1 vs1 ds1 bd1] & -> & H1 & H2 & H3 & H4 & H5 & H6)
    end;
    cbn in H1, H2, H3, H4, H5, H6; subst tf1 df1 ck1 vs1 bd1 db1;
    eexists; (split; [reflexivity |]); by repeat split.
Qed.

(** Killed before the body starts: nothing happens. *)
Lemma visit_killed fam n w :
  budget w = Some 0%nat → visit api http now fam n w = (Raise KeyboardInterrupt, w).
Proof. intros Hb. unfold visit, bind at 1, tick. by rewrite Hb. Qed.


(** *** Runs of the loop body *)

Lemma visits_ret fam : visits fam (ret tt) [].
Proof.
  intros w Hw. exists w. unfold ending, cut, spend, ids.
  destruct (budget w) as [b |]; cbn;
    rewrite ?take_nil, app_nil_r, ?Nat.sub_0_r;
    [rewrite decide_False by lia |]; repeat (split; [done |]); done.
Qed.

Lemma visits_seq fam m1 m2 ns1 ns2 :
  visits fam m1 ns1 → visits fam m2 ns2 → visits fam (m1 ;;; m2)%py (ns1 ++ ns2).
Proof.
  intros H1 H2 w Hw.
  destruct (H1 w Hw) as (w1 & Hm1 & Hv1 & Ht1 & Hb1 & Hs1).
  unfold bind. rewrite Hm1.
  destruct (budget w) as [b |] eqn:Hb; cbn [ending cut spend fmap option_fmap option_map] in *.
  - destruct (decide (b < length ns1)%nat) as [Hlt | Hge].
    + exists w1. rewrite decide_True by (rewrite length_app; lia).
      rewrite take_app_le by lia.
      split; [done |]. split; [done |]. split; [done |]. split; [| done].
      rewrite Hb1, length_app. f_equal. lia.
    + rewrite take_ge in Hv1, Ht1 by lia.
      destruct (H2 w1 Hs1) as (w2 & Hm2 & Hv2 & Ht2 & Hb2 & Hs2).
      rewrite Hb1 in Hm2, Hv2, Ht2, Hb2.
      cbn [ending cut spend fmap option_fmap option_map] in *.
      exists w2. rewrite Hm2.
      replace (take b (ns1 ++ ns2)) with (ns1 ++ take (b - length ns1) ns2)
        by (rewrite take_app_ge by lia; done).
      split; [| split; [| split; [| split]]].
      * rewrite length_app. repeat case_decide; (done || lia).
      * rewrite Hv2, Hv1. unfold ids. by rewrite fmap_app, app_assoc.
      * by rewrite Ht2, Ht1, foldl_app.
      * rewrite Hb2, length_app. f_equal. lia.
      * done.
  - destruct (H2 w1 Hs1) as (w2 & Hm2 & Hv2 & Ht2 & Hb2 & Hs2).
    rewrite Hb1 in Hm2, Hv2, Ht2, Hb2.
    cbn [ending cut spend fmap option_fmap option_map] in *.
    exists w2. rewrite Hm2.
    split; [done |]. split; [| split; [| done]].
    + rewrite Hv2, Hv1. unfold ids. by rewrite fmap_app, app_assoc.
    + by rewrite Ht2, Ht1, foldl_app.
Qed.

Lemma visits_for_each {A} fam (body : A → M unit) (f : A → list Z) l :
  (∀ x, x ∈ l → visits fam (body x) (f x)) →
  visits fam (for_each l body) (concat (f <$> l)).
Proof.
  induction l as [| x l IH]; intros Hbody; cbn [for_each fmap list_fmap concat].
  - apply visits_ret.
  - apply visits_seq.
    + apply Hbody, list_elem_of_here.
    + apply IH. intros y Hy. by apply Hbody, list_elem_of_further.
Qed.


Lemma visits_flush fam : visits fam (flush now) [].
Proof.
  intros w [Hdb Hfile]. eexists. split; [| split; [| split; [| split]]].
  - unfold flush, modify, ending.
    destruct (budget w); [rewrite decide_False by (simpl; lia) |]; reflexivity.
  - destruct w as [? ? ? ? ? ? ? []]; cbn; by rewrite ?take_nil, app_nil_r.
  - destruct w as [? ? ? ? ? ? ? []]; cbn; by rewrite ?take_nil.
  - destruct w as [? ? ? ? ? ? ? []]; cbn; by rewrite ?Nat.sub_0_r.
  - destruct w; split; exact Hdb.
Qed.

Lemma image_path_of_shard pid key :
  get_base_folder pid = Ok (Some key) → ∃ p, image_path pid = Ok p.
Proof. intros H. unfold image_path. rewrite H. by eexists. Qed.

(** The identifiers of the supported domain are a tag and six or eight digits. *)
Lemma generate_id_padded n fam :
  fam ∈ ["RJ"; "VJ"] → 0 <= n <= 9999999 →
  let width := if n <? 1000000 then 6%nat else 8%nat in
  generate_id n fam = fam +:+ PyStr.format_0d width n ∧
  String.length (PyStr.format_0d width n) = width.
Proof.
  intros Hfam Hn width. split.
  - rewrite generate_id_form by done. unfold numeric_part, width.
    destruct (Z.ltb_spec n 1000000).
    + by replace ((0 <=? n) && (n <=? 999999)) with true by lia.
    + replace ((0 <=? n) && (n <=? 999999)) with false by lia.
      by replace ((1000000 <=? n) && (n <=? 9999999)) with true by lia.
  - unfold width. destruct (Z.ltb_spec n 1000000);
      apply PyStrFacts.length_format_0d; lia.
Qed.

Lemma image_path_generated n fam :
  fam ∈ ["RJ"; "VJ"] → 0 <= n <= 9999999 →
  ∃ p, image_path (generate_id n fam) = Ok p.
Proof.
  intros Hfam Hn.
  destruct (generate_id_padded n fam Hfam Hn) as [-> Hlen].
  set (width := if n <? 1000000 then 6%nat else 8%nat) in *.
  destruct (PyStrFacts.format_0d_nonneg width n ltac:(lia)) as (Hd & Hne & _ & _).
  destruct (get_base_folder_tagged fam (PyStr.format_0d width n)) as (v & _ & _ & Hg);
    try done.
  - by destruct (tag_cases fam Hfam) as [-> | ->].
  - by destruct (tag_cases fam Hfam) as [-> | ->].
  - rewrite Hlen. unfold width. destruct (n <? 1000000); lia.
  - by eapply image_path_of_shard.
Qed.

Lemma visits_visit fam n :
  echo_ok api → fam ∈ ["RJ"; "VJ"] → 0 <= n <= 9999999 →
  visits fam (visit api http now fam n) [n].
Proof.
  intros Hecho Hfam Hn w [(items & Hdb & Hitems) Hfile].
  destruct (decide (budget w = Some 0%nat)) as [Hb | Hb].
  - exists w. rewrite (visit_killed fam n w Hb), Hb. cbn.
    rewrite app_nil_r. repeat (split; [done |]). split; [by exists items | done].
  - destruct (image_path_generated n fam Hfam Hn) as [p Hp].
    destruct (visit_effect fam n w items p Hb Hdb Hitems Hp (Hecho _))
      as (w' & Hv & H1 & H2 & H3 & H4 & H5).
    exists w'. rewrite Hv, H1, H2, H3.
    assert (catalog_ok (database w')) as Hok.
    { rewrite H4. eexists. split; [done |]. apply Forall_app. split; [done |].
      destruct (known items _); [constructor |]. unfold accepted.
      destruct (api _) as [work |]; [| constructor].
      destruct (allowed work); repeat constructor. apply has_code_entry_of. }
    assert (steady w') as Hs.
    { split; [done |]. rewrite H5. by destruct (n mod 20 =? 0). }
    destruct (budget w) as [[| b] |]; [done | |]; cbn.
    + rewrite decide_False by lia. by rewrite Nat.sub_0_r, take_nil.
    + done.
Qed.

Lemma concat_singletons {A} (l : list A) : concat ((λ x, [x]) <$> l) = l.
Proof. induction l as [| x l IH]; cbn; [done | by rewrite IH]. Qed.

Lemma visits_process_sequential_ids fam s e :
  echo_ok api → fam ∈ ["RJ"; "VJ"] → 0 <= s → e <= 9999999 →
  visits fam (process_sequential_ids api http now s e fam) (range s (e + 1)).
Proof.
  intros Hecho Hfam Hs He. unfold process_sequential_ids.
  rewrite <- (concat_singletons (range s (e + 1))) at 2.
  apply visits_for_each. intros n Hn. apply visits_visit; [done | done |].
  unfold range in Hn. apply elem_of_seqZ in Hn. lia.
Qed.


(** *** Ranges and batches *)

Lemma range_nil a b : b <= a → range a b = [].
Proof. intros. unfold range. apply seqZ_nil. lia. Qed.

Lemma range_split a m b : a <= m <= b → range a b = range a m ++ range m b.
Proof.
  intros H. unfold range.
  replace (b - a) with ((m - a) + (b - m)) by lia.
  rewrite seqZ_app by lia. by replace (a + (m - a)) with m by lia.
Qed.

Lemma elem_of_range n a b : n ∈ range a b ↔ a <= n < b.
Proof. unfold range. rewrite elem_of_seqZ. lia. Qed.

Lemma length_range a b : length (range a b) = Z.to_nat (b - a).
Proof. apply length_seqZ. Qed.

Lemma take_range (k : nat) a b :
  a + Z.of_nat k <= b → take k (range a b) = range a (a + Z.of_nat k).
Proof.
  intros H. rewrite (range_split a (a + Z.of_nat k) b) by lia.
  rewrite take_app_le by (rewrite length_range; lia).
  apply take_ge. rewrite length_range. lia.
Qed.

Lemma range3_unfold a b :
  range3 a b 1000 = if a <? b then a :: range3 (a + 1000) b 1000 else [].
Proof.
  unfold range3. destruct (Z.ltb_spec a b) as [Hlt | Hge].
  - assert ((b - a + 1000 - 1) / 1000 = (b - (a + 1000) + 1000 - 1) / 1000 + 1) as ->
      by (Z.div_mod_to_equations; lia).
    set (c := (b - (a + 1000) + 1000 - 1) / 1000).
    assert (0 <= c) by (subst c; Z.div_mod_to_equations; lia).
    rewrite seqZ_cons by lia. cbn [fmap list_fmap]. f_equal; [lia |].
    replace (Z.pred (c + 1)) with c by lia.
    replace (Z.succ 0) with (1 + 0) by lia.
    rewrite <- fmap_add_seqZ, <- list_fmap_compose.
    apply list_fmap_ext. intros _ i _. cbn. lia.
  - rewrite seqZ_nil; [done |]. Z.div_mod_to_equations; lia.
Qed.

(** The batches of [main] tile the range they are cut from. *)
Lemma batches_tile e : ∀ (k : nat) a,
  (Z.to_nat (e + 1 - a) <= k)%nat →
  concat ((λ bs, range bs (Z.min (bs + batch_size - 1) e + 1))
            <$> range3 a (e + 1) batch_size) = range a (e + 1).
Proof.
  unfold batch_size.
  induction k as [| k IH]; intros a Hk; rewrite range3_unfold;
    destruct (Z.ltb_spec a (e + 1)) as [Hlt | Hge];
    try (by rewrite range_nil by lia); [lia |].
  cbn [fmap list_fmap concat]. rewrite IH by lia.
  destruct (Z.le_gt_cases (a + 1000 - 1) e).
  - rewrite Z.min_l by lia. rewrite (range_split a (a + 1000) (e + 1)) by lia.
    by replace (a + 1000 - 1 + 1) with (a + 1000) by lia.
  - rewrite Z.min_r by lia. rewrite (range_nil (a + 1000)) by lia. by rewrite app_nil_r.
Qed.

Lemma visits_process_batches fam a e :
  echo_ok api → fam ∈ ["RJ"; "VJ"] → 0 <= a → e <= 9999999 →
  visits fam (process_batches api http now a e fam) (range a (e + 1)).
Proof.
  intros Hecho Hfam Ha He. unfold process_batches.
  rewrite <- (batches_tile e (Z.to_nat (e + 1 - a)) a) by lia.
  apply visits_for_each. intros bs Hbs.
  rewrite <- (app_nil_r (range bs _)).
  apply visits_seq; [| apply visits_flush].
  apply visits_process_sequential_ids; try done; [| lia].
  unfold range3 in Hbs. apply list_elem_of_fmap in Hbs as (i & -> & Hi).
  apply elem_of_seqZ in Hi. unfold batch_size. lia.
Qed.


(** *** [main] *)

Lemma visits_process_rj s idx :
  echo_ok api → 0 <= s → idx = 0 ∨ idx = 1 →
  visits "RJ" (process_rj api http now s idx) (rj_plan s idx).
Proof.
  intros Hecho Hs [-> | ->].
  - assert (process_rj api http now s 0 =
            (process_batches api http now s 499999 "RJ" ;;;
             process_batches api http now 1000000 1369999 "RJ" ;;; ret tt)%py)
      as -> by reflexivity.
    unfold rj_plan. change (0 =? 0) with true. cbv iota.
    rewrite <- (app_nil_r (range 1000000 1370000)).
    assert ("RJ" ∈ ["RJ"; "VJ"]) by apply list_elem_of_here.
    apply visits_seq; [| apply visits_seq; [| apply visits_ret]].
    + by apply (visits_process_batches "RJ" s 499999).
    + by apply (visits_process_batches "RJ" 1000000 1369999).
  - assert (process_rj api http now s 1 =
            (process_batches api http now s 1369999 "RJ" ;;; ret tt)%py)
      as -> by reflexivity.
    unfold rj_plan. change (1 =? 0) with false. cbv iota.
    rewrite <- (app_nil_r (range s 1370000)).
    assert ("RJ" ∈ ["RJ"; "VJ"]) by apply list_elem_of_here.
    apply visits_seq; [| apply visits_ret].
    by apply (visits_process_batches "RJ" s 1369999).
Qed.

(** The VJ part never starts: [vj_end] is the second pair of [vj_range],
    and a pair plus one is a [TypeError]. *)
Lemma process_vj_raises s in_vj w :
  process_vj api http now s in_vj w = (Raise TypeError, w).
Proof. reflexivity. Qed.

Lemma load_database_loaded w :
  load_database w = (Ok tt, set_database (loaded (db_file w)) w).
Proof.
  unfold load_database, loaded. destruct w as [tf df fs db ck vs ds bd]. run.
  destruct df as [| | v]; try reflexivity.
  destruct v; try reflexivity.
  by destruct (dict_get "items" fields).
Qed.

Lemma main_runs w s idx :
  echo_ok api → catalog_ok (loaded (db_file w)) →
  start_info (cursor w) = Ok (s, idx, false) → 0 <= s → idx = 0 ∨ idx = 1 →
  ∃ w', main api http now w = (main_ending (ending (budget w) (rj_plan s idx)), w') ∧
        visited w' = visited w ++ ids "RJ" (cut (budget w) (rj_plan s idx)) ∧
        temp_file w' =
          foldl (checkpoint "RJ") (temp_file w) (cut (budget w) (rj_plan s idx)) ∧
        budget w' = spend (budget w) (rj_plan s idx) ∧
        steady w'.
Proof.
  intros Hecho Hfile Hstart Hs Hidx.
  assert (steady (set_database (loaded (db_file w)) w)) as Hsteady
    by (by destruct w).
  destruct (visits_process_rj s idx Hecho Hs Hidx _ Hsteady)
    as (w' & Hrun & Hv & Ht & Hb & Hs').
  exists w'. split; [| by destruct w].
  unfold main. unfold bind at 1.
  change (load_progress w) with (Ok (cursor w), w). cbv beta iota.
  unfold bind at 1. rewrite load_database_loaded.
  unfold bind at 1, lift at 1. rewrite Hstart. cbv beta iota. cbn [negb].
  unfold bind at 1. unfold bind at 1. rewrite Hrun.
  replace (budget (set_database (loaded (db_file w)) w)) with (budget w)
    by (by destruct w).
  destruct (ending (budget w) (rj_plan s idx)) as [[] | e]; [| done].
  unfold bind at 1. by rewrite process_vj_raises.
Qed.


(** Whatever the cursor, the catalog and the provider: [main] never reaches
    its end, because the VJ part raises as soon as it is entered. *)
Lemma main_never_completes w :
  ∃ e w', main api http now w = (Raise e, w').
Proof.
  unfold main. unfold bind at 1.
  change (load_progress w) with (Ok (cursor w), w). cbv beta iota.
  unfold bind at 1. rewrite load_database_loaded.
  unfold bind at 1, lift at 1.
  destruct (start_info (cursor w)) as [[[s idx] in_vj] | e]; [| by eexists _, _].
  cbv beta iota. unfold bind at 1.
  destruct ((if negb in_vj then process_rj api http now s idx else ret tt) _)
    as [[[] | e] w1].
  - unfold bind at 1. rewrite process_vj_raises. by eexists _, _.
  - by eexists _, _.
Qed.

(** *** The cursor *)

Lemma foldl_checkpoint_quiet fam t ns :
  (∀ n, n ∈ ns → n mod 10 ≠ 0) → foldl (checkpoint fam) t ns = t.
Proof.
  revert t. induction ns as [| n ns IH]; intros t Hq; [done |].
  cbn [foldl]. unfold checkpoint at 2.
  pose proof (Hq n (list_elem_of_here _ _)).
  replace (n mod 10 =? 0) with false by lia.
  apply IH. intros m Hm. by apply Hq, list_elem_of_further.
Qed.

(** After a run that ends at [k], the cursor is the last multiple of ten
    up to [k]. *)
Lemma foldl_checkpoint_range fam t k :
  foldl (checkpoint fam) t (range (10 * (k / 10)) (k + 1)) =
  Holds (generate_id (10 * (k / 10)) fam).
Proof using Type.
  clear api http now.
  set (c := 10 * (k / 10)).
  assert (c <= k < c + 10 ∧ c mod 10 = 0) as [Hc Hm]
    by (subst c; Z.div_mod_to_equations; lia).
  unfold range. rewrite seqZ_cons by lia. cbn [foldl].
  unfold checkpoint at 2. replace (c mod 10 =? 0) with true by lia.
  apply foldl_checkpoint_quiet. intros n Hn. apply elem_of_seqZ in Hn.
  Z.div_mod_to_equations; lia.
Qed.

Lemma strip_tagged a b ds :
  PyStr.is_space a = false → PyStr.is_space b = false →
  all_digits ds = true →
  PyStr.strip (String a (String b ds)) = String a (String b ds).
Proof.
  intros Ha Hb Hd. unfold PyStr.strip. cbn [PyStr.lstrip]. rewrite Ha.
  cbn [PyStr.rstrip]. rewrite (PyStrFacts.rstrip_digits _ Hd), Ha, Hb. done.
Qed.

Lemma strip_generated n fam :
  fam ∈ ["RJ"; "VJ"] → 0 <= n <= 9999999 →
  PyStr.strip (generate_id n fam) = generate_id n fam ∧
  PyStr.is_empty (generate_id n fam) = false.
Proof.
  intros Hfam Hn. destruct (generate_id_padded n fam Hfam Hn) as [-> _].
  set (width := if n <? 1000000 then 6%nat else 8%nat).
  destruct (PyStrFacts.format_0d_nonneg width n ltac:(lia)) as (Hd & _ & _ & _).
  destruct (tag_cases fam Hfam) as [-> | ->]; (split; [| done]);
    by apply strip_tagged.
Qed.

(** The start information [main] derives from a cursor written by the RJ part. *)
Lemma start_info_rj c :
  0 <= c <= 499999 ∨ 1000000 <= c <= 1369999 →
  start_info (Some (generate_id c "RJ")) = Ok (c, (if c <? 500000 then 0 else 1), false).
Proof.
  intros Hc. unfold start_info.
  assert ("RJ" ∈ ["RJ"; "VJ"]) as Hfam by apply list_elem_of_here.
  destruct (strip_generated c "RJ" Hfam ltac:(lia)) as [_ ->].
  rewrite (round_trip c "RJ" Hfam) by (apply domain_within; lia).
  cbn [String.eqb Ascii.eqb Bool.eqb].
  destruct (Z.ltb_spec c 500000).
  - by replace ((0 <=? c) && (c <=? 499999)) with true by lia.
  - replace ((0 <=? c) && (c <=? 499999)) with false by lia.
    by replace ((1000000 <=? c) && (c <=? 1369999)) with true by lia.
Qed.

(** The identifiers of the two RJ intervals are pairwise distinct. *)
Lemma universe_ids_distinct :
  NoDup (ids "RJ" (range 0 500000 ++ range 1000000 1370000)).
Proof.
  apply NoDup_fmap_2_strong.
  - assert (∀ x, x ∈ range 0 500000 ++ range 1000000 1370000 →
                 Z.abs x < PyStr.int_limit) as Hdom.
    { intros x [Hx | Hx]%elem_of_app; apply elem_of_range in Hx;
        apply domain_within; lia. }
    intros x y Hx Hy Hxy.
    assert ("RJ" ∈ ["RJ"; "VJ"]) as Hfam by apply list_elem_of_here.
    apply (generate_id_inj "RJ" x y Hfam); [by apply Hdom | by apply Hdom | done].
  - apply NoDup_app. split; [apply NoDup_seqZ |]. split; [| apply NoDup_seqZ].
    intros x Hx Hx'. apply elem_of_range in Hx, Hx'. lia.
Qed.


(** C1: the code breaks the claim.  A run started with no saved cursor goes
    through the two RJ intervals in increasing order, each number once, and
    then stops with a [TypeError] before any VJ identifier: [vj_range] is a
    list of two pairs, and [main] uses its elements as the two bounds. *)
Theorem fresh_run_stops_before_vj w :
  echo_ok api → temp_file w = Missing → catalog_ok (loaded (db_file w)) →
  budget w = None →
  ∃ w', main api http now w = (Raise TypeError, w') ∧
        visited w' = visited w ++ ids "RJ" (range 0 500000 ++ range 1000000 1370000).
Proof.
  intros Hecho Htemp Hfile Hbudget.
  destruct (main_runs w 0 0 Hecho Hfile) as (w' & Hmain & Hv & _);
    [by unfold cursor; rewrite Htemp | lia | by left |].
  rewrite Hbudget in Hmain, Hv. exists w'. by split.
Qed.

#[local] Opaque range.

(** C3, amended.  Let the run be stopped right after [k] of an RJ interval
    and restarted.  The cursor on disk is then the last multiple of ten up
    to [k]; the restarted run starts there.  Together the two runs visit the
    identifiers of the uninterrupted RJ pass and no other; those from the
    cursor to [k] are visited by both runs, every other one by exactly one. *)
Theorem resume_revisits_from_cursor w k :
  echo_ok api → temp_file w = Missing → catalog_ok (loaded (db_file w)) →
  visited w = [] →
  0 <= k <= 499999 ∨ 1000000 <= k <= 1369999 →
  let universe := range 0 500000 ++ range 1000000 1370000 in
  let c := 10 * (k / 10) in
  let position := if k <? 500000 then k else 500000 + (k - 1000000) in
  let e1 := if k =? 1369999 then TypeError else KeyboardInterrupt in
  ∃ pre post w1 w2,
    universe = pre ++ range c (k + 1) ++ post ∧
    NoDup (ids "RJ" universe) ∧
    main api http now (set_budget (Some (Z.to_nat (position + 1))) w) = (Raise e1, w1) ∧
    visited w1 = ids "RJ" (pre ++ range c (k + 1)) ∧
    temp_file w1 = Holds (generate_id c "RJ") ∧
    main api http now (set_budget None (set_visited [] w1)) = (Raise TypeError, w2) ∧
    visited w2 = ids "RJ" (range c (k + 1) ++ post).
Proof.
  intros Hecho Htemp Hfile Hvisited Hk universe c position e1.
  assert (c <= k < c + 10 ∧ c mod 10 = 0) as [Hc Hm]
    by (subst c; Z.div_mod_to_equations; lia).
  assert (0 <= c <= 499999 ∧ k <= 499999 ∨ 1000000 <= c <= 1369999 ∧ 1000000 <= k)
    as Hcases by (Z.div_mod_to_equations; lia).
  (* the first run *)
  set (b := Z.to_nat (position + 1)).
  destruct (main_runs (set_budget (Some b) w) 0 0 Hecho) as (w1 & Hmain1 & Hv1 & Ht1 & _ & Hs1);
    [by destruct w | by destruct w; cbn in *; subst | lia | by left |].
  replace (budget (set_budget (Some b) w)) with (Some b) in * by (by destruct w).
  replace (visited (set_budget (Some b) w)) with (@nil string) in *
    by (by destruct w; cbn in *; subst).
  replace (temp_file (set_budget (Some b) w)) with (@Missing string) in *
    by (by destruct w; cbn in *; subst).
  unfold rj_plan in Hmain1, Hv1, Ht1. change (0 =? 0) with true in *. cbv iota in *.
  cbn [cut app] in Hv1, Ht1.
  (* the second run *)
  set (w1' := set_budget None (set_visited [] w1)).
  assert (cursor w1' = Some (generate_id c "RJ")
          → catalog_ok (loaded (db_file w1'))
          → ∃ w2, main api http now w1' = (Raise TypeError, w2) ∧
                  visited w2 = ids "RJ" (rj_plan c (if c <? 500000 then 0 else 1)))
    as Hsecond.
  { intros Hcur Hfile1.
    destruct (main_runs w1' c (if c <? 500000 then 0 else 1) Hecho Hfile1)
      as (w2 & Hmain2 & Hv2 & _).
    - rewrite Hcur. apply start_info_rj. lia.
    - lia.
    - destruct (c <? 500000); auto.
    - exists w2. subst w1'. destruct w1. by split. }
  assert (main_ending (ending (Some b) universe) = Raise e1) as He1.
  { unfold main_ending, ending, universe, e1.
    rewrite length_app, !length_range.
    assert (position + 1 = 870000 ↔ k = 1369999) as Hlast
      by (subst position; destruct (Z.ltb_spec k 500000); lia).
    assert (0 <= position < 870000) as Hpos
      by (subst position; destruct (Z.ltb_spec k 500000); lia).
    destruct (Z.eqb_spec k 1369999); case_decide; (done || lia). }
  fold universe in Hmain1. rewrite He1 in Hmain1.
  destruct Hcases as [[Hc1 Hk1] | [Hc1 Hk1]].
  - (* [k] in the first interval *)
    assert (position = k) as Hpos by (subst position; by replace (k <? 500000) with true by lia).
    assert (take b (range 0 500000 ++ range 1000000 1370000)
            = range 0 c ++ range c (k + 1)) as Htake.
    { rewrite take_app_le by (rewrite length_range; lia).
      rewrite take_range by lia.
      replace (0 + Z.of_nat b) with (k + 1) by lia.
      apply range_split. lia. }
    rewrite Htake in Hv1, Ht1.
    rewrite foldl_app in Ht1.
    match type of Ht1 with
    | _ = foldl _ ?t _ =>
        pose proof (foldl_checkpoint_range "RJ" t k) as Hcur; fold c in Hcur
    end.
    rewrite Hcur in Ht1. clear Hcur.
    destruct Hsecond as (w2 & Hmain2 & Hv2).
    { subst w1'.
      replace (cursor (set_budget None (set_visited [] w1))) with (cursor w1)
        by (by destruct w1).
      unfold cursor. rewrite Ht1. f_equal.
      apply strip_generated; [apply list_elem_of_here | lia]. }
    { subst w1'.
      replace (db_file (set_budget None (set_visited [] w1))) with (db_file w1)
        by (by destruct w1).
      apply Hs1. }
    replace (c <? 500000) with true in Hv2 by lia.
    exists (range 0 c), (range (k + 1) 500000 ++ range 1000000 1370000), w1, w2.
    split; [| split; [apply universe_ids_distinct |]].
    { subst universe.
      rewrite (range_split 0 c 500000), (range_split c (k + 1) 500000) by lia.
      rewrite <- (app_assoc (range 0 c)). f_equal. symmetry. apply app_assoc. }
    split; [exact Hmain1 |]. split; [exact Hv1 |]. split; [exact Ht1 |].
    split; [exact Hmain2 |].
    rewrite Hv2. unfold rj_plan. change (0 =? 0) with true. cbv iota.
    rewrite (range_split c (k + 1) 500000) by lia.
    rewrite <- (app_assoc (range c (k + 1))). reflexivity.
  - (* [k] in the second interval *)
    assert (position = 500000 + (k - 1000000)) as Hpos
      by (subst position; by replace (k <? 500000) with false by lia).
    assert (take b (range 0 500000 ++ range 1000000 1370000)
            = (range 0 500000 ++ range 1000000 c) ++ range c (k + 1)) as Htake.
    { rewrite take_app_ge by (rewrite length_range; lia).
      rewrite length_range, take_range by lia.
      replace (1000000 + Z.of_nat (b - Z.to_nat (500000 - 0))) with (k + 1) by lia.
      rewrite (range_split 1000000 c (k + 1)) by lia. apply app_assoc. }
    rewrite Htake in Hv1, Ht1.
    rewrite foldl_app in Ht1.
    match type of Ht1 with
    | _ = foldl _ ?t _ =>
        pose proof (foldl_checkpoint_range "RJ" t k) as Hcur; fold c in Hcur
    end.
    rewrite Hcur in Ht1. clear Hcur.
    destruct Hsecond as (w2 & Hmain2 & Hv2).
    { subst w1'.
      replace (cursor (set_budget None (set_visited [] w1))) with (cursor w1)
        by (by destruct w1).
      unfold cursor. rewrite Ht1. f_equal.
      apply strip_generated; [apply list_elem_of_here | lia]. }
    { subst w1'.
      replace (db_file (set_budget None (set_visited [] w1))) with (db_file w1)
        by (by destruct w1).
      apply Hs1. }
    replace (c <? 500000) with false in Hv2 by lia.
    exists (range 0 500000 ++ range 1000000 c), (range (k + 1) 1370000), w1, w2.
    split; [| split; [apply universe_ids_distinct |]].
    { subst universe.
      rewrite (range_split 1000000 c 1370000), (range_split c (k + 1) 1370000) by lia.
      apply app_assoc. }
    split; [exact Hmain1 |]. split; [exact Hv1 |]. split; [exact Ht1 |].
    split; [exact Hmain2 |].
    rewrite Hv2. unfold rj_plan. change (1 =? 0) with false. cbv iota.
    by rewrite (range_split c (k + 1) 1370000) by lia.
Qed.

#[local] Transparent range.


(** *** The acceptance filter *)

Lemma keeps_bind {A B} (m : M A) (k : A → M B) :
  keeps_database m → (∀ a, keeps_database (k a)) → keeps_database (bind m k).
Proof.
  intros Hm Hk w. unfold bind. specialize (Hm w).
  destruct (m w) as [[a | e] w1]; cbn [snd] in *; [| done].
  by rewrite Hk.
Qed.

Lemma keeps_lift {A} (o : outcome A) : keeps_database (lift o).
Proof. by intros w. Qed.

Lemma keeps_ret {A} (a : A) : keeps_database (ret a).
Proof. by intros w. Qed.

Lemma keeps_gets {A} (f : World → A) : keeps_database (gets f).
Proof. by intros w. Qed.

Lemma keeps_modify (f : World → World) :
  (∀ w, database (f w) = database w) → keeps_database (modify f).
Proof. intros Hf w. apply Hf. Qed.

Lemma keeps_tick : keeps_database tick.
Proof. intros w. unfold tick. by destruct (budget w) as [[] |]. Qed.

Lemma keeps_if {A} (c : bool) (m1 m2 : M A) :
  keeps_database m1 → keeps_database m2 → keeps_database (if c then m1 else m2).
Proof. by destruct c. Qed.

Lemma keeps_download_image url path : keeps_database (download_image http url path).
Proof.
  intros w. destruct (download_image_total url path w) as (b & w' & -> & Hs & _).
  apply Hs.
Qed.

Lemma keeps_repair_image pid : keeps_database (repair_image api http pid).
Proof.
  unfold repair_image.
  apply keeps_bind; [apply keeps_lift | intros save_path].
  apply keeps_bind; [apply keeps_gets | intros present].
  apply keeps_if; [apply keeps_ret |].
  apply keeps_bind; [apply keeps_ret | intros [work |]]; [| apply keeps_ret].
  destruct (image_of work); [| apply keeps_ret].
  apply keeps_bind; [apply keeps_download_image | intros; apply keeps_ret].
Qed.

Lemma keeps_ingest_rejected pid :
  match api pid with Some work => allowed work = false | None => True end →
  keeps_database (ingest_new api http pid).
Proof.
  intros Hrej w. unfold ingest_new, fetch_work_info, bind, ret.
  destruct (api pid) as [work |]; [| done]. by rewrite Hrej.
Qed.

(** C7.  When the provider's record for an identifier has a site
    classification outside the allow-list, the loop body for that identifier
    leaves the catalog in memory unchanged, whatever the other fields of the
    record, the catalog and the rest of the world are, and however the
    body ends. *)
Theorem disallowed_record_not_catalogued fam n work w :
  api (generate_id n fam) = Some work →
  site_id work ∉ ["maniax"; "pro"] →
  database (snd (visit api http now fam n w)) = database w.
Proof.
  intros Hapi Hsite. revert w. change (keeps_database (visit api http now fam n)).
  unfold visit.
  apply keeps_bind; [apply keeps_tick | intros _].
  apply keeps_bind; [apply keeps_modify; by intros [] | intros _].
  apply keeps_bind;
    [apply keeps_if; [apply keeps_modify; by intros [] | apply keeps_ret] | intros _].
  apply keeps_bind; [apply keeps_gets | intros db].
  apply keeps_bind; [apply keeps_lift | intros existing_entry].
  apply keeps_bind; [| intros _; apply keeps_if;
                       [apply keeps_modify; by intros [] | apply keeps_ret]].
  apply keeps_if; [apply keeps_repair_image |].
  apply keeps_ingest_rejected. rewrite Hapi. unfold allowed.
  by apply bool_decide_eq_false.
Qed.

(** C9.  The loader takes the list under ["items"] of a wrapper object, takes
    a bare array as it is, and on a file it cannot read or parse goes on
    with an empty catalog; in each case it returns normally. *)
Theorem load_database_forms w :
  (∀ fields items, db_file w = Holds (JObj fields) →
     dict_get "items" fields = Some items →
     load_database w = (Ok tt, set_database items w)) ∧
  (∀ items, db_file w = Holds (JArr items) →
     load_database w = (Ok tt, set_database (JArr items) w)) ∧
  (db_file w = Unreadable → load_database w = (Ok tt, set_database (JArr []) w)).
Proof.
  rewrite load_database_loaded. unfold loaded.
  split; [| split].
  - by intros fields items -> ->.
  - by intros items ->.
  - by intros ->.
Qed.



Lemma visit_unkilled fam n w items :
  fam ∈ ["RJ"; "VJ"] → 0 <= n <= 9999999 →
  budget w = None → database w = JArr items → Forall has_code items →
  (∀ work url, api (generate_id n fam) = Some work → allowed work = true →
     image_of work = Some url → ∃ q, image_path (product_id work) = Ok q) →
  ∃ w', visit api http now fam n w = (Ok tt, w') ∧ budget w' = None ∧
        database w' =
          JArr (items ++ if known items (generate_id n fam) then []
                         else accepted api (generate_id n fam)).
Proof.
  intros Hfam Hn Hb Hdb Hitems Hecho.
  destruct (image_path_generated n fam Hfam Hn) as [p Hp].
  destruct (visit_effect fam n w items p) as (w' & Hv & _ & _ & Hb' & Hdb' & _);
    try done; [by rewrite Hb |].
  exists w'. rewrite Hb in Hb'. by repeat split.
Qed.

(** *** A second pass over the same identifiers *)

Lemma known_app items more pid :
  known items pid = true → known (items ++ more) pid = true.
Proof.
  unfold known. induction items as [| e items IH]; [done |].
  cbn [app first_with_code]. destruct (subscript_code e) as [v |]; [| done].
  by destruct (eq_str v pid).
Qed.

Lemma known_after_accept items work :
  known (items ++ [entry_of work]) (product_id work) = true.
Proof.
  unfold known. induction items as [| e items IH]; cbn [app first_with_code].
  - cbn. by rewrite String.eqb_refl.
  - destruct (subscript_code e) as [v |]; [| done].
    by destruct (eq_str v (product_id work)).
Qed.

Lemma settled_app items more pid :
  settled api items pid → settled api (items ++ more) pid.
Proof. intros [H | H]; [left; by apply known_app | by right]. Qed.

Lemma visit_settles fam n w items :
  faithful_echo api → fam ∈ ["RJ"; "VJ"] → 0 <= n <= 9999999 →
  budget w = None → database w = JArr items → Forall has_code items →
  ∃ w' more,
    visit api http now fam n w = (Ok tt, w') ∧ budget w' = None ∧
    database w' = JArr (items ++ more) ∧ Forall has_code more ∧
    settled api (items ++ more) (generate_id n fam) ∧
    (settled api items (generate_id n fam) → more = []).
Proof.
  intros Hecho Hfam Hn Hb Hdb Hitems.
  destruct (visit_unkilled fam n w items Hfam Hn Hb Hdb Hitems)
    as (w' & Hv & Hb' & Hdb').
  { intros work url Hw Hal _. rewrite (Hecho _ _ Hw Hal).
    by apply image_path_generated. }
  set (pid := generate_id n fam) in *.
  exists w', (if known items pid then [] else accepted api pid).
  split; [done |]. split; [done |]. split; [done |].
  destruct (known items pid) eqn:Hknown.
  - split; [constructor |]. split; [| done]. left. by rewrite app_nil_r.
  - unfold settled, accepted. destruct (api pid) as [work |] eqn:Hw.
    + destruct (allowed work) eqn:Hal.
      * split; [repeat constructor; apply has_code_entry_of |].
        split; [| intros [? | ?]; congruence].
        left. rewrite <- (Hecho _ _ Hw Hal). apply known_after_accept.
      * split; [constructor |]. split; [by right | done].
    + split; [constructor |]. split; [by right | done].
Qed.

Lemma pass_settles fam ns : ∀ w items,
  faithful_echo api → fam ∈ ["RJ"; "VJ"] → (∀ n, n ∈ ns → 0 <= n <= 9999999) →
  budget w = None → database w = JArr items → Forall has_code items →
  ∃ w' more,
    for_each ns (visit api http now fam) w = (Ok tt, w') ∧ budget w' = None ∧
    database w' = JArr (items ++ more) ∧ Forall has_code more ∧
    (∀ n, n ∈ ns → settled api (items ++ more) (generate_id n fam)) ∧
    ((∀ n, n ∈ ns → settled api items (generate_id n fam)) → more = []).
Proof.
  induction ns as [| n ns IH]; intros w items Hecho Hfam Hns Hb Hdb Hitems.
  - exists w, []. rewrite app_nil_r. repeat split; try done.
    intros n Hn. by apply elem_of_nil in Hn.
  - destruct (visit_settles fam n w items Hecho Hfam) as
      (w1 & more1 & Hv1 & Hb1 & Hdb1 & Hm1 & Hs1 & Hq1); try done.
    { apply Hns, list_elem_of_here. }
    destruct (IH w1 (items ++ more1) Hecho Hfam) as
      (w2 & more2 & Hv2 & Hb2 & Hdb2 & Hm2 & Hs2 & Hq2); try done.
    { intros m Hm. by apply Hns, list_elem_of_further. }
    { by apply Forall_app. }
    exists w2, (more1 ++ more2). cbn [for_each]. unfold bind at 1.
    rewrite Hv1, Hv2, app_assoc.
    split; [done |]. split; [done |]. split; [done |].
    split; [by apply Forall_app |]. split.
    + intros m [-> | Hm]%elem_of_cons; [by apply settled_app | by apply Hs2].
    + intros Hall.
      assert (more1 = []) as -> by apply Hq1, Hall, list_elem_of_here.
      rewrite app_nil_r in Hq2. rewrite Hq2; [done |].
      intros m Hm. by apply Hall, list_elem_of_further.
Qed.

(** When accepted records carry the identifier they were asked under, a
    second pass over an interval adds nothing to the catalog of the first. *)
Lemma second_pass_adds_nothing fam s e w items :
  faithful_echo api → fam ∈ ["RJ"; "VJ"] → 0 <= s → e <= 9999999 →
  budget w = None → database w = JArr items → Forall has_code items →
  ∃ w1 w2,
    process_sequential_ids api http now s e fam w = (Ok tt, w1) ∧
    process_sequential_ids api http now s e fam w1 = (Ok tt, w2) ∧
    database w2 = database w1.
Proof.
  intros Hecho Hfam Hs He Hb Hdb Hitems. unfold process_sequential_ids.
  assert (∀ n, n ∈ range s (e + 1) → 0 <= n <= 9999999) as Hns.
  { intros n Hn. apply elem_of_range in Hn. lia. }
  destruct (pass_settles fam _ w items Hecho Hfam Hns Hb Hdb Hitems)
    as (w1 & more1 & Hv1 & Hb1 & Hdb1 & Hm1 & Hs1 & _).
  destruct (pass_settles fam _ w1 (items ++ more1) Hecho Hfam Hns Hb1 Hdb1)
    as (w2 & more2 & Hv2 & _ & Hdb2 & _ & _ & Hq2); [by apply Forall_app |].
  exists w1, w2. split; [done |]. split; [done |].
  by rewrite Hdb2, Hdb1, (Hq2 Hs1), app_nil_r.
Qed.

(** *** The scenario of the specification *)

(** C8.  The interval [0,3] of family A (the tag RJ), a provider that knows
    an allowed record for number 1 with title T1 and circle C1, a disallowed
    record for number 2 and nothing for 0 and 3: starting from the empty
    catalog, the run over the interval ends with exactly one record. *)
Theorem scenario_single_record w work1 work2 :
  database w = JArr [] → budget w = None →
  api "RJ000000" = None → api "RJ000003" = None →
  api "RJ000001" = Some work1 →
  product_id work1 = "RJ000001" → site_id work1 ∈ ["maniax"; "pro"] →
  work_name work1 = "T1" → circle work1 = Some "C1" →
  api "RJ000002" = Some work2 → site_id work2 ∉ ["maniax"; "pro"] →
  ∃ w', process_sequential_ids api http now 0 3 "RJ" w = (Ok tt, w') ∧
        database w' =
          JArr [JObj [("maker", JStr "C1"); ("code", JStr "RJ000001");
                      ("title", JStr "T1"); ("translate-title", JStr "NaN")]].
Proof.
  intros Hdb Hb H0 H3 H1 Hpid Hsite1 Hname Hcircle H2 Hsite2.
  assert ("RJ" ∈ ["RJ"; "VJ"]) as Hfam by apply list_elem_of_here.
  assert (allowed work1 = true) as Hal1 by (by apply bool_decide_eq_true).
  assert (allowed work2 = false) as Hal2 by (by apply bool_decide_eq_false).
  assert (entry_of work1 =
          JObj [("maker", JStr "C1"); ("code", JStr "RJ000001");
                ("title", JStr "T1"); ("translate-title", JStr "NaN")]) as Hentry.
  { unfold entry_of, maker_of. by rewrite Hpid, Hname, Hcircle. }
  unfold process_sequential_ids. change (range 0 (3 + 1)) with [0; 1; 2; 3].
  cbn [for_each].
  (* RJ000000: not found *)
  destruct (visit_unkilled "RJ" 0 w []) as (w0 & Hv0 & Hb0 & Hdb0); try done.
  { change (generate_id 0 "RJ") with "RJ000000". intros work url Hw. congruence. }
  change (generate_id 0 "RJ") with "RJ000000" in Hdb0.
  unfold accepted in Hdb0. rewrite H0 in Hdb0. cbn in Hdb0.
  unfold bind at 1. rewrite Hv0.
  (* RJ000001: accepted *)
  destruct (visit_unkilled "RJ" 1 w0 []) as (w1 & Hv1 & Hb1 & Hdb1); try done.
  { change (generate_id 1 "RJ") with "RJ000001". intros work url Hw _ _.
    assert (work = work1) as -> by congruence. rewrite Hpid. by eexists. }
  change (generate_id 1 "RJ") with "RJ000001" in Hdb1.
  unfold accepted in Hdb1. rewrite H1, Hal1, Hentry in Hdb1. cbn in Hdb1.
  unfold bind at 1. rewrite Hv1.
  (* RJ000002: rejected by the filter *)
  destruct (visit_unkilled "RJ" 2 w1 _ Hfam ltac:(lia) Hb1 Hdb1)
    as (w2 & Hv2 & Hb2 & Hdb2).
  { repeat constructor. by eexists _, _. }
  { change (generate_id 2 "RJ") with "RJ000002". intros work url Hw Hal.
    assert (work = work2) as -> by congruence. congruence. }
  change (generate_id 2 "RJ") with "RJ000002" in Hdb2.
  unfold accepted in Hdb2. rewrite H2, Hal2 in Hdb2. cbn in Hdb2.
  unfold bind at 1. rewrite Hv2.
  (* RJ000003: not found *)
  destruct (visit_unkilled "RJ" 3 w2 _ Hfam ltac:(lia) Hb2 Hdb2)
    as (w3 & Hv3 & Hb3 & Hdb3).
  { repeat constructor. by eexists _, _. }
  { change (generate_id 3 "RJ") with "RJ000003". intros work url Hw. congruence. }
  change (generate_id 3 "RJ") with "RJ000003" in Hdb3.
  unfold accepted in Hdb3. rewrite H3 in Hdb3. cbn in Hdb3.
  unfold bind at 1. rewrite Hv3.
  by exists w3.
Qed.

End PipelineFacts.

(** ** Concrete runs *)

Lemma fresh_run_stops_before_vj_witness :
  ∃ w', main silent_api no_http fixed_clock fresh_world = (Raise TypeError, w') ∧
        visited w' =
          visited fresh_world ++ ids "RJ" (range 0 500000 ++ range 1000000 1370000).
Proof.
  apply (fresh_run_stops_before_vj silent_api no_http fixed_clock fresh_world).
  - intros pid work url H. discriminate H.
  - reflexivity.
  - exists []. split; [reflexivity | constructor].
  - reflexivity.
Defined.

Lemma resume_revisits_from_cursor_witness :
  let universe := range 0 500000 ++ range 1000000 1370000 in
  let c := 10 * (1000005 / 10) in
  let position := if 1000005 <? 500000 then 1000005 else 500000 + (1000005 - 1000000) in
  let e1 := if 1000005 =? 1369999 then TypeError else KeyboardInterrupt in
  ∃ pre post w1 w2,
    universe = pre ++ range c (1000005 + 1) ++ post ∧
    NoDup (ids "RJ" universe) ∧
    main silent_api no_http fixed_clock
      (set_budget (Some (Z.to_nat (position + 1))) fresh_world) = (Raise e1, w1) ∧
    visited w1 = ids "RJ" (pre ++ range c (1000005 + 1)) ∧
    temp_file w1 = Holds (generate_id c "RJ") ∧
    main silent_api no_http fixed_clock (set_budget None (set_visited [] w1))
      = (Raise TypeError, w2) ∧
    visited w2 = ids "RJ" (range c (1000005 + 1) ++ post).
Proof.
  apply (resume_revisits_from_cursor silent_api no_http fixed_clock fresh_world 1000005).
  - intros pid work url H. discriminate H.
  - reflexivity.
  - exists []. split; [reflexivity | constructor].
  - reflexivity.
  - right. lia.
Defined.

(** C3, as stated, fails: stop the run after RJ000005 and restart it.  The
    cursor on disk is RJ000000, the second run starts there, and RJ000000
    is visited by both runs. *)
Lemma resume_visits_cursor_twice :
  ∃ e1 w1 w2,
    main silent_api no_http fixed_clock (set_budget (Some 6%nat) fresh_world)
      = (Raise e1, w1) ∧
    temp_file w1 = Holds "RJ000000" ∧
    main silent_api no_http fixed_clock (set_budget None (set_visited [] w1))
      = (Raise TypeError, w2) ∧
    "RJ000000" ∈ visited w1 ∧ "RJ000000" ∈ visited w2.
Proof.
  assert (echo_ok silent_api) as Hecho by (intros pid work url H; discriminate H).
  assert ("RJ000000" ∈ ids "RJ" (range 0 6)) as Hin.
  { unfold ids. apply list_elem_of_fmap. exists 0. split; [reflexivity |].
    apply elem_of_range. lia. }
  (* the run stopped after RJ000005 *)
  destruct (main_runs silent_api no_http fixed_clock
              (set_budget (Some 6%nat) fresh_world) 0 0 Hecho)
    as (w1 & Hm1 & Hv1 & Ht1 & _ & Hs1);
    [exists []; split; [reflexivity | constructor] | reflexivity | lia | by left |].
  change (budget (set_budget (Some 6%nat) fresh_world)) with (Some 6%nat) in *.
  change (visited (set_budget (Some 6%nat) fresh_world)) with (@nil string) in Hv1.
  change (temp_file (set_budget (Some 6%nat) fresh_world)) with (@Missing string) in Ht1.
  assert (cut (Some 6%nat) (rj_plan 0 0) = range (10 * (5 / 10)) (5 + 1)) as Hcut.
  { unfold cut, rj_plan. change (0 =? 0) with true. cbv iota.
    rewrite take_app_le by (rewrite length_range; lia).
    by rewrite take_range by lia. }
  rewrite Hcut in Hv1, Ht1. rewrite foldl_checkpoint_range in Ht1.
  change (generate_id (10 * (5 / 10)) "RJ") with "RJ000000" in Ht1.
  change (range (10 * (5 / 10)) (5 + 1)) with (range 0 6) in Hv1.
  assert (∃ e1, main_ending (ending (Some 6%nat) (rj_plan 0 0)) = Raise e1) as [e1 He1].
  { unfold main_ending. destruct (ending _ _) as [[] |]; by eexists. }
  rewrite He1 in Hm1.
  (* the restarted run *)
  set (w1' := set_budget None (set_visited [] w1)).
  assert (cursor w1' = Some "RJ000000") as Hcur.
  { replace (cursor w1') with (cursor w1) by (by destruct w1).
    unfold cursor. by rewrite Ht1. }
  destruct (main_runs silent_api no_http fixed_clock w1' 0 0 Hecho)
    as (w2 & Hm2 & Hv2 & _).
  { replace (db_file w1') with (db_file w1) by (by destruct w1). apply Hs1. }
  { by rewrite Hcur. }
  { lia. }
  { by left. }
  replace (budget w1') with (@None nat) in * by (by destruct w1).
  replace (visited w1') with (@nil string) in * by (by destruct w1).
  exists e1, w1, w2.
  split; [exact Hm1 |]. split; [exact Ht1 |]. split; [exact Hm2 |].
  split; [by rewrite Hv1 |].
  rewrite Hv2. unfold cut, rj_plan. change (0 =? 0) with true. cbv iota.
  rewrite (range_split 0 6 500000) by lia.
  unfold ids in *. rewrite !fmap_app, !elem_of_app. auto.
Qed.

(** C4: the code breaks the claim.  The provider answers the request for
    RJ000001 with a record whose identifier is padded to eight digits.  The
    catalog keeps the record under the echoed identifier, the duplicate
    check of the second run looks for the requested one, does not find it,
    and the record is added a second time. *)
Lemma second_run_duplicates_echoed_record :
  let run := process_sequential_ids echoing_api no_http fixed_clock 0 3 "RJ" in
  let record :=
    JObj [("maker", JStr "C1"); ("code", JStr "RJ00000001");
          ("title", JStr "T1"); ("translate-title", JStr "NaN")] in
  let first := snd (run fresh_world) in
  let second := snd (run first) in
  database first = JArr [record] ∧ database second = JArr [record; record].
Proof. vm_compute. split; reflexivity. Qed.

Lemma disallowed_record_not_catalogued_witness :
  database (snd (visit scenario_api no_http fixed_clock "RJ" 2 fresh_world))
  = database fresh_world.
Proof.
  apply (disallowed_record_not_catalogued scenario_api no_http fixed_clock "RJ" 2
           (mkWork "RJ000002" "books" "T2" (Some "C2") None None) fresh_world).
  - reflexivity.
  - apply (proj1 (bool_decide_eq_false _)). reflexivity.
Defined.

Lemma scenario_single_record_witness :
  ∃ w', process_sequential_ids scenario_api no_http fixed_clock 0 3 "RJ" fresh_world
        = (Ok tt, w') ∧
        database w' =
          JArr [JObj [("maker", JStr "C1"); ("code", JStr "RJ000001");
                      ("title", JStr "T1"); ("translate-title", JStr "NaN")]].
Proof.
  apply (scenario_single_record scenario_api no_http fixed_clock fresh_world
           (mkWork "RJ000001" "maniax" "T1" (Some "C1") None (Some "//img.example/1.jpg"))
           (mkWork "RJ000002" "books" "T2" (Some "C2") None None));
    try reflexivity.
  - apply (proj1 (bool_decide_eq_true _)). reflexivity.
  - apply (proj1 (bool_decide_eq_false _)). reflexivity.
Defined.

Lemma load_database_forms_witness :
  load_database
    (set_db_file (Holds (JObj [("updated_at", JStr "then"); ("items", JArr [JNull])]))
                 fresh_world)
  = (Ok tt, set_database (JArr [JNull])
              (set_db_file (Holds (JObj [("updated_at", JStr "then");
                                         ("items", JArr [JNull])])) fresh_world)) ∧
  load_database (set_db_file (Holds (JArr [JNull])) fresh_world)
  = (Ok tt, set_database (JArr [JNull])
              (set_db_file (Holds (JArr [JNull])) fresh_world)) ∧
  load_database (set_db_file Unreadable fresh_world)
  = (Ok tt, set_database (JArr []) (set_db_file Unreadable fresh_world)).
Proof.
  split; [| split].
  - eapply (proj1 (load_database_forms _)); reflexivity.
  - eapply (proj1 (proj2 (load_database_forms _))); reflexivity.
  - eapply (proj2 (proj2 (load_database_forms _))); reflexivity.
Defined.


(** * Further properties of the code *)

(** ** The codec beyond the round trip *)

Section CodecEdges.

Import PyStrFacts.

Lemma strip_no_space s : no_space s = true → PyStr.strip s = s.
Proof.
  intros H. unfold PyStr.strip.
  assert (PyStr.lstrip s = s) as ->.
  { destruct s as [| c r]; [done |]. cbn [no_space] in H.
    apply andb_prop in H as [Hc _]. cbn [PyStr.lstrip].
    by destruct (PyStr.is_space c). }
  induction s as [| c r IH]; [done |]. cbn [no_space] in H.
  apply andb_prop in H as [Hc Hr]. cbn [PyStr.rstrip]. rewrite (IH Hr).
  by destruct (PyStr.is_space c).
Qed.

Lemma no_space_digits s : all_digits s = true → no_space s = true.
Proof.
  induction s as [| c r IH]; [done |]. cbn [all_digits no_space].
  intros [Hc Hr]%andb_prop. rewrite (IH Hr).
  by destruct (digit_not_sign c Hc) as (-> & _).
Qed.

Lemma no_space_numeric_part n : no_space (numeric_part n) = true.
Proof.
  assert (∀ w m, 0 <= m → no_space (PyStr.format_0d w m) = true) as Hfmt.
  { intros w m Hm. apply no_space_digits.
    by destruct (format_0d_nonneg w m Hm) as (-> & _). }
  unfold numeric_part.
  destruct ((0 <=? n) && (n <=? 999999)) eqn:H1; [apply Hfmt; lia |].
  destruct ((1000000 <=? n) && (n <=? 9999999)) eqn:H2; [apply Hfmt; lia |].
  unfold PyStr.str. destruct (Z.ltb_spec n 0).
  - cbn [no_space]. change (PyStr.is_space "-") with false. cbn [negb andb].
    apply no_space_digits, (digits_numeral (- n)). lia.
  - apply no_space_digits, (digits_numeral n). lia.
Qed.

(** A generated identifier has no whitespace and is not empty. *)
Lemma strip_generate_id n fam :
  fam ∈ ["RJ"; "VJ"] →
  PyStr.strip (generate_id n fam) = generate_id n fam ∧
  PyStr.is_empty (generate_id n fam) = false.
Proof.
  intros Hfam. rewrite generate_id_form by done.
  pose proof (no_space_numeric_part n) as Hn.
  destruct (tag_cases fam Hfam) as [-> | ->]; (split; [| done]);
    apply strip_no_space; cbn [String.append no_space];
    rewrite Hn; reflexivity.
Qed.

(** The start information for a cursor that [generate_id] wrote. *)
Lemma start_info_generated n fam :
  fam ∈ ["RJ"; "VJ"] → Z.abs n < PyStr.int_limit →
  start_info (Some (generate_id n fam)) =
  Ok (n,
      (if String.eqb fam "RJ" && (1000000 <=? n) && (n <=? 1369999) then 1 else 0),
      String.eqb fam "VJ").
Proof.
  intros Hfam Hlim. unfold start_info.
  destruct (strip_generate_id n fam Hfam) as [_ ->].
  rewrite round_trip by done.
  destruct (tag_cases fam Hfam) as [-> | ->]; cbn [String.eqb Ascii.eqb Bool.eqb andb];
    [| done].
  destruct ((0 <=? n) && (n <=? 499999)) eqn:H1.
  - by replace ((1000000 <=? n) && (n <=? 1369999)) with false by lia.
  - by destruct ((1000000 <=? n) && (n <=? 1369999)).
Qed.

(** X1.  The cursor round trip: what [save_progress] writes for a generated
    identifier, of any integer of at most 4300 digits and either family,
    [load_progress] reads back unchanged, and [main] derives from it the
    number it was generated from, the VJ flag of its family, and the second
    RJ interval exactly when the number lies in it. *)
Theorem cursor_round_trip n fam w :
  fam ∈ ["RJ"; "VJ"] → Z.abs n < PyStr.int_limit →
  bind (save_progress (generate_id n fam)) (λ _, load_progress) w =
    (Ok (Some (generate_id n fam)), set_temp_file (Holds (generate_id n fam)) w) ∧
  start_info (Some (generate_id n fam)) =
    Ok (n,
        (if String.eqb fam "RJ" && (1000000 <=? n) && (n <=? 1369999) then 1 else 0),
        String.eqb fam "VJ").
Proof.
  intros Hfam Hlim. split; [| by apply start_info_generated].
  destruct (strip_generate_id n fam Hfam) as [Hstrip _].
  destruct w as [tf df fs db ck vs ds bd].
  unfold bind, save_progress, load_progress, modify, gets.
  cbn [temp_file set_temp_file]. by rewrite Hstrip.
Qed.

(** X2.  The parser does not care about padding, up to the cap of [int]:
    the digits of a number with zeros in front, after a family tag, parse
    to that number as long as zeros and digits together are at most 4300,
    so identifiers that differ only in padding denote the same pair; with
    more than 4300 the parser raises [ValueError]. *)
Theorem extract_ignores_padding n (k : nat) fam :
  fam ∈ ["RJ"; "VJ"] → 0 <= n →
  (Z.of_nat k + len (PyStr.digits n) <= PyStr.max_str_digits →
   extract_number_and_type (fam +:+ PyStr.repeat0 k (PyStr.digits n)) = Ok (n, fam)) ∧
  (PyStr.max_str_digits < Z.of_nat k + len (PyStr.digits n) →
   extract_number_and_type (fam +:+ PyStr.repeat0 k (PyStr.digits n)) = Raise ValueError).
Proof.
  intros Hfam Hn. rewrite extract_tagged by done.
  pose proof (digits_numeral n Hn) as Hnum.
  destruct (numeral_repeat0 n _ k Hn Hnum) as [Hd Hp].
  assert (len (PyStr.repeat0 k (PyStr.digits n)) = Z.of_nat k + len (PyStr.digits n))
    as Hlen by (unfold len; rewrite length_repeat0; lia).
  split; intros Hcap.
  - rewrite int_digits, Hp; [done | done | | lia].
    intros He. rewrite He in Hp. cbn in Hp.
    destruct k; cbn [PyStr.repeat0] in He; [| discriminate He].
    destruct (numeral_nonempty _ _ Hnum) as (c & r & Hc & _). congruence.
  - by destruct (int_over_cap (PyStr.repeat0 k (PyStr.digits n)) Hd ltac:(lia)) as [-> _].
Qed.

Lemma span_digits_stop ds c rest :
  all_digits ds = true → PyStr.is_digit c = false →
  PyStr.span PyStr.is_digit (ds +:+ String c rest) = (ds, String c rest).
Proof.
  intros Hd Hc. induction ds as [| d ds IH]; cbn [String.append PyStr.span].
  - by rewrite Hc.
  - cbn [all_digits] in Hd. apply andb_prop in Hd as [Hd0 Hd].
    by rewrite Hd0, (IH Hd).
Qed.

Lemma span_upper_stop prefix d rest :
  all_upper prefix = true → PyStr.is_digit d = true →
  PyStr.span PyStr.is_upper (prefix +:+ String d rest) = (prefix, String d rest).
Proof.
  intros Hp Hd. induction prefix as [| c r IH]; cbn [String.append PyStr.span].
  - destruct (PyStr.is_upper d) eqn:Hu; [| done].
    apply upper_not_digit in Hu. congruence.
  - cbn [all_upper] in Hp. apply andb_prop in Hp as [Hc Hr].
    by rewrite Hc, (IH Hr).
Qed.

(** X3.  [re.match] anchors only at the start: whatever follows the digits
    (a suffix, a file extension) does not change the shard key. *)
Theorem get_base_folder_ignores_suffix prefix ds c rest :
  all_upper prefix = true → all_digits ds = true → ds ≠ "" →
  PyStr.is_digit c = false →
  get_base_folder (prefix +:+ ds +:+ String c rest) = get_base_folder (prefix +:+ ds).
Proof.
  intros Hp Hd Hne Hc. destruct ds as [| d ds]; [done |].
  pose proof Hd as [Hd0 Hds]%andb_prop.
  unfold get_base_folder.
  rewrite (span_upper_then_digits prefix (String d ds)) by done.
  cbn [String.append]. rewrite span_upper_stop by done.
  change (String d (ds +:+ String c rest)) with (String d ds +:+ String c rest).
  rewrite span_digits_stop by done.
  by rewrite span_digits_all by done.
Qed.

Lemma format_0d_own_width w n :
  0 <= n →
  PyStr.format_0d (String.length (PyStr.format_0d w n)) n = PyStr.format_0d w n.
Proof.
  intros Hn. destruct (format_0d_nonneg w n Hn) as (_ & _ & _ & ->).
  unfold PyStr.format_0d, PyStr.str. replace (n <? 0) with false by lia.
  pose proof (digits_numeral n Hn) as H.
  rewrite !(zfill_numeral _ _ _ H). f_equal. lia.
Qed.

(** X4.  A shard key is its own shard: for a tag and at most fourteen
    digits, [get_base_folder] applied to the key it returned gives that key
    again. *)
Theorem shard_key_fixed_point prefix ds :
  all_upper prefix = true → prefix ≠ "" →
  all_digits ds = true → ds ≠ "" → (String.length ds <= 14)%nat →
  ∃ key, get_base_folder (prefix +:+ ds) = Ok (Some key) ∧
         get_base_folder key = Ok (Some key).
Proof.
  intros Hp Hpne Hd Hdne Hlen.
  destruct (get_base_folder_tagged prefix ds Hp Hpne Hd Hdne ltac:(lia))
    as (n & Hn & Hb & Hg).
  pose proof (round_up_1000_spec n) as [Hr1 Hr2].
  set (r := round_up_1000 n) in *.
  assert (n < 10 ^ 14) as Hsmall.
  { assert (10 ^ len ds <= 10 ^ 14) by (apply Z.pow_le_mono_r; unfold len; lia). lia. }
  assert (0 <= r < 10 ^ 15) as Hr by lia.
  set (ds' := PyStr.format_0d (String.length ds) r) in *.
  destruct (format_0d_nonneg (String.length ds) r ltac:(lia)) as (Hd' & Hne' & Hp' & Hl').
  fold ds' in Hd', Hne', Hp', Hl'.
  assert (String.length ds' <= 15)%nat as Hlen'.
  { rewrite Hl'.
    pose proof (numeral_width r _ 15 (digits_numeral r ltac:(lia)) ltac:(lia) ltac:(lia)).
    lia. }
  destruct (get_base_folder_tagged prefix ds' Hp Hpne Hd' Hne' Hlen')
    as (n' & Hn' & _ & Hg').
  assert (n' = r) as -> by congruence.
  assert (round_up_1000 r = r) as Hfix.
  { unfold round_up_1000. Z.div_mod_to_equations; lia. }
  exists (prefix +:+ ds'). split; [exact Hg |].
  rewrite Hg', Hfix. subst ds'. by rewrite format_0d_own_width by lia.
Qed.

End CodecEdges.

(** X5.  [fix_image_url] only ever adds the scheme: a url that starts with
    two slashes gets [https:] in front, every other url is returned as it
    is, and the result never starts with two slashes, so fixing twice is
    fixing once. *)
Theorem fix_image_url_once url :
  fix_image_url url = (if PyStr.startswith "//" url then "https:" +:+ url else url) ∧
  PyStr.startswith "//" (fix_image_url url) = false ∧
  fix_image_url (fix_image_url url) = fix_image_url url.
Proof.
  assert (fix_image_url url = if PyStr.startswith "//" url then "https:" +:+ url else url)
    as Hform.
  { unfold fix_image_url. by destruct url. }
  assert (PyStr.startswith "//" (fix_image_url url) = false) as Hnot.
  { rewrite Hform. by destruct (PyStr.startswith "//" url) eqn:E. }
  split; [done |]. split; [done |].
  unfold fix_image_url at 1. rewrite Hnot. by rewrite andb_false_r.
Qed.


(** ** The layout of the image files *)

Section Layout.

Import PyStrFacts.

Lemma endswith_char_append c a b :
  b ≠ "" → PyStr.endswith_char c (a +:+ b) = PyStr.endswith_char c b.
Proof.
  intros Hb. induction a as [| x a IH]; [done |].
  cbn [String.append PyStr.endswith_char]. rewrite IH.
  destruct (a +:+ b) eqn:E; [| done].
  destruct a; [cbn in E; congruence | discriminate E].
Qed.

Lemma endswith_slash_digits ds :
  all_digits ds = true → PyStr.endswith_char "/" ds = false.
Proof.
  induction ds as [| d ds IH]; [done |]. cbn [all_digits].
  intros [Hd Hds]%andb_prop. cbn [PyStr.endswith_char]. rewrite (IH Hds).
  destruct ds; [| done].
  destruct d as [[] [] [] [] [] [] [] []]; vm_compute in Hd; try discriminate Hd;
    reflexivity.
Qed.

(** Joining a path that ends in a digit with a component that does not start
    with a slash puts one slash between them. *)
Lemma join2_after_digits a ds b :
  all_digits ds = true → ds ≠ "" → PyStr.startswith "/" b = false →
  join2 (a +:+ ds) b = (a +:+ ds) +:+ "/" +:+ b.
Proof.
  intros Hd Hne Hb. unfold join2. rewrite Hb.
  rewrite endswith_char_append, endswith_slash_digits by done.
  destruct (a +:+ ds) eqn:E; [| done].
  destruct a, ds; cbn in E; congruence.
Qed.

(** X6.  The layout of the image files: for an identifier of the supported
    domain the path is [DLsite_DB/<shard key>/<identifier>/<identifier>_img_main.jpg],
    with the shard key [get_base_folder] gives for that identifier. *)
Theorem image_path_layout n fam :
  fam ∈ ["RJ"; "VJ"] → 0 <= n <= 9999999 →
  ∃ key, get_base_folder (generate_id n fam) = Ok (Some key) ∧
         image_path (generate_id n fam) =
         Ok ("DLsite_DB/" +:+ key +:+ "/" +:+ generate_id n fam +:+ "/" +:+
             generate_id n fam +:+ "_img_main.jpg").
Proof.
  intros Hfam Hn.
  destruct (generate_id_padded n fam Hfam Hn) as [Hid Hlen].
  set (width := if n <? 1000000 then 6%nat else 8%nat) in *.
  destruct (format_0d_nonneg width n ltac:(lia)) as (Hd & Hne & _ & _).
  assert (all_upper fam = true ∧ fam ≠ "" ∧ ∀ x, PyStr.startswith "/" (fam +:+ x) = false)
    as (Hup & Hfne & Hslash)
    by (destruct (tag_cases fam Hfam) as [-> | ->]; done).
  destruct (get_base_folder_tagged fam (PyStr.format_0d width n) Hup Hfne Hd Hne)
    as (v & _ & Hv & Hg).
  { rewrite Hlen. unfold width. destruct (n <? 1000000); lia. }
  set (key_digits := PyStr.format_0d (String.length (PyStr.format_0d width n))
                                    (round_up_1000 v)) in *.
  pose proof (round_up_1000_spec v) as [Hr _].
  destruct (format_0d_nonneg (String.length (PyStr.format_0d width n)) (round_up_1000 v)
              ltac:(lia)) as (Hkd & Hkne & _ & _).
  fold key_digits in Hkd, Hkne.
  exists (fam +:+ key_digits). rewrite Hid. split; [exact Hg |].
  unfold image_path. rewrite Hg. unfold path_join. cbn [fold_left].
  set (id := fam +:+ PyStr.format_0d width n).
  assert (join2 "DLsite_DB" (fam +:+ key_digits) = ("DLsite_DB/" +:+ fam) +:+ key_digits)
    as ->.
  { unfold join2. rewrite Hslash. by rewrite append_assoc. }
  rewrite (join2_after_digits _ key_digits id) by (done || apply Hslash).
  replace ((("DLsite_DB/" +:+ fam) +:+ key_digits) +:+ "/" +:+ id)
    with (((("DLsite_DB/" +:+ fam) +:+ key_digits) +:+ "/" +:+ fam)
            +:+ PyStr.format_0d width n)
    by (subst id; rewrite ?append_assoc; reflexivity).
  rewrite (join2_after_digits _ (PyStr.format_0d width n)); try done.
  - f_equal. subst id. rewrite ?append_assoc. reflexivity.
  - subst id. rewrite append_assoc. apply Hslash.
Qed.

End Layout.


(** ** The pipeline: contracts and invariants *)

Section PipelineContracts.

Context (api : string → option Work) (http : string → bool) (now : nat → string).

(** X7.  [download_image] never raises and touches nothing but the image
    files and the log of requests.  When it answers [True] the file is
    there; when the file was there already nothing at all changes; no file
    is ever removed; and a request it sends never goes to a url that
    starts with two slashes. *)
Theorem download_image_contract url path w :
  ∃ b w', download_image http url path w = (Ok b, w') ∧
    same_but_assets w w' ∧
    (b = true → path ∈ assets w') ∧
    (path ∈ assets w → w' = w) ∧
    (∀ p, p ∈ assets w → p ∈ assets w') ∧
    (∀ u, u ∈ downloads w' → u ∈ downloads w ∨ PyStr.startswith "//" u = false).
Proof.
  assert (PyStr.startswith "//" (fix_image_url url) = false) as Hfix.
  { unfold fix_image_url. destruct url as [| c r]; [done |].
    cbn [PyStr.is_empty negb andb].
    by destruct (PyStr.startswith "//" (String c r)) eqn:E. }
  unfold download_image. destruct w as [tf df fs db ck vs ds bd].
  destruct (PyStr.is_empty url); run.
  { eexists _, _. split; [done |]. repeat split; auto; done. }
  case_bool_decide as Hin.
  { eexists _, _. split; [done |]. repeat split; auto. }
  destruct (http (fix_image_url url)); eexists _, _; (split; [done |]); cbn.
  - repeat split; try done.
    + intros _. apply list_elem_of_here.
    + intros p Hp. by apply list_elem_of_further.
    + intros u [Hu | ->%list_elem_of_singleton]%elem_of_app; auto.
  - repeat split; try done.
    intros u [Hu | ->%list_elem_of_singleton]%elem_of_app; auto.
Qed.

(** *** The catalog only grows *)

Lemma grows_of_keeps {A} (m : M A) : keeps_database m → grows_database api m.
Proof.
  intros Hm w items Hdb. exists []. rewrite Hm, app_nil_r. by split.
Qed.

Lemma grows_bind {A B} (m : M A) (k : A → M B) :
  grows_database api m → (∀ a, grows_database api (k a)) →
  grows_database api (bind m k).
Proof.
  intros Hm Hk w items Hdb. unfold bind.
  destruct (Hm w items Hdb) as (more1 & Hdb1 & Hf1).
  destruct (m w) as [[a | e] w1]; cbn [snd] in *; [| by exists more1].
  destruct (Hk a w1 _ Hdb1) as (more2 & Hdb2 & Hf2).
  exists (more1 ++ more2). rewrite app_assoc. split; [done | by apply Forall_app].
Qed.

Lemma grows_ingest_new pid : grows_database api (ingest_new api http pid).
Proof.
  intros w items Hdb. unfold ingest_new, fetch_work_info.
  unfold bind at 1. unfold ret at 1.
  destruct (api pid) as [work |] eqn:Hw;
    [| exists []; rewrite app_nil_r; by split].
  destruct (allowed work) eqn:Hal;
    [| exists []; rewrite app_nil_r; by split].
  revert w items Hdb. apply grows_bind.
  - apply grows_of_keeps. destruct (image_of work); [| apply keeps_ret].
    apply keeps_bind; [apply keeps_lift | intros save_path].
    apply keeps_bind; [apply keeps_download_image | intros; apply keeps_ret].
  - intros _ [tf df fs db ck vs ds bd] items Hdb. cbn in Hdb. subst db.
    exists [entry_of work]. split; [reflexivity |].
    repeat constructor. by exists pid, work.
Qed.

Lemma grows_visit fam n : grows_database api (visit api http now fam n).
Proof.
  unfold visit.
  apply grows_bind; [apply grows_of_keeps, keeps_tick | intros _].
  apply grows_bind; [apply grows_of_keeps, keeps_modify; by intros [] | intros _].
  apply grows_bind.
  { apply grows_of_keeps, keeps_if; [apply keeps_modify; by intros [] | apply keeps_ret]. }
  intros _.
  apply grows_bind; [apply grows_of_keeps, keeps_gets | intros db].
  apply grows_bind; [apply grows_of_keeps, keeps_lift | intros existing_entry].
  apply grows_bind.
  - destruct (match existing_entry with Some entry => truthy entry | None => false end).
    + apply grows_of_keeps, keeps_repair_image.
    + apply grows_ingest_new.
  - intros _. apply grows_of_keeps, keeps_if;
      [apply keeps_modify; by intros [] | apply keeps_ret].
Qed.

Lemma grows_for_each {A} (l : list A) (body : A → M unit) :
  (∀ x, grows_database api (body x)) → grows_database api (for_each l body).
Proof.
  intros Hbody. induction l as [| x l IH]; cbn [for_each].
  - apply grows_of_keeps, keeps_ret.
  - apply grows_bind; [apply Hbody | intros _; apply IH].
Qed.

(** X8.  The catalog is append-only.  Over any interval and in any world
    whose catalog is a list, [process_sequential_ids] leaves every record
    there was where it was and may only add, at the end, entries built from
    records the provider returned with an allowed site classification;
    this holds also when the pass is cut short by an exception. *)
Theorem catalog_only_grows fam s e w items :
  database w = JArr items →
  ∃ more,
    database (snd (process_sequential_ids api http now s e fam w)) = JArr (items ++ more) ∧
    Forall (catalogued_by api) more.
Proof.
  intros Hdb. unfold process_sequential_ids.
  by apply (grows_for_each _ _ (grows_visit fam)).
Qed.

(** X9.  What [flush] writes, [load_database] reads back: a world that finds
    on disk the file a flush left (the same run or a restarted one) loads
    exactly the catalog that was in memory at the flush, whatever that
    catalog was, and loads it without raising. *)
Theorem flush_load_round_trip w w2 :
  db_file w2 = db_file (snd (flush now w)) →
  load_database w2 = (Ok tt, set_database (database w) w2).
Proof.
  intros Hfile. rewrite load_database_loaded, Hfile.
  by destruct w.
Qed.




(** *** Passes and batches *)

(** The cursor a pass over [[s, e]] leaves: the last multiple of ten of the
    interval, if it has one. *)
Lemma foldl_checkpoint_interval fam t s e :
  foldl (checkpoint fam) t (range s (e + 1)) =
  if s <=? 10 * (e / 10) then Holds (generate_id (10 * (e / 10)) fam) else t.
Proof using Type.
  clear api http now.
  pose proof (foldl_checkpoint_range fam) as Hlast.
  set (c := 10 * (e / 10)) in *.
  assert (c <= e < c + 10 ∧ c mod 10 = 0) as [Hc Hm]
    by (subst c; Z.div_mod_to_equations; lia).
  destruct (Z.leb_spec s c) as [Hle | Hgt].
  - rewrite (range_split s c (e + 1)) by lia. rewrite foldl_app. apply Hlast.
  - apply foldl_checkpoint_quiet. intros n Hn%elem_of_range.
    Z.div_mod_to_equations; lia.
Qed.

(** X12.  An uninterrupted pass over an interval of the supported domain, in
    a world whose catalogs are readable: [process_sequential_ids] returns
    normally, has started the loop body once for every number from
    [start_number] to [end_number] in increasing order and for no other,
    and leaves as cursor the last multiple of ten of the interval (the
    cursor it found, if the interval has none). *)
Theorem process_sequential_ids_pass fam s e w :
  echo_ok api → fam ∈ ["RJ"; "VJ"] → 0 <= s → e <= 9999999 →
  steady w → budget w = None →
  ∃ w', process_sequential_ids api http now s e fam w = (Ok tt, w') ∧
        visited w' = visited w ++ ids fam (range s (e + 1)) ∧
        temp_file w' =
          (if s <=? 10 * (e / 10) then Holds (generate_id (10 * (e / 10)) fam)
           else temp_file w) ∧
        steady w'.
Proof.
  intros Hecho Hfam Hs He Hw Hb.
  destruct (visits_process_sequential_ids api http now fam s e Hecho Hfam Hs He w Hw)
    as (w' & Hrun & Hv & Ht & _ & Hs').
  rewrite Hb in Hrun, Hv, Ht. cbn [ending cut] in *.
  exists w'. rewrite <- foldl_checkpoint_interval.
  split; [exact Hrun |]. split; [exact Hv |]. split; [exact Ht | exact Hs'].
Qed.

Lemma batches_end_on_disk fam e (l : list Z) : ∀ w,
  echo_ok api → fam ∈ ["RJ"; "VJ"] → (∀ bs, bs ∈ l → 0 <= bs) → e <= 9999999 →
  steady w → budget w = None → (l = [] → on_disk w) →
  ∃ w', for_each l (λ batch_start,
          let batch_end := Z.min (batch_start + batch_size - 1) e in
          process_sequential_ids api http now batch_start batch_end fam ;;;
          flush now)%py w = (Ok tt, w') ∧
        steady w' ∧ budget w' = None ∧ on_disk w'.
Proof.
  intros w Hecho Hfam. revert w.
  induction l as [| bs l IH]; intros w Hl He Hw Hb Hdisk.
  - exists w. split; [done |]. split; [done |]. split; [done | by apply Hdisk].
  - cbn [for_each].
    destruct (visits_process_sequential_ids api http now fam bs
                (Z.min (bs + batch_size - 1) e) Hecho Hfam) with (w := w)
      as (w1 & Hrun & _ & _ & Hb1 & Hs1); try done.
    { apply Hl, list_elem_of_here. }
    { lia. }
    rewrite Hb in Hrun, Hb1. cbn [ending spend fmap option_fmap option_map] in *.
    set (w2 := snd (flush now w1)).
    assert (steady w2 ∧ budget w2 = None ∧ on_disk w2) as (Hs2 & Hb2 & Hd2).
    { subst w2. destruct w1 as [tf df fs db ck vs ds bd], Hs1 as [Hdb _].
      cbn in Hb1. subst bd. split; [by split |]. split; [done | by eexists]. }
    destruct (IH w2) as (w' & Hrest & Hfinal); try done.
    { intros b Hbl. by apply Hl, list_elem_of_further. }
    exists w'. split; [| done].
    unfold bind at 1. unfold bind at 1. rewrite Hrun.
    change (flush now w1) with (Ok tt, w2). exact Hrest.
Qed.

(** X13.  Nothing is left in memory only when the batches of an interval are
    done: [process_batches] over a non-empty interval of the supported
    domain returns with the catalog file holding exactly the catalog in
    memory. *)
Theorem process_batches_ends_on_disk fam a e w :
  echo_ok api → fam ∈ ["RJ"; "VJ"] → 0 <= a <= e → e <= 9999999 →
  steady w → budget w = None →
  ∃ w' ts, process_batches api http now a e fam w = (Ok tt, w') ∧
           db_file w' = Holds (snapshot ts (database w')).
Proof.
  intros Hecho Hfam Ha He Hw Hb. unfold process_batches.
  destruct (batches_end_on_disk fam e (range3 a (e + 1) batch_size) w)
    as (w' & Hrun & _ & _ & ts & Hts); try done.
  - intros bs Hbs. unfold range3 in Hbs.
    apply list_elem_of_fmap in Hbs as (i & -> & Hi).
    apply elem_of_seqZ in Hi. unfold batch_size. lia.
  - unfold batch_size. rewrite range3_unfold.
    replace (a <? e + 1) with true by lia. discriminate.
  - by exists w', ts.
Qed.

End PipelineContracts.


(** ** Startup and the end of [main] *)

Section Startup.

Context (api : string → option Work) (http : string → bool) (now : nat → string).

Import PyStrFacts.

(** *** The cursor [main] finds *)

Lemma cursor_generated w n fam :
  fam ∈ ["RJ"; "VJ"] → temp_file w = Holds (generate_id n fam) →
  cursor w = Some (generate_id n fam).
Proof.
  intros Hfam Ht. unfold cursor. rewrite Ht.
  by destruct (strip_generate_id n fam Hfam) as [-> _].
Qed.

Lemma start_info_unknown c :
  PyStr.take 2 c ∉ ["RJ"; "VJ"] → start_info (Some c) = Ok (0, 0, false).
Proof.
  intros Htag. unfold start_info. destruct (PyStr.is_empty c); [done |].
  unfold extract_number_and_type. by rewrite bool_decide_eq_false_2.
Qed.

#[local] Opaque range.

(** X14.  A run that finds the cursor of an RJ number up to the last one of
    the universe starts at that number: it goes through what is left of
    the first interval and through the second interval from the cursor or
    from its start, whichever is later, and visits nothing below
    the cursor.  It then stops with the [TypeError] of the VJ part, and the
    cursor it leaves is RJ01369990. *)
Theorem main_resumes_at_cursor w s :
  echo_ok api → catalog_ok (loaded (db_file w)) → budget w = None →
  temp_file w = Holds (generate_id s "RJ") → 0 <= s <= 1369999 →
  ∃ w', main api http now w = (Raise TypeError, w') ∧
        visited w' =
          visited w ++ ids "RJ" (range s 500000 ++ range (Z.max s 1000000) 1370000) ∧
        temp_file w' = (if s <=? 1369990 then Holds "RJ01369990" else temp_file w).
Proof.
  intros Hecho Hfile Hb Ht Hs.
  assert ("RJ" ∈ ["RJ"; "VJ"]) as Hfam by apply list_elem_of_here.
  pose proof (cursor_generated w s "RJ" Hfam Ht) as Hc.
  pose proof (start_info_generated s "RJ" Hfam (domain_within s ltac:(lia))) as Hstart.
  rewrite <- Hc in Hstart. cbn [String.eqb Ascii.eqb Bool.eqb andb] in Hstart.
  pose proof (foldl_checkpoint_interval "RJ") as Hlast.
  destruct (Z.le_gt_cases 1000000 s) as [Hhigh | Hlow].
  - replace ((1000000 <=? s) && (s <=? 1369999)) with true in Hstart by lia.
    destruct (main_runs api http now w s 1 Hecho Hfile Hstart) as (w' & Hmain & Hv & Hcur & _);
      [lia | by right |].
    rewrite Hb in Hmain, Hv, Hcur. cbn [main_ending ending cut] in *.
    unfold rj_plan in Hv, Hcur. change (1 =? 0) with false in *. cbv iota in Hv, Hcur.
    exists w'. split; [exact Hmain |]. split.
    + rewrite (range_nil s 500000) by lia. rewrite Z.max_l by lia. exact Hv.
    + rewrite Hcur. change 1370000 with (1369999 + 1). rewrite Hlast.
      change (10 * (1369999 / 10)) with 1369990. reflexivity.
  - replace ((1000000 <=? s) && (s <=? 1369999)) with false in Hstart by lia.
    destruct (main_runs api http now w s 0 Hecho Hfile Hstart) as (w' & Hmain & Hv & Hcur & _);
      [lia | by left |].
    rewrite Hb in Hmain, Hv, Hcur. cbn [main_ending ending cut] in *.
    unfold rj_plan in Hv, Hcur. change (0 =? 0) with true in *. cbv iota in Hv, Hcur.
    exists w'. split; [exact Hmain |]. split.
    + rewrite Z.max_r by lia. exact Hv.
    + rewrite Hcur, foldl_app. change 1370000 with (1369999 + 1). rewrite Hlast.
      change (10 * (1369999 / 10)) with 1369990.
      replace (s <=? 1369990) with true by lia. reflexivity.
Qed.

(** X15.  A cursor with an RJ number beyond the last one of the universe
    (and of at most 4300 digits, so that [main] can read it) does not end
    the RJ part: the run finds nothing left in the first interval and goes
    through the whole second interval again. *)
Theorem main_replays_second_interval w s :
  echo_ok api → catalog_ok (loaded (db_file w)) → budget w = None →
  temp_file w = Holds (generate_id s "RJ") → 1370000 <= s < PyStr.int_limit →
  ∃ w', main api http now w = (Raise TypeError, w') ∧
        visited w' = visited w ++ ids "RJ" (range 1000000 1370000).
Proof.
  intros Hecho Hfile Hb Ht Hs.
  assert ("RJ" ∈ ["RJ"; "VJ"]) as Hfam by apply list_elem_of_here.
  pose proof (cursor_generated w s "RJ" Hfam Ht) as Hc.
  pose proof (start_info_generated s "RJ" Hfam ltac:(lia)) as Hstart.
  rewrite <- Hc in Hstart. cbn [String.eqb Ascii.eqb Bool.eqb andb] in Hstart.
  replace ((1000000 <=? s) && (s <=? 1369999)) with false in Hstart by lia.
  destruct (main_runs api http now w s 0 Hecho Hfile Hstart) as (w' & Hmain & Hv & _);
    [lia | by left |].
  rewrite Hb in Hmain, Hv. cbn [main_ending ending cut] in *.
  unfold rj_plan in Hv. change (0 =? 0) with true in *. cbv iota in Hv.
  rewrite (range_nil s 500000) in Hv by lia.
  exists w'. split; [exact Hmain | exact Hv].
Qed.

#[local] Transparent range.

Lemma main_stops_at_start w e :
  start_info (cursor w) = Raise e →
  main api http now w = (Raise e, set_database (loaded (db_file w)) w).
Proof.
  intros Hstart. unfold main. unfold bind at 1.
  change (load_progress w) with (Ok (cursor w), w). cbv beta iota.
  unfold bind at 1. rewrite load_database_loaded.
  unfold bind at 1, lift at 1. by rewrite Hstart.
Qed.

(** X16.  A run that finds a VJ cursor (of a number of at most 4300
    digits, so that [main] can read it) does no work at all: it loads the
    catalog, skips the RJ part and stops with the [TypeError] of the VJ
    part before the first identifier. *)
Theorem main_stops_on_vj_cursor w s :
  temp_file w = Holds (generate_id s "VJ") → Z.abs s < PyStr.int_limit →
  main api http now w = (Raise TypeError, set_database (loaded (db_file w)) w).
Proof.
  intros Ht Hlim.
  assert ("VJ" ∈ ["RJ"; "VJ"]) as Hfam by (apply list_elem_of_further, list_elem_of_here).
  pose proof (cursor_generated w s "VJ" Hfam Ht) as Hc.
  pose proof (start_info_generated s "VJ" Hfam Hlim) as Hstart.
  rewrite <- Hc in Hstart. cbn [String.eqb Ascii.eqb Bool.eqb andb] in Hstart.
  unfold main. unfold bind at 1.
  change (load_progress w) with (Ok (cursor w), w). cbv beta iota.
  unfold bind at 1. rewrite load_database_loaded.
  unfold bind at 1, lift at 1. rewrite Hstart. cbv beta iota. cbn [negb].
  unfold bind at 1. unfold ret at 1. unfold bind at 1.
  by rewrite process_vj_raises.
Qed.

(** *** Text that is no integer literal *)

Lemma int_space_not_foreign c : PyStr.is_int_space c = true → foreign c = false.
Proof.
  intros H. unfold foreign. rewrite (int_space_is_space c H).
  by rewrite orb_true_r.
Qed.

Lemma has_foreign_lstrip_int s : has_foreign (PyStr.lstrip_int s) = has_foreign s.
Proof.
  induction s as [| c r IH]; [done |]. cbn [PyStr.lstrip_int].
  destruct (PyStr.is_int_space c) eqn:Hc; [| done].
  rewrite IH. cbn [has_foreign]. by rewrite (int_space_not_foreign c Hc).
Qed.

Lemma has_foreign_rstrip_int s : has_foreign (PyStr.rstrip_int s) = has_foreign s.
Proof.
  induction s as [| c r IH]; [done |]. cbn [PyStr.rstrip_int has_foreign].
  destruct (PyStr.is_int_space c && PyStr.is_empty (PyStr.rstrip_int r)) eqn:Hc.
  - apply andb_prop in Hc as [Hc Hr]. rewrite <- IH.
    destruct (PyStr.rstrip_int r); [| done].
    by rewrite (int_space_not_foreign c Hc).
  - cbn [has_foreign]. by rewrite IH.
Qed.

Lemma ungroup_foreign s : ∀ b, has_foreign s = true → PyStr.ungroup b s = None.
Proof.
  induction s as [| c r IH]; intros b H; [done |]. cbn [has_foreign] in H.
  cbn [PyStr.ungroup]. unfold foreign in H.
  destruct (PyStr.is_digit c); [cbn [orb negb] in H; by rewrite IH |].
  destruct (Ascii.eqb c "_"); [| done].
  rewrite orb_true_r in H. cbn [orb negb] in H. destruct b; [by apply IH | done].
Qed.

Lemma int_foreign s : has_foreign s = true → PyStr.int s = None.
Proof.
  intros H. unfold PyStr.int.
  assert (has_foreign (PyStr.strip_int s) = true) as Ht
    by (unfold PyStr.strip_int; by rewrite has_foreign_rstrip_int, has_foreign_lstrip_int).
  set (p := match PyStr.strip_int s with
            | String "-" r => (true, r)
            | String "+" r => (false, r)
            | _ => (false, PyStr.strip_int s)
            end).
  assert (has_foreign (snd p) = true) as Hp.
  { subst p. destruct (PyStr.strip_int s) as [| c r]; [done |].
    destruct c as [[] [] [] [] [] [] [] []]; exact Ht. }
  destruct p as [neg body]. cbn [snd] in Hp. by rewrite ungroup_foreign.
Qed.

(** X17.  A cursor file with a family tag followed by nothing, or by text
    with a character no integer literal holds, stops every run at startup:
    [main] raises [ValueError] after loading the catalog, before the first
    identifier. *)
Theorem main_rejects_corrupt_cursor w tag rest :
  cursor w = Some (tag +:+ rest) → tag ∈ ["RJ"; "VJ"] →
  rest = "" ∨ has_foreign rest = true →
  main api http now w = (Raise ValueError, set_database (loaded (db_file w)) w).
Proof.
  intros Hc Htag Hrest. apply main_stops_at_start. rewrite Hc.
  assert (PyStr.int rest = None) as Hint
    by (destruct Hrest as [-> | H]; [reflexivity | by apply int_foreign]).
  unfold start_info, extract_number_and_type.
  destruct (tag_cases tag Htag) as [-> | ->]; cbn [String.append PyStr.is_empty];
    cbn [PyStr.take PyStr.drop]; by rewrite Hint.
Qed.

(** X18.  A cursor file that cannot be read, or whose text does not start
    with a family tag (an empty file, a lower-case tag, anything else), is
    taken for no cursor: the run starts over from the first identifier of
    the universe. *)
Theorem main_restarts_on_unknown_cursor w :
  echo_ok api → catalog_ok (loaded (db_file w)) → budget w = None →
  (∀ c, cursor w = Some c → PyStr.take 2 c ∉ ["RJ"; "VJ"]) →
  ∃ w', main api http now w = (Raise TypeError, w') ∧
        visited w' = visited w ++ ids "RJ" (range 0 500000 ++ range 1000000 1370000).
Proof.
  intros Hecho Hfile Hb Htag.
  destruct (main_runs api http now w 0 0 Hecho Hfile) as (w' & Hmain & Hv & _);
    [| lia | by left |].
  { destruct (cursor w) as [c |]; [by apply start_info_unknown, Htag | reflexivity]. }
  rewrite Hb in Hmain, Hv. exists w'. split; [exact Hmain | exact Hv].
Qed.

(** *** A catalog file that is no list of objects *)

Lemma find_existing_not_entries d pid :
  not_entries d = true → find_existing d pid = Raise TypeError.
Proof.
  destruct d as [| b | n | t | items | fields]; try reflexivity.
  - by destruct t.
  - destruct items as [| x rest]; [done |]. by destruct x.
  - destruct fields as [| [k v] rest]; [done | reflexivity].
Qed.

Lemma visit_unreadable fam n w e :
  budget w = None → find_existing (database w) (generate_id n fam) = Raise e →
  visit api http now fam n w =
  (Raise e, set_temp_file (checkpoint fam (temp_file w) n)
              (set_visited (visited w ++ [generate_id n fam]) w)).
Proof.
  intros Hb Hfind. unfold visit, checkpoint.
  destruct w as [tf df fs db ck vs ds bd]. cbn in Hb, Hfind. subst bd.
  destruct (n mod 10 =? 0); run; by rewrite Hfind.
Qed.

(** X19.  The loader takes any JSON value for the catalog, the loop does
    not: when the file holds a value that is not iterable, or whose first
    element is not an object, a run without a cursor stops with a
    [TypeError] at the duplicate check of the first identifier, after
    writing the cursor for it, and fetches nothing. *)
Theorem main_stops_on_unreadable_catalog w :
  temp_file w = Missing → budget w = None →
  not_entries (loaded (db_file w)) = true →
  main api http now w =
  (Raise TypeError,
   set_temp_file (Holds "RJ000000")
     (set_visited (visited w ++ ["RJ000000"])
        (set_database (loaded (db_file w)) w))).
Proof.
  intros Ht Hb Hdb. unfold main. unfold bind at 1.
  change (load_progress w) with (Ok (cursor w), w). cbv beta iota.
  unfold bind at 1. rewrite load_database_loaded.
  unfold bind at 1, lift at 1. unfold cursor. rewrite Ht.
  cbn [start_info]. cbv beta iota. cbn [negb].
  set (w0 := set_database (loaded (db_file w)) w).
  assert (process_rj api http now 0 0 w0 =
          (Raise TypeError,
           set_temp_file (Holds "RJ000000") (set_visited (visited w ++ ["RJ000000"]) w0)))
    as Hrj.
  { assert (process_rj api http now 0 0 =
            (process_batches api http now 0 499999 "RJ" ;;;
             process_batches api http now 1000000 1369999 "RJ" ;;; ret tt)%py)
      as -> by reflexivity.
    unfold bind at 1. unfold process_batches at 1. unfold batch_size.
    rewrite range3_unfold. change (0 <? 499999 + 1) with true. cbv iota.
    cbn [for_each]. unfold bind at 1. unfold bind at 1.
    change (Z.min (0 + 1000 - 1) 499999) with 999.
    unfold process_sequential_ids. unfold range.
    rewrite seqZ_cons by lia. cbn [for_each]. unfold bind at 1.
    rewrite (visit_unreadable "RJ" 0 w0 TypeError).
    - subst w0. by destruct w.
    - subst w0. by destruct w.
    - apply find_existing_not_entries. subst w0. by destruct w. }
  unfold bind at 1. by rewrite Hrj.
Qed.


(** *** The end of [main] *)

Lemma kc_ret {A} (a : A) : keeps_cursor (ret a).
Proof. by intros w. Qed.

Lemma kc_lift {A} (o : outcome A) : keeps_cursor (lift o).
Proof. by intros w. Qed.

Lemma kc_gets {A} (f : World → A) : keeps_cursor (gets f).
Proof. by intros w. Qed.

Lemma kc_modify (f : World → World) :
  (∀ w, temp_file w ≠ Missing → temp_file (f w) ≠ Missing) → keeps_cursor (modify f).
Proof. intros H w. apply H. Qed.

Lemma kc_bind {A B} (m : M A) (k : A → M B) :
  keeps_cursor m → (∀ a, keeps_cursor (k a)) → keeps_cursor (bind m k).
Proof.
  intros Hm Hk w Hw. unfold bind. specialize (Hm w Hw).
  destruct (m w) as [[a | e] w1]; [by apply Hk | done].
Qed.

Lemma kc_if {A} (c : bool) (m1 m2 : M A) :
  keeps_cursor m1 → keeps_cursor m2 → keeps_cursor (if c then m1 else m2).
Proof. by destruct c. Qed.

Lemma kc_tick : keeps_cursor tick.
Proof. intros w Hw. unfold tick. by destruct w as [? ? ? ? ? ? ? [[| b] |]]. Qed.

Lemma kc_for_each {A} (l : list A) (body : A → M unit) :
  (∀ x, keeps_cursor (body x)) → keeps_cursor (for_each l body).
Proof.
  intros Hbody. induction l as [| x l IH]; [apply kc_ret |].
  cbn [for_each]. by apply kc_bind.
Qed.

Lemma kc_download_image url path : keeps_cursor (download_image http url path).
Proof.
  unfold download_image. apply kc_if; [apply kc_ret |].
  apply kc_bind; [apply kc_gets | intros present].
  apply kc_if; [apply kc_ret |].
  apply kc_bind; [apply kc_modify; by intros [] | intros _].
  apply kc_if; [| apply kc_ret].
  apply kc_bind; [apply kc_modify; by intros [] | intros _; apply kc_ret].
Qed.

Lemma kc_repair_image pid : keeps_cursor (repair_image api http pid).
Proof.
  unfold repair_image. apply kc_bind; [apply kc_lift | intros p].
  apply kc_bind; [apply kc_gets | intros present].
  apply kc_if; [apply kc_ret |].
  apply kc_bind; [apply kc_ret | intros [work |]; [| apply kc_ret]].
  destruct (image_of work); [| apply kc_ret].
  apply kc_bind; [apply kc_download_image | intros _; apply kc_ret].
Qed.

Lemma kc_ingest_new pid : keeps_cursor (ingest_new api http pid).
Proof.
  unfold ingest_new. apply kc_bind; [apply kc_ret | intros [work |]; [| apply kc_ret]].
  apply kc_if; [| apply kc_ret].
  apply kc_bind.
  - destruct (image_of work); [| apply kc_ret].
    apply kc_bind; [apply kc_lift | intros p].
    apply kc_bind; [apply kc_download_image | intros _; apply kc_ret].
  - intros _. apply kc_bind; [apply kc_gets | intros db].
    apply kc_bind; [apply kc_lift | intros db'].
    apply kc_modify. by intros [].
Qed.

Lemma kc_flush : keeps_cursor (flush now).
Proof. apply kc_modify. by intros []. Qed.

Lemma kc_visit fam n : keeps_cursor (visit api http now fam n).
Proof.
  unfold visit. apply kc_bind; [apply kc_tick | intros _].
  apply kc_bind; [apply kc_modify; by intros [] | intros _].
  apply kc_bind; [apply kc_if; [apply kc_modify; by intros [] | apply kc_ret] | intros _].
  apply kc_bind; [apply kc_gets | intros db].
  apply kc_bind; [apply kc_lift | intros existing_entry].
  apply kc_bind; [| intros _; apply kc_if; [apply kc_flush | apply kc_ret]].
  apply kc_if; [apply kc_repair_image | apply kc_ingest_new].
Qed.

Lemma kc_process_batches a e fam : keeps_cursor (process_batches api http now a e fam).
Proof.
  unfold process_batches. apply kc_for_each. intros bs.
  apply kc_bind; [| intros _; apply kc_flush].
  unfold process_sequential_ids. apply kc_for_each. intros n. apply kc_visit.
Qed.

Lemma kc_process_rj s idx : keeps_cursor (process_rj api http now s idx).
Proof.
  unfold process_rj. apply kc_for_each. intros i.
  destruct (rj_ranges !! Z.to_nat i) as [[a e] |]; [apply kc_process_batches | by intros w].
Qed.

(** X20.  [main] never returns: whatever the files, the provider and the
    image server are, it ends with an exception, so the statements after
    the two parts (deleting the cursor file, the closing message) are
    never reached.  A cursor file that is there when the run starts is
    still there when it ends. *)
Theorem main_never_clears_cursor w :
  ∃ e w', main api http now w = (Raise e, w') ∧
          (temp_file w ≠ Missing → temp_file w' ≠ Missing).
Proof.
  unfold main. unfold bind at 1.
  change (load_progress w) with (Ok (cursor w), w). cbv beta iota.
  unfold bind at 1. rewrite load_database_loaded.
  set (w0 := set_database (loaded (db_file w)) w).
  assert (temp_file w0 = temp_file w) as Hw0 by (subst w0; by destruct w).
  unfold bind at 1, lift at 1.
  destruct (start_info (cursor w)) as [[[s idx] in_vj] | e];
    [| exists e, w0; split; [done | by rewrite Hw0]].
  cbv beta iota. unfold bind at 1.
  assert (keeps_cursor (if negb in_vj then process_rj api http now s idx else ret tt))
    as Hkeep by (apply kc_if; [apply kc_process_rj | apply kc_ret]).
  specialize (Hkeep w0). rewrite Hw0 in Hkeep.
  destruct ((if negb in_vj then process_rj api http now s idx else ret tt) w0)
    as [[[] | e] w1].
  - unfold bind at 1. rewrite process_vj_raises. by exists TypeError, w1.
  - by exists e, w1.
Qed.

(** *** Going over identifiers again *)

(** X21.  When accepted records carry the identifier they were asked
    under, going again over any part of an interval a pass has been
    through adds nothing to the catalog: no record is there twice. *)
Theorem replay_adds_nothing fam s e s' e' w items :
  faithful_echo api → fam ∈ ["RJ"; "VJ"] → 0 <= s → e <= 9999999 →
  s <= s' → e' <= e →
  budget w = None → database w = JArr items → Forall has_code items →
  ∃ w1 w2,
    process_sequential_ids api http now s e fam w = (Ok tt, w1) ∧
    process_sequential_ids api http now s' e' fam w1 = (Ok tt, w2) ∧
    database w2 = database w1.
Proof.
  intros Hecho Hfam Hs He Hs' He' Hb Hdb Hitems. unfold process_sequential_ids.
  assert (∀ a b n, s <= a → b <= e → n ∈ range a (b + 1) → 0 <= n <= 9999999) as Hns.
  { intros a b n Ha Hb' Hn. apply elem_of_range in Hn. lia. }
  destruct (pass_settles api http now fam (range s (e + 1)) w items Hecho Hfam)
    as (w1 & more1 & Hv1 & Hb1 & Hdb1 & Hm1 & Hs1 & _); try done.
  { intros n. apply Hns; lia. }
  destruct (pass_settles api http now fam (range s' (e' + 1)) w1 (items ++ more1) Hecho Hfam)
    as (w2 & more2 & Hv2 & _ & Hdb2 & _ & _ & Hq2); try done.
  { intros n. by apply Hns. }
  { by apply Forall_app. }
  exists w1, w2. split; [exact Hv1 |]. split; [exact Hv2 |].
  rewrite Hdb2, Hdb1, Hq2; [by rewrite app_nil_r |].
  intros n Hn. apply Hs1. apply elem_of_range in Hn. apply elem_of_range. lia.
Qed.

End Startup.


(** ** What a kill leaves on disk *)

Section Durability.

Context (api : string → option Work) (http : string → bool) (now : nat → string).

Lemma for_each_app {A} (l1 l2 : list A) (body : A → M unit) : ∀ w,
  for_each (l1 ++ l2) body w =
  match for_each l1 body w with
  | (Ok _, w1) => for_each l2 body w1
  | (Raise e, w1) => (Raise e, w1)
  end.
Proof.
  induction l1 as [| x l1 IH]; intros w; [reflexivity |].
  cbn [app for_each]. unfold bind.
  destruct (body x w) as [[[] | e] w1]; [apply IH | reflexivity].
Qed.

Lemma known_false_app items more pid :
  known items pid = false →
  Forall (λ e, ∃ v, subscript_code e = Ok (JStr v) ∧ v ≠ pid) more →
  known (items ++ more) pid = false.
Proof.
  unfold known. intros Hk Hmore.
  induction items as [| e items IH]; cbn [app first_with_code] in *.
  - induction Hmore as [| e more (v & He & Hv) _ IH]; [done |].
    cbn [first_with_code]. rewrite He. cbn [eq_str].
    by rewrite (proj2 (String.eqb_neq v pid) Hv).
  - destruct (subscript_code e) as [v |]; [| done].
    destruct (eq_str v pid); [done | by apply IH].
Qed.

Lemma code_in_other fam ns n more :
  fam ∈ ["RJ"; "VJ"] → (∀ m, m ∈ ns → 0 <= m <= 9999999) → 0 <= n <= 9999999 →
  n ∉ ns → Forall (code_in fam ns) more →
  Forall (λ e, ∃ v, subscript_code e = Ok (JStr v) ∧ v ≠ generate_id n fam) more.
Proof.
  intros Hfam Hns Hn Hout Hmore.
  eapply Forall_impl; [exact Hmore |]. intros e (m & Hm & He).
  exists (generate_id m fam). split; [done |].
  intros Heq. apply Hout.
  rewrite <- (generate_id_inj fam m n Hfam); [done | | | done];
    apply domain_within; [specialize (Hns m Hm) |]; lia.
Qed.

(** What a pass over [ns] that is not killed leaves behind. *)
Lemma pass_trace fam ns : ∀ w items,
  faithful_echo api → fam ∈ ["RJ"; "VJ"] → (∀ n, n ∈ ns → 0 <= n <= 9999999) →
  (∀ b, budget w = Some b → (length ns <= b)%nat) →
  database w = JArr items → Forall has_code items →
  ∃ w' more,
    for_each ns (visit api http now fam) w = (Ok tt, w') ∧
    budget w' = (λ b, (b - length ns)%nat) <$> budget w ∧
    temp_file w' = foldl (checkpoint fam) (temp_file w) ns ∧
    database w' = JArr (items ++ more) ∧ Forall has_code more ∧
    Forall (code_in fam ns) more ∧
    (∀ n, n ∈ ns → settled api (items ++ more) (generate_id n fam)) ∧
    ((∀ n, n ∈ ns → n mod 20 ≠ 0) → db_file w' = db_file w) ∧
    (∀ init last, ns = init ++ [last] → last mod 20 = 0 →
       ∃ ts, db_file w' = Holds (snapshot ts (database w'))).
Proof.
  induction ns as [| n ns IH]; intros w items Hecho Hfam Hns Hbud Hdb Hitems.
  - exists w, []. rewrite app_nil_r. split; [done |]. split.
    { destruct (budget w); cbn; [f_equal; lia | done]. }
    split; [done |]. split; [done |]. split; [constructor |]. split; [constructor |].
    split; [intros n Hn; by apply elem_of_nil in Hn |]. split; [done |].
    intros init last H. by destruct init.
  - assert (0 <= n <= 9999999) as Hn by apply Hns, list_elem_of_here.
    destruct (image_path_generated n fam Hfam Hn) as [p Hp].
    destruct (visit_effect api http now fam n w items p)
      as (w1 & Hv & _ & Ht1 & Hb1 & Hdb1 & Hf1); try done.
    { intros Hz. specialize (Hbud _ Hz). cbn in Hbud. lia. }
    { intros work url Hw Hal _. rewrite (Hecho _ _ Hw Hal).
      by apply image_path_generated. }
    set (pid := generate_id n fam) in *.
    set (add := if known items pid then [] else accepted api pid) in *.
    assert (Forall has_code add ∧ Forall (code_in fam [n]) add ∧
            settled api (items ++ add) pid) as (Ha1 & Ha2 & Ha3).
    { subst add. destruct (known items pid) eqn:Hknown.
      - split; [constructor |]. split; [constructor |]. left. by rewrite app_nil_r.
      - unfold settled, accepted. destruct (api pid) as [work |] eqn:Hw.
        + destruct (allowed work) eqn:Hal.
          * pose proof (Hecho _ _ Hw Hal) as Hid.
            split; [repeat constructor; apply has_code_entry_of |]. split.
            -- repeat constructor. exists n. split; [apply list_elem_of_here |].
               cbn. by rewrite Hid.
            -- left. rewrite <- Hid. apply known_after_accept.
          * split; [constructor |]. split; [constructor | by right].
        + split; [constructor |]. split; [constructor | by right]. }
    destruct (IH w1 (items ++ add))
      as (w2 & more2 & Hv2 & Hb2 & Ht2 & Hdb2 & Hm2 & Hc2 & Hs2 & Hq2 & Hl2); try done.
    { intros m Hm. by apply Hns, list_elem_of_further. }
    { intros b Hb. rewrite Hb1 in Hb. destruct (budget w) as [b0 |]; [| done].
      cbn in Hb. injection Hb as <-. specialize (Hbud b0 eq_refl). cbn in Hbud. lia. }
    { by apply Forall_app. }
    exists w2, (add ++ more2). cbn [for_each]. unfold bind at 1. rewrite Hv, Hv2.
    split; [done |]. split.
    { rewrite Hb2, Hb1. destruct (budget w) as [b0 |]; cbn; [f_equal; lia | done]. }
    split; [by rewrite Ht2, Ht1 |].
    split; [by rewrite Hdb2, app_assoc |].
    split; [by apply Forall_app |]. split.
    { apply Forall_app. split.
      - eapply Forall_impl; [exact Ha2 |]. intros e (m & Hm & He).
        exists m. split; [| done]. apply list_elem_of_singleton in Hm as ->.
        apply list_elem_of_here.
      - eapply Forall_impl; [exact Hc2 |]. intros e (m & Hm & He).
        exists m. split; [by apply list_elem_of_further | done]. }
    split.
    { intros m [-> | Hm]%elem_of_cons; rewrite app_assoc;
        [by apply settled_app | by apply Hs2]. }
    split.
    { intros Hq. rewrite Hq2 by (intros m Hm; by apply Hq, list_elem_of_further).
      rewrite Hf1. pose proof (Hq n (list_elem_of_here _ _)).
      by replace (n mod 20 =? 0) with false by lia. }
    intros init last Heq Hlast. destruct init as [| i init]; cbn in Heq.
    + injection Heq as -> ->. cbn in Hv2. injection Hv2 as <-.
      rewrite Hf1. replace (last mod 20 =? 0) with true by lia. by eexists.
    + injection Heq as _ ->. by eapply Hl2.
Qed.

(** X22.  The cursor is written every ten identifiers, the catalog file
    every twenty, so a kill can leave the cursor ahead of the file.  Let a
    pass be killed right after [k], and let the last multiple of ten up to
    [k] not be a multiple of twenty.  A record accepted for a number [n]
    between the last multiple of twenty and that cursor is in the catalog
    in memory when the process dies, but not in the file; the pass
    restarted at the cursor loads the file, does not come back to [n], and
    ends without the record, which the uninterrupted pass has. *)
Theorem kill_loses_unflushed_record fam s e k n w items work :
  faithful_echo api → fam ∈ ["RJ"; "VJ"] → 0 <= s → e <= 9999999 →
  budget w = None → database w = JArr items → Forall has_code items →
  api (generate_id n fam) = Some work → allowed work = true →
  known items (generate_id n fam) = false →
  s <= 20 * (k / 20) → 20 * (k / 20) < n < 10 * (k / 10) → k < e →
  ∃ whole killed resumed in_whole in_memory final,
    process_sequential_ids api http now s e fam w = (Ok tt, whole) ∧
    database whole = JArr in_whole ∧
    known in_whole (generate_id n fam) = true ∧
    process_sequential_ids api http now s e fam
      (set_budget (Some (Z.to_nat (k - s + 1))) w) = (Raise KeyboardInterrupt, killed) ∧
    database killed = JArr in_memory ∧
    known in_memory (generate_id n fam) = true ∧
    temp_file killed = Holds (generate_id (10 * (k / 10)) fam) ∧
    process_sequential_ids api http now (10 * (k / 10)) e fam
      (snd (load_database (set_budget None killed))) = (Ok tt, resumed) ∧
    database resumed = JArr final ∧
    known final (generate_id n fam) = false.
Proof.
  intros Hecho Hfam Hs He Hb Hdb Hitems Hw Hal Hnew Hsf Hn Hk.
  set (f := 20 * (k / 20)) in *. set (c := 10 * (k / 10)) in *.
  set (pid := generate_id n fam) in *.
  assert (f <= k < f + 20 ∧ c <= k < c + 10 ∧ f mod 20 = 0 ∧ c mod 10 = 0)
    as (Hf & Hc & Hfm & Hcm) by (subst f c; Z.div_mod_to_equations; lia).
  assert (∀ items', settled api items' pid → known items' pid = true) as Hsettled.
  { intros items' [H | H]; [done |]. unfold accepted in H. subst pid.
    rewrite Hw, Hal in H. discriminate H. }
  assert (∀ a b m, s <= a → b <= e + 1 → m ∈ range a b → 0 <= m <= 9999999) as Hdom.
  { intros a b m Ha Hb' Hm. apply elem_of_range in Hm. lia. }
  unfold process_sequential_ids.
  (* the uninterrupted pass *)
  destruct (pass_trace fam (range s (e + 1)) w items Hecho Hfam)
    as (whole & more0 & Hv0 & _ & _ & Hdb0 & _ & _ & Hs0 & _); try done.
  { intros m. apply Hdom; lia. }
  { intros b Hb'. congruence. }
  (* the killed pass, up to the last write of the catalog file *)
  set (w0 := set_budget (Some (Z.to_nat (k - s + 1))) w).
  assert (budget w0 = Some (Z.to_nat (k - s + 1)) ∧ database w0 = JArr items ∧
          temp_file w0 = temp_file w) as (Hb0 & Hdbw0 & Htw0)
    by (subst w0; by destruct w).
  destruct (pass_trace fam (range s (f + 1)) w0 items Hecho Hfam)
    as (w1 & more1 & Hv1 & Hb1 & Ht1 & Hdb1 & Hm1 & Hc1 & _ & _ & Hl1); try done.
  { intros m. apply Hdom; lia. }
  { intros b Hb'. rewrite Hb0 in Hb'. injection Hb' as <-. rewrite length_range. lia. }
  destruct (Hl1 (range s f) f) as [ts Hfile1]; [| done |].
  { rewrite (range_split s f (f + 1)) by lia. f_equal.
    unfold range. replace (f + 1 - f) with 1 by lia. reflexivity. }
  (* from there to the kill *)
  destruct (pass_trace fam (range (f + 1) (k + 1)) w1 (items ++ more1) Hecho Hfam)
    as (w2 & more2 & Hv2 & Hb2 & Ht2 & Hdb2 & Hm2 & _ & Hs2 & Hq2 & _); try done.
  { intros m. apply Hdom; lia. }
  { intros b Hb'. rewrite Hb1, Hb0 in Hb'. cbn in Hb'. injection Hb' as <-.
    rewrite !length_range. lia. }
  { by apply Forall_app. }
  assert (budget w2 = Some 0%nat) as Hdead.
  { rewrite Hb2, Hb1, Hb0. cbn. f_equal. rewrite !length_range. lia. }
  assert (db_file w2 = Holds (snapshot ts (JArr (items ++ more1)))) as Hfile2.
  { rewrite Hq2, Hfile1, Hdb1; [done |].
    intros m Hm. apply elem_of_range in Hm. Z.div_mod_to_equations; lia. }
  (* the restarted pass *)
  set (w3 := snd (load_database (set_budget None w2))).
  assert (budget w3 = None ∧ database w3 = JArr (items ++ more1)) as (Hb3 & Hdb3).
  { subst w3. rewrite load_database_loaded.
    destruct w2 as [tf df fs db ck vs ds bd]. cbn in Hfile2. subst df. by cbn. }
  destruct (pass_trace fam (range c (e + 1)) w3 (items ++ more1) Hecho Hfam)
    as (resumed & more3 & Hv3 & _ & _ & Hdbr & _ & Hc3 & _); try done.
  { intros m. apply Hdom; lia. }
  { intros b Hb'. congruence. }
  { by apply Forall_app. }
  exists whole, w2, resumed, (items ++ more0), ((items ++ more1) ++ more2),
         ((items ++ more1) ++ more3).
  split; [exact Hv0 |]. split; [exact Hdb0 |].
  split; [apply Hsettled, Hs0, elem_of_range; lia |].
  split.
  { rewrite (range_split s (f + 1) (e + 1)) by lia.
    rewrite (range_split (f + 1) (k + 1) (e + 1)) by lia.
    rewrite for_each_app. fold w0. rewrite Hv1.
    rewrite for_each_app, Hv2.
    unfold range. rewrite seqZ_cons by lia. cbn [for_each]. unfold bind at 1.
    by rewrite (visit_killed api http now fam (k + 1) w2 Hdead). }
  split; [exact Hdb2 |].
  split; [apply Hsettled, Hs2, elem_of_range; lia |].
  split.
  { rewrite Ht2, Ht1, Htw0, <- foldl_app.
    rewrite <- (range_split s (f + 1) (k + 1)) by lia.
    rewrite (foldl_checkpoint_interval fam). fold c.
    by replace (s <=? c) with true by lia. }
  split; [exact Hv3 |]. split; [exact Hdbr |].
  apply known_false_app; [apply known_false_app; [exact Hnew |] |].
  - eapply code_in_other; [done | | | | exact Hc1].
    + intros m. apply Hdom; lia.
    + lia.
    + rewrite elem_of_range. lia.
  - eapply code_in_other; [done | | | | exact Hc3].
    + intros m. apply Hdom; lia.
    + lia.
    + rewrite elem_of_range. lia.
Qed.

End Durability.


(** ** Concrete runs of the further properties *)

Lemma silent_api_echo_ok : echo_ok silent_api.
Proof. intros pid work url H. discriminate H. Qed.

Lemma scenario_api_faithful : faithful_echo scenario_api.
Proof.
  intros pid work H Hal. unfold scenario_api in H.
  destruct (String.eqb_spec pid "RJ000001") as [-> | _];
    [by injection H as <- |].
  destruct (String.eqb_spec pid "RJ000002") as [-> | _]; [| discriminate H].
  injection H as <-. discriminate Hal.
Qed.

Lemma fresh_world_steady : steady fresh_world.
Proof. split; exists []; (split; [reflexivity | constructor]). Qed.

Lemma cursor_round_trip_witness :
  bind (save_progress (generate_id 1305 "RJ")) (λ _, load_progress) fresh_world =
    (Ok (Some (generate_id 1305 "RJ")),
     set_temp_file (Holds (generate_id 1305 "RJ")) fresh_world) ∧
  start_info (Some (generate_id 1305 "RJ")) =
    Ok (1305,
        (if String.eqb "RJ" "RJ" && (1000000 <=? 1305) && (1305 <=? 1369999) then 1 else 0),
        String.eqb "RJ" "VJ").
Proof.
  apply (cursor_round_trip 1305 "RJ" fresh_world);
    [apply list_elem_of_here | vm_compute; reflexivity].
Defined.

Lemma extract_ignores_padding_witness :
  extract_number_and_type ("VJ" +:+ PyStr.repeat0 3 (PyStr.digits 42)) = Ok (42, "VJ").
Proof.
  destruct (extract_ignores_padding 42 3 "VJ") as [Hback _];
    [apply list_elem_of_further, list_elem_of_here | lia |].
  apply Hback. vm_compute. discriminate.
Defined.

Lemma get_base_folder_ignores_suffix_witness :
  get_base_folder ("RJ" +:+ "001305" +:+ String "_" "img_main.jpg")
  = get_base_folder ("RJ" +:+ "001305").
Proof.
  apply (get_base_folder_ignores_suffix "RJ" "001305" "_" "img_main.jpg");
    [reflexivity | reflexivity | discriminate | reflexivity].
Defined.

Lemma shard_key_fixed_point_witness :
  ∃ key, get_base_folder ("RJ" +:+ "001305") = Ok (Some key) ∧
         get_base_folder key = Ok (Some key).
Proof.
  apply (shard_key_fixed_point "RJ" "001305");
    [reflexivity | discriminate | reflexivity | discriminate | simpl; lia].
Defined.

Lemma image_path_layout_witness :
  ∃ key, get_base_folder (generate_id 1305 "RJ") = Ok (Some key) ∧
         image_path (generate_id 1305 "RJ") =
         Ok ("DLsite_DB/" +:+ key +:+ "/" +:+ generate_id 1305 "RJ" +:+ "/" +:+
             generate_id 1305 "RJ" +:+ "_img_main.jpg").
Proof. apply (image_path_layout 1305 "RJ"); [apply list_elem_of_here | lia]. Defined.

Lemma download_image_contract_witness :
  ∃ b w', download_image no_http "//img.example/1.jpg" "a.jpg" fresh_world = (Ok b, w') ∧
    same_but_assets fresh_world w' ∧
    (b = true → "a.jpg" ∈ assets w') ∧
    ("a.jpg" ∈ assets fresh_world → w' = fresh_world) ∧
    (∀ p, p ∈ assets fresh_world → p ∈ assets w') ∧
    (∀ u, u ∈ downloads w' → u ∈ downloads fresh_world ∨ PyStr.startswith "//" u = false).
Proof. apply (download_image_contract no_http "//img.example/1.jpg" "a.jpg" fresh_world). Defined.

Lemma catalog_only_grows_witness :
  ∃ more,
    database (snd (process_sequential_ids scenario_api no_http fixed_clock 0 3 "RJ"
                     fresh_world)) = JArr ([] ++ more) ∧
    Forall (catalogued_by scenario_api) more.
Proof.
  apply (catalog_only_grows scenario_api no_http fixed_clock "RJ" 0 3 fresh_world []).
  reflexivity.
Defined.

Lemma flush_load_round_trip_witness :
  load_database (set_budget None (snd (flush fixed_clock fresh_world)))
  = (Ok tt, set_database (database fresh_world)
              (set_budget None (snd (flush fixed_clock fresh_world)))).
Proof.
  apply (flush_load_round_trip fixed_clock fresh_world
           (set_budget None (snd (flush fixed_clock fresh_world)))).
  reflexivity.
Defined.



Lemma process_sequential_ids_pass_witness :
  ∃ w', process_sequential_ids silent_api no_http fixed_clock 3 25 "RJ" fresh_world
        = (Ok tt, w') ∧
        visited w' = visited fresh_world ++ ids "RJ" (range 3 (25 + 1)) ∧
        temp_file w' =
          (if 3 <=? 10 * (25 / 10) then Holds (generate_id (10 * (25 / 10)) "RJ")
           else temp_file fresh_world) ∧
        steady w'.
Proof.
  apply (process_sequential_ids_pass silent_api no_http fixed_clock "RJ" 3 25 fresh_world).
  - exact silent_api_echo_ok.
  - apply list_elem_of_here.
  - lia.
  - lia.
  - exact fresh_world_steady.
  - reflexivity.
Defined.

Lemma process_batches_ends_on_disk_witness :
  ∃ w' ts, process_batches silent_api no_http fixed_clock 3 2025 "RJ" fresh_world
           = (Ok tt, w') ∧
           db_file w' = Holds (snapshot ts (database w')).
Proof.
  apply (process_batches_ends_on_disk silent_api no_http fixed_clock "RJ" 3 2025 fresh_world).
  - exact silent_api_echo_ok.
  - apply list_elem_of_here.
  - lia.
  - lia.
  - exact fresh_world_steady.
  - reflexivity.
Defined.

Lemma main_resumes_at_cursor_witness :
  let w := set_temp_file (Holds "RJ000010") fresh_world in
  ∃ w', main silent_api no_http fixed_clock w = (Raise TypeError, w') ∧
        visited w' =
          visited w ++ ids "RJ" (range 10 500000 ++ range (Z.max 10 1000000) 1370000) ∧
        temp_file w' = (if 10 <=? 1369990 then Holds "RJ01369990" else temp_file w).
Proof.
  apply (main_resumes_at_cursor silent_api no_http fixed_clock
           (set_temp_file (Holds "RJ000010") fresh_world) 10).
  - exact silent_api_echo_ok.
  - exists []. split; [reflexivity | constructor].
  - reflexivity.
  - reflexivity.
  - lia.
Defined.

Lemma main_replays_second_interval_witness :
  let w := set_temp_file (Holds "RJ01370000") fresh_world in
  ∃ w', main silent_api no_http fixed_clock w = (Raise TypeError, w') ∧
        visited w' = visited w ++ ids "RJ" (range 1000000 1370000).
Proof.
  apply (main_replays_second_interval silent_api no_http fixed_clock
           (set_temp_file (Holds "RJ01370000") fresh_world) 1370000).
  - exact silent_api_echo_ok.
  - exists []. split; [reflexivity | constructor].
  - reflexivity.
  - reflexivity.
  - split; [lia | vm_compute; reflexivity].
Defined.

Lemma main_stops_on_vj_cursor_witness :
  let w := set_temp_file (Holds "VJ000010") fresh_world in
  main scenario_api no_http fixed_clock w
  = (Raise TypeError, set_database (loaded (db_file w)) w).
Proof.
  apply (main_stops_on_vj_cursor scenario_api no_http fixed_clock
           (set_temp_file (Holds "VJ000010") fresh_world) 10).
  - reflexivity.
  - vm_compute. reflexivity.
Defined.

Lemma main_rejects_corrupt_cursor_witness :
  let w := set_temp_file (Holds "RJ0000a0") fresh_world in
  main scenario_api no_http fixed_clock w
  = (Raise ValueError, set_database (loaded (db_file w)) w).
Proof.
  apply (main_rejects_corrupt_cursor scenario_api no_http fixed_clock
           (set_temp_file (Holds "RJ0000a0") fresh_world) "RJ" "0000a0").
  - reflexivity.
  - apply list_elem_of_here.
  - right. reflexivity.
Defined.

Lemma main_restarts_on_unknown_cursor_witness :
  let w := set_temp_file (Holds "rj000010") fresh_world in
  ∃ w', main silent_api no_http fixed_clock w = (Raise TypeError, w') ∧
        visited w' = visited w ++ ids "RJ" (range 0 500000 ++ range 1000000 1370000).
Proof.
  apply (main_restarts_on_unknown_cursor silent_api no_http fixed_clock
           (set_temp_file (Holds "rj000010") fresh_world)).
  - exact silent_api_echo_ok.
  - exists []. split; [reflexivity | constructor].
  - reflexivity.
  - intros c Hc. injection Hc as <-.
    apply (proj1 (bool_decide_eq_false _)). reflexivity.
Defined.


Lemma main_stops_on_unreadable_catalog_witness :
  let w := set_db_file (Holds (JObj [("records", JArr [])])) fresh_world in
  main scenario_api no_http fixed_clock w =
  (Raise TypeError,
   set_temp_file (Holds "RJ000000")
     (set_visited (visited w ++ ["RJ000000"])
        (set_database (loaded (db_file w)) w))).
Proof.
  apply (main_stops_on_unreadable_catalog scenario_api no_http fixed_clock
           (set_db_file (Holds (JObj [("records", JArr [])])) fresh_world));
    reflexivity.
Defined.

Lemma main_never_clears_cursor_witness :
  let w := set_temp_file (Holds "VJ000010") fresh_world in
  ∃ e w', main scenario_api no_http fixed_clock w = (Raise e, w') ∧
          (temp_file w ≠ Missing → temp_file w' ≠ Missing).
Proof.
  apply (main_never_clears_cursor scenario_api no_http fixed_clock
           (set_temp_file (Holds "VJ000010") fresh_world)).
Defined.

Lemma replay_adds_nothing_witness :
  ∃ w1 w2,
    process_sequential_ids scenario_api no_http fixed_clock 0 3 "RJ" fresh_world
      = (Ok tt, w1) ∧
    process_sequential_ids scenario_api no_http fixed_clock 1 2 "RJ" w1 = (Ok tt, w2) ∧
    database w2 = database w1.
Proof.
  apply (replay_adds_nothing scenario_api no_http fixed_clock "RJ" 0 3 1 2 fresh_world []).
  - exact scenario_api_faithful.
  - apply list_elem_of_here.
  - lia.
  - lia.
  - lia.
  - lia.
  - reflexivity.
  - reflexivity.
  - constructor.
Defined.

Lemma kill_loses_unflushed_record_witness :
  ∃ whole killed resumed in_whole in_memory final,
    process_sequential_ids scenario_api no_http fixed_clock 0 30 "RJ" fresh_world
      = (Ok tt, whole) ∧
    database whole = JArr in_whole ∧
    known in_whole (generate_id 1 "RJ") = true ∧
    process_sequential_ids scenario_api no_http fixed_clock 0 30 "RJ"
      (set_budget (Some (Z.to_nat (15 - 0 + 1))) fresh_world)
      = (Raise KeyboardInterrupt, killed) ∧
    database killed = JArr in_memory ∧
    known in_memory (generate_id 1 "RJ") = true ∧
    temp_file killed = Holds (generate_id (10 * (15 / 10)) "RJ") ∧
    process_sequential_ids scenario_api no_http fixed_clock (10 * (15 / 10)) 30 "RJ"
      (snd (load_database (set_budget None killed))) = (Ok tt, resumed) ∧
    database resumed = JArr final ∧
    known final (generate_id 1 "RJ") = false.
Proof.
  apply (kill_loses_unflushed_record scenario_api no_http fixed_clock "RJ" 0 30 15 1
           fresh_world []
           (mkWork "RJ000001" "maniax" "T1" (Some "C1") None (Some "//img.example/1.jpg"))).
  - exact scenario_api_faithful.
  - apply list_elem_of_here.
  - lia.
  - lia.
  - reflexivity.
  - reflexivity.
  - constructor.
  - reflexivity.
  - apply (proj1 (bool_decide_eq_true _)). reflexivity.
  - reflexivity.
  - vm_compute. discriminate.
  - vm_compute. split; reflexivity.
  - lia.
Defined.
